(** * The director's job queue (src/core/src/dird/jobq.cc)

    A shallow embedding of the job queue and admission scheduler of the
    director daemon: the concurrency counters of clients, job definitions
    and storages, the admission routine [AcquireResources], the queue
    operations [JobqAdd] and [JobqRemove], the promotion pass of
    [jobq_server] and the reschedule engine [RescheduleJob].

    Conventions of the embedding.
    - C integers ([int], [time_t], counters) are [Z].
    - A pointer to a job control record is an address ([ptr], a [nat],
      with [nullptr = 0]); the records live in a heap [gmap ptr JCR].
    - A configuration resource is a record carrying its
      [resource_name_]; the runtime status objects ([rcs], [rjs],
      [runtime_storage_status]) it points to are shared by every job that
      refers to the resource, so their counters live in one store, the
      [Director] state, keyed by resource name.
    - Code runs in a state monad with faults: a run ends in [Ok] with a
      value and a state, or in a [Fault], such as a member access
      through a null pointer or through a pointer to no record.
    - Reading through a past-the-end list iterator reads the header
      node of the list, where the list keeps its size: the word read is
      null when the list is empty, and for a list with entries it is
      the number of entries, which points to no record. The code
      relies on the first case to find that no job runs
      ([jobq.cc:518]).
    - [Dmsg] debug lines at level 50 and [Jmsg] job messages are appended
      to the message list of the [Director] state. *)

From Stdlib Require Import ZArith Lia List Bool.
From stdpp Require Import base option list functions gmap.

Local Open Scope Z_scope.

(** ** Resources *)

(** Modelled from the spec: the resource classes [StorageResource],
    [ClientResource] and [JobResource] are declared in headers outside
    the sources at hand. The records carry the fields [jobq.cc] reads;
    the specification gives each resource an integer [n] and a constant
    [max], and each job definition its reschedule policy and its
    [allow_mixed_priority] flag. A resource is known by its
    [resource_name_]. *)
Definition resource_name := nat.

Record StorageResource := {
  store_resource_name_ : resource_name;
  store_MaxConcurrentJobs : Z
}.

Record ClientResource := {
  client_resource_name_ : resource_name;
  client_MaxConcurrentJobs : Z
}.

Record JobResource := {
  job_resource_name_ : resource_name;
  job_MaxConcurrentJobs : Z;
  RescheduleTimes : Z;
  RescheduleInterval : Z;
  RescheduleOnError : bool;
  RescheduleIncompleteJobs : bool;
  allow_mixed_priority : bool
}.

(** ** Job control records *)

(** Modelled from the spec: the [JS_*], [JT_*] and [L_*] constants are
    declared in headers that are not part of the sources at hand; the
    values are the ones the data model of the specification lists.
    [JS_Unset] stands for the [-1] that [RescheduleJob] stores. *)
Inductive job_status :=
| JS_Unset | JS_WaitStartTime | JS_WaitPriority | JS_WaitClientRes
| JS_WaitStoreRes | JS_WaitJobRes | JS_Ready | JS_Running | JS_Canceled
| JS_ErrorTerminated | JS_Incomplete | JS_Terminated.

Inductive job_type :=
| JT_BACKUP | JT_RESTORE | JT_VERIFY | JT_ADMIN
| JT_MIGRATE | JT_COPY | JT_CONSOLIDATE.

Inductive job_level :=
| L_FULL | L_INCREMENTAL | L_DIFFERENTIAL | L_BASE.

Global Instance job_status_eq_dec : EqDecision job_status.
Proof. solve_decision. Defined.
Global Instance job_type_eq_dec : EqDecision job_type.
Proof. solve_decision. Defined.
Global Instance job_level_eq_dec : EqDecision job_level.
Proof. solve_decision. Defined.

(** Modelled from the spec: [JobControlRecord] and its private part are
    declared in headers outside the sources at hand. The records carry
    the fields [jobq.cc] reads or writes, under the names it uses;
    [canceled] is the externally observable canceled flag of the
    specification.

    [jcr->impl->res]: *)
Record Resources := {
  read_storage : option StorageResource;
  write_storage : option StorageResource;
  read_storage_list : list StorageResource;
  write_storage_list : list StorageResource;
  client : option ClientResource;
  job : option JobResource;
  messages : nat;
  pool : nat;
  run_pool_override : bool;
  full_pool : nat;
  run_full_pool_override : bool;
  inc_pool : nat;
  run_inc_pool_override : bool;
  diff_pool : nat;
  run_diff_pool_override : bool;
  next_pool : nat;
  run_next_pool_override : bool
}.

(** [jcr->impl] *)
Record JobControlRecordPrivate := {
  res : Resources;
  SDJobStatus : Z;
  term_wait_inited : bool;
  acquired_resource_locks : bool;
  IgnoreClientConcurrency : bool;
  IgnoreStorageConcurrency : bool;
  MigrateJobId : Z;
  reschedule_count : Z;
  spool_data : bool;
  jr_RealEndTime : Z
}.

Record JobControlRecord := {
  JobId : Z;
  JobType : job_type;
  JobLevel : job_level;
  JobStatus : job_status;
  JobPriority : Z;
  sched_time : Z;
  initial_sched_time : Z;
  JobBytes : Z;
  JobErrors : Z;
  use_count : Z;
  canceled : bool;
  impl : JobControlRecordPrivate
}.

Abbreviation JCR := JobControlRecord.

(** *** Field assignments *)

Definition with_impl (f : JobControlRecordPrivate → JobControlRecordPrivate)
    (jcr : JCR) : JCR :=
  {| JobId := JobId jcr; JobType := JobType jcr; JobLevel := JobLevel jcr;
     JobStatus := JobStatus jcr; JobPriority := JobPriority jcr;
     sched_time := sched_time jcr;
     initial_sched_time := initial_sched_time jcr;
     JobBytes := JobBytes jcr; JobErrors := JobErrors jcr;
     use_count := use_count jcr; canceled := canceled jcr;
     impl := f (impl jcr) |}.

Definition set_JobStatus (s : job_status) (jcr : JCR) : JCR :=
  {| JobId := JobId jcr; JobType := JobType jcr; JobLevel := JobLevel jcr;
     JobStatus := s; JobPriority := JobPriority jcr;
     sched_time := sched_time jcr;
     initial_sched_time := initial_sched_time jcr;
     JobBytes := JobBytes jcr; JobErrors := JobErrors jcr;
     use_count := use_count jcr; canceled := canceled jcr;
     impl := impl jcr |}.

Definition set_JobLevel (l : job_level) (jcr : JCR) : JCR :=
  {| JobId := JobId jcr; JobType := JobType jcr; JobLevel := l;
     JobStatus := JobStatus jcr; JobPriority := JobPriority jcr;
     sched_time := sched_time jcr;
     initial_sched_time := initial_sched_time jcr;
     JobBytes := JobBytes jcr; JobErrors := JobErrors jcr;
     use_count := use_count jcr; canceled := canceled jcr;
     impl := impl jcr |}.

Definition set_sched_time (t : Z) (jcr : JCR) : JCR :=
  {| JobId := JobId jcr; JobType := JobType jcr; JobLevel := JobLevel jcr;
     JobStatus := JobStatus jcr; JobPriority := JobPriority jcr;
     sched_time := t;
     initial_sched_time := initial_sched_time jcr;
     JobBytes := JobBytes jcr; JobErrors := JobErrors jcr;
     use_count := use_count jcr; canceled := canceled jcr;
     impl := impl jcr |}.

Definition set_initial_sched_time (t : Z) (jcr : JCR) : JCR :=
  {| JobId := JobId jcr; JobType := JobType jcr; JobLevel := JobLevel jcr;
     JobStatus := JobStatus jcr; JobPriority := JobPriority jcr;
     sched_time := sched_time jcr;
     initial_sched_time := t;
     JobBytes := JobBytes jcr; JobErrors := JobErrors jcr;
     use_count := use_count jcr; canceled := canceled jcr;
     impl := impl jcr |}.

Definition set_JobErrors (n : Z) (jcr : JCR) : JCR :=
  {| JobId := JobId jcr; JobType := JobType jcr; JobLevel := JobLevel jcr;
     JobStatus := JobStatus jcr; JobPriority := JobPriority jcr;
     sched_time := sched_time jcr;
     initial_sched_time := initial_sched_time jcr;
     JobBytes := JobBytes jcr; JobErrors := n;
     use_count := use_count jcr; canceled := canceled jcr;
     impl := impl jcr |}.

Definition set_use_count (n : Z) (jcr : JCR) : JCR :=
  {| JobId := JobId jcr; JobType := JobType jcr; JobLevel := JobLevel jcr;
     JobStatus := JobStatus jcr; JobPriority := JobPriority jcr;
     sched_time := sched_time jcr;
     initial_sched_time := initial_sched_time jcr;
     JobBytes := JobBytes jcr; JobErrors := JobErrors jcr;
     use_count := n; canceled := canceled jcr;
     impl := impl jcr |}.

Definition set_res (r : Resources) (i : JobControlRecordPrivate) :=
  {| res := r; SDJobStatus := SDJobStatus i;
     term_wait_inited := term_wait_inited i;
     acquired_resource_locks := acquired_resource_locks i;
     IgnoreClientConcurrency := IgnoreClientConcurrency i;
     IgnoreStorageConcurrency := IgnoreStorageConcurrency i;
     MigrateJobId := MigrateJobId i;
     reschedule_count := reschedule_count i;
     spool_data := spool_data i; jr_RealEndTime := jr_RealEndTime i |}.

Definition set_SDJobStatus (s : Z) (i : JobControlRecordPrivate) :=
  {| res := res i; SDJobStatus := s;
     term_wait_inited := term_wait_inited i;
     acquired_resource_locks := acquired_resource_locks i;
     IgnoreClientConcurrency := IgnoreClientConcurrency i;
     IgnoreStorageConcurrency := IgnoreStorageConcurrency i;
     MigrateJobId := MigrateJobId i;
     reschedule_count := reschedule_count i;
     spool_data := spool_data i; jr_RealEndTime := jr_RealEndTime i |}.

Definition set_term_wait_inited (b : bool) (i : JobControlRecordPrivate) :=
  {| res := res i; SDJobStatus := SDJobStatus i;
     term_wait_inited := b;
     acquired_resource_locks := acquired_resource_locks i;
     IgnoreClientConcurrency := IgnoreClientConcurrency i;
     IgnoreStorageConcurrency := IgnoreStorageConcurrency i;
     MigrateJobId := MigrateJobId i;
     reschedule_count := reschedule_count i;
     spool_data := spool_data i; jr_RealEndTime := jr_RealEndTime i |}.

Definition set_acquired_resource_locks (b : bool)
    (i : JobControlRecordPrivate) :=
  {| res := res i; SDJobStatus := SDJobStatus i;
     term_wait_inited := term_wait_inited i;
     acquired_resource_locks := b;
     IgnoreClientConcurrency := IgnoreClientConcurrency i;
     IgnoreStorageConcurrency := IgnoreStorageConcurrency i;
     MigrateJobId := MigrateJobId i;
     reschedule_count := reschedule_count i;
     spool_data := spool_data i; jr_RealEndTime := jr_RealEndTime i |}.

Definition set_IgnoreClientConcurrency (b : bool)
    (i : JobControlRecordPrivate) :=
  {| res := res i; SDJobStatus := SDJobStatus i;
     term_wait_inited := term_wait_inited i;
     acquired_resource_locks := acquired_resource_locks i;
     IgnoreClientConcurrency := b;
     IgnoreStorageConcurrency := IgnoreStorageConcurrency i;
     MigrateJobId := MigrateJobId i;
     reschedule_count := reschedule_count i;
     spool_data := spool_data i; jr_RealEndTime := jr_RealEndTime i |}.

Definition set_IgnoreStorageConcurrency (b : bool)
    (i : JobControlRecordPrivate) :=
  {| res := res i; SDJobStatus := SDJobStatus i;
     term_wait_inited := term_wait_inited i;
     acquired_resource_locks := acquired_resource_locks i;
     IgnoreClientConcurrency := IgnoreClientConcurrency i;
     IgnoreStorageConcurrency := b;
     MigrateJobId := MigrateJobId i;
     reschedule_count := reschedule_count i;
     spool_data := spool_data i; jr_RealEndTime := jr_RealEndTime i |}.

Definition set_reschedule_count (n : Z) (i : JobControlRecordPrivate) :=
  {| res := res i; SDJobStatus := SDJobStatus i;
     term_wait_inited := term_wait_inited i;
     acquired_resource_locks := acquired_resource_locks i;
     IgnoreClientConcurrency := IgnoreClientConcurrency i;
     IgnoreStorageConcurrency := IgnoreStorageConcurrency i;
     MigrateJobId := MigrateJobId i;
     reschedule_count := n;
     spool_data := spool_data i; jr_RealEndTime := jr_RealEndTime i |}.

Definition set_spool_data (b : bool) (i : JobControlRecordPrivate) :=
  {| res := res i; SDJobStatus := SDJobStatus i;
     term_wait_inited := term_wait_inited i;
     acquired_resource_locks := acquired_resource_locks i;
     IgnoreClientConcurrency := IgnoreClientConcurrency i;
     IgnoreStorageConcurrency := IgnoreStorageConcurrency i;
     MigrateJobId := MigrateJobId i;
     reschedule_count := reschedule_count i;
     spool_data := b; jr_RealEndTime := jr_RealEndTime i |}.

Definition set_jr_RealEndTime (t : Z) (i : JobControlRecordPrivate) :=
  {| res := res i; SDJobStatus := SDJobStatus i;
     term_wait_inited := term_wait_inited i;
     acquired_resource_locks := acquired_resource_locks i;
     IgnoreClientConcurrency := IgnoreClientConcurrency i;
     IgnoreStorageConcurrency := IgnoreStorageConcurrency i;
     MigrateJobId := MigrateJobId i;
     reschedule_count := reschedule_count i;
     spool_data := spool_data i; jr_RealEndTime := t |}.

(** Modelled from the spec: [JobControlRecord::setJobStatus] is defined
    outside the sources at hand; the specification describes it as
    setting the status of the record. *)
Definition setJobStatus (s : job_status) (jcr : JCR) : JCR :=
  set_JobStatus s jcr.

(** Modelled from the spec: [JobCanceled] is declared in a header outside
    the sources at hand; the specification describes an externally
    observable canceled flag on the record. *)
Definition JobCanceled (jcr : JCR) : bool := canceled jcr.

(** ** A state monad with faults *)

Inductive fault :=
| NullPointer      (* member access through a null pointer *)
| InvalidPointer   (* access through a pointer to no live record *)
| ErasedIterator   (* use of an iterator whose node was erased *)
| OutOfFuel.       (* iteration bound of the embedding exhausted *)

Inductive result (X : Type) :=
| Ok (x : X)
| Fault (f : fault).
Arguments Ok {X} x.
Arguments Fault {X} f.

Definition M (S A : Type) : Type := S → result (A * S).

Global Instance M_ret {S} : MRet (M S) := λ A a s, Ok (a, s).
Global Instance M_bind {S} : MBind (M S) := λ A B k m s,
  match m s with
  | Ok (a, s') => k a s'
  | Fault f => Fault f
  end.

Definition ret {S A} (a : A) : M S A := mret a.
Definition raise {S A} (f : fault) : M S A := λ _, Fault f.
Definition gets {S A} (f : S → A) : M S A := λ s, Ok (f s, s).
Definition modify {S} (f : S → S) : M S unit := λ s, Ok (tt, f s).

(** [p->...] on a possibly null reference *)
Definition deref {S A} (p : option A) : M S A :=
  match p with
  | Some a => ret a
  | None => raise NullPointer
  end.

(** ** The concurrency counters *)

Inductive permit := Rstore | Wstore | Client | Job.

Inductive severity := M_INFO | M_ERROR | M_FATAL.

(** The texts of the job messages of this file, with their arguments. *)
Inductive jmsg_text :=
| NumConcurrentReadJobs_Dec_Rstore (name : resource_name) (n : Z)
| NumConcurrentJobs_Dec_Rstore (name : resource_name) (n : Z)
| NumConcurrentJobs_Dec_Wstore (name : resource_name) (n : Z)
| Unable_to_init_job_cond_variable (status : Z)
| Jobq_add_queue_not_initialized
| pthread_thread_create_ERR (status : Z)
| pthread_create_ERR (status : Z)
| Rescheduled_Job (JobId_ : Z) (now interval then_ : Z).

(** [Dmsg2(50, ...)] lines of the counters and [Jmsg] job messages. *)
Inductive msg :=
| Dmsg_Inc (p : permit) (name : resource_name) (n : Z)
| Dmsg_Dec (p : permit) (name : resource_name) (n : Z)
| Dmsg_Fail (p : permit) (name : resource_name) (n : Z)
| Jmsg (sev : severity) (text : jmsg_text).

Record Director := {
  rcs_NumConcurrentJobs : resource_name → Z;
  rjs_NumConcurrentJobs : resource_name → Z;
  rss_NumConcurrentJobs : resource_name → Z;
  rss_NumConcurrentReadJobs : resource_name → Z;
  msgs : list msg
}.

Definition set_rcs (f : resource_name → Z) (d : Director) : Director :=
  {| rcs_NumConcurrentJobs := f;
     rjs_NumConcurrentJobs := rjs_NumConcurrentJobs d;
     rss_NumConcurrentJobs := rss_NumConcurrentJobs d;
     rss_NumConcurrentReadJobs := rss_NumConcurrentReadJobs d;
     msgs := msgs d |}.

Definition set_rjs (f : resource_name → Z) (d : Director) : Director :=
  {| rcs_NumConcurrentJobs := rcs_NumConcurrentJobs d;
     rjs_NumConcurrentJobs := f;
     rss_NumConcurrentJobs := rss_NumConcurrentJobs d;
     rss_NumConcurrentReadJobs := rss_NumConcurrentReadJobs d;
     msgs := msgs d |}.

Definition set_rss (f : resource_name → Z) (d : Director) : Director :=
  {| rcs_NumConcurrentJobs := rcs_NumConcurrentJobs d;
     rjs_NumConcurrentJobs := rjs_NumConcurrentJobs d;
     rss_NumConcurrentJobs := f;
     rss_NumConcurrentReadJobs := rss_NumConcurrentReadJobs d;
     msgs := msgs d |}.

Definition set_rss_read (f : resource_name → Z) (d : Director) : Director :=
  {| rcs_NumConcurrentJobs := rcs_NumConcurrentJobs d;
     rjs_NumConcurrentJobs := rjs_NumConcurrentJobs d;
     rss_NumConcurrentJobs := rss_NumConcurrentJobs d;
     rss_NumConcurrentReadJobs := f;
     msgs := msgs d |}.

Definition log (m : msg) : M Director unit :=
  modify (λ d,
    {| rcs_NumConcurrentJobs := rcs_NumConcurrentJobs d;
       rjs_NumConcurrentJobs := rjs_NumConcurrentJobs d;
       rss_NumConcurrentJobs := rss_NumConcurrentJobs d;
       rss_NumConcurrentReadJobs := rss_NumConcurrentReadJobs d;
       msgs := msgs d ++ [m] |}).

(** [jobq.cc:861-881] *)
Definition IncClientConcurrency (jcr : JCR) : M Director bool :=
  match client (res (impl jcr)) with
  | None => ret true
  | Some c =>
    if IgnoreClientConcurrency (impl jcr) then ret true
    else
      n ← gets (λ d, rcs_NumConcurrentJobs d (client_resource_name_ c));
      if n <? client_MaxConcurrentJobs c then
        modify (λ d, set_rcs
          (<[client_resource_name_ c := n + 1]> (rcs_NumConcurrentJobs d)) d);;
        log (Dmsg_Inc Client (client_resource_name_ c) (n + 1));;
        ret true
      else ret false
  end.

(** [jobq.cc:883-894] *)
Definition DecClientConcurrency (jcr : JCR) : M Director unit :=
  if IgnoreClientConcurrency (impl jcr) then ret tt
  else
    match client (res (impl jcr)) with
    | Some c =>
      n ← gets (λ d, rcs_NumConcurrentJobs d (client_resource_name_ c));
      modify (λ d, set_rcs
        (<[client_resource_name_ c := n - 1]> (rcs_NumConcurrentJobs d)) d);;
      log (Dmsg_Dec Client (client_resource_name_ c) (n - 1))
    | None => ret tt
    end.

(** [jobq.cc:896-912] *)
Definition IncJobConcurrency (jcr : JCR) : M Director bool :=
  j ← deref (job (res (impl jcr)));
  n ← gets (λ d, rjs_NumConcurrentJobs d (job_resource_name_ j));
  if n <? job_MaxConcurrentJobs j then
    modify (λ d, set_rjs
      (<[job_resource_name_ j := n + 1]> (rjs_NumConcurrentJobs d)) d);;
    log (Dmsg_Inc Job (job_resource_name_ j) (n + 1));;
    ret true
  else ret false.

(** [jobq.cc:914-921] *)
Definition DecJobConcurrency (jcr : JCR) : M Director unit :=
  j ← deref (job (res (impl jcr)));
  n ← gets (λ d, rjs_NumConcurrentJobs d (job_resource_name_ j));
  modify (λ d, set_rjs
    (<[job_resource_name_ j := n - 1]> (rjs_NumConcurrentJobs d)) d);;
  log (Dmsg_Dec Job (job_resource_name_ j) (n - 1)).

(** [jobq.cc:927-952] *)
Definition IncReadStore (jcr : JCR) : M Director bool :=
  if IgnoreStorageConcurrency (impl jcr) then ret true
  else
    s ← deref (read_storage (res (impl jcr)));
    n ← gets (λ d, rss_NumConcurrentJobs d (store_resource_name_ s));
    if n <? store_MaxConcurrentJobs s then
      r ← gets (λ d, rss_NumConcurrentReadJobs d (store_resource_name_ s));
      modify (λ d, set_rss_read
        (<[store_resource_name_ s := r + 1]> (rss_NumConcurrentReadJobs d)) d);;
      modify (λ d, set_rss
        (<[store_resource_name_ s := n + 1]> (rss_NumConcurrentJobs d)) d);;
      log (Dmsg_Inc Rstore (store_resource_name_ s) (n + 1));;
      ret true
    else
      log (Dmsg_Fail Rstore (store_resource_name_ s) n);;
      ret false.

(** [jobq.cc:954-984] *)
Definition DecReadStore (jcr : JCR) : M Director unit :=
  match read_storage (res (impl jcr)) with
  | Some s =>
    if negb (IgnoreStorageConcurrency (impl jcr)) then
      r ← gets (λ d, rss_NumConcurrentReadJobs d (store_resource_name_ s));
      modify (λ d, set_rss_read
        (<[store_resource_name_ s := r - 1]> (rss_NumConcurrentReadJobs d)) d);;
      n ← gets (λ d, rss_NumConcurrentJobs d (store_resource_name_ s));
      modify (λ d, set_rss
        (<[store_resource_name_ s := n - 1]> (rss_NumConcurrentJobs d)) d);;
      log (Dmsg_Dec Rstore (store_resource_name_ s) (n - 1));;
      (if r - 1 <? 0 then
         log (Jmsg M_FATAL (NumConcurrentReadJobs_Dec_Rstore
                (store_resource_name_ s) (r - 1)))
       else ret tt);;
      (if n - 1 <? 0 then
         log (Jmsg M_FATAL (NumConcurrentJobs_Dec_Rstore
                (store_resource_name_ s) (n - 1)))
       else ret tt)
    else ret tt
  | None => ret tt
  end.

(** [jobq.cc:986-1010] *)
Definition IncWriteStore (jcr : JCR) : M Director bool :=
  if IgnoreStorageConcurrency (impl jcr) then ret true
  else
    s ← deref (write_storage (res (impl jcr)));
    n ← gets (λ d, rss_NumConcurrentJobs d (store_resource_name_ s));
    if n <? store_MaxConcurrentJobs s then
      modify (λ d, set_rss
        (<[store_resource_name_ s := n + 1]> (rss_NumConcurrentJobs d)) d);;
      log (Dmsg_Inc Wstore (store_resource_name_ s) (n + 1));;
      ret true
    else
      log (Dmsg_Fail Wstore (store_resource_name_ s) n);;
      ret false.

(** [jobq.cc:1012-1031] *)
Definition DecWriteStore (jcr : JCR) : M Director unit :=
  match write_storage (res (impl jcr)) with
  | Some s =>
    if negb (IgnoreStorageConcurrency (impl jcr)) then
      n ← gets (λ d, rss_NumConcurrentJobs d (store_resource_name_ s));
      modify (λ d, set_rss
        (<[store_resource_name_ s := n - 1]> (rss_NumConcurrentJobs d)) d);;
      log (Dmsg_Dec Wstore (store_resource_name_ s) (n - 1));;
      (if n - 1 <? 0 then
         log (Jmsg M_FATAL (NumConcurrentJobs_Dec_Wstore
                (store_resource_name_ s) (n - 1)))
       else ret tt)
    else ret tt
  | None => ret tt
  end.

(** ** Admission: [AcquireResources], [jobq.cc:778-859] *)

Definition job_type_exclusions (jcr : JCR) : JCR :=
  match JobType jcr with
  | JT_MIGRATE | JT_COPY | JT_CONSOLIDATE =>
    let jcr := with_impl (set_IgnoreClientConcurrency true) jcr in
    if MigrateJobId (impl jcr) =? 0 then
      with_impl (set_IgnoreStorageConcurrency true) jcr
    else jcr
  | _ => jcr
  end.

Definition AcquireResources (jcr : JCR) : M Director (bool * JCR) :=
  let jcr := with_impl (set_acquired_resource_locks false) jcr in
  let jcr := job_type_exclusions jcr in
  rs ← match read_storage (res (impl jcr)) with
       | Some _ => IncReadStore jcr
       | None => ret true
       end;
  if negb rs then ret (false, setJobStatus JS_WaitStoreRes jcr)
  else
    ws ← match write_storage (res (impl jcr)) with
         | Some _ => IncWriteStore jcr
         | None => ret true
         end;
    if negb ws then
      DecReadStore jcr;;
      ret (false, setJobStatus JS_WaitStoreRes jcr)
    else
      cl ← IncClientConcurrency jcr;
      if negb cl then
        DecWriteStore jcr;;
        DecReadStore jcr;;
        ret (false, setJobStatus JS_WaitClientRes jcr)
      else
        jb ← IncJobConcurrency jcr;
        if negb jb then
          DecWriteStore jcr;;
          DecReadStore jcr;;
          DecClientConcurrency jcr;;
          ret (false, setJobStatus JS_WaitJobRes jcr)
        else
          ret (true, with_impl (set_acquired_resource_locks true) jcr).


(** ** The queue *)

Definition ptr := nat.
Definition nullptr : ptr := 0%nat.

(** Modelled from the spec: [jobq_t] is declared in [jobq.h], outside
    the sources at hand; the specification gives the queue three lists,
    a worker count and its bound, and the [valid] and [quit] flags.
    [valid] stands for [jq->valid == JOBQ_VALID]. The lists are used as
    [std::list<JobControlRecord*>]: [push_front], [push_back],
    [remove(value)], [insert(it, value)]. *)
Record jobq_t := {
  valid : bool;
  quit : bool;
  max_workers : Z;
  num_workers : Z;
  waiting_jobs : list ptr;
  ready_jobs : list ptr;
  running_jobs : list ptr
}.

Definition set_num_workers (n : Z) (q : jobq_t) : jobq_t :=
  {| valid := valid q; quit := quit q; max_workers := max_workers q;
     num_workers := n; waiting_jobs := waiting_jobs q;
     ready_jobs := ready_jobs q; running_jobs := running_jobs q |}.

Definition set_waiting_jobs (l : list ptr) (q : jobq_t) : jobq_t :=
  {| valid := valid q; quit := quit q; max_workers := max_workers q;
     num_workers := num_workers q; waiting_jobs := l;
     ready_jobs := ready_jobs q; running_jobs := running_jobs q |}.

Definition set_ready_jobs (l : list ptr) (q : jobq_t) : jobq_t :=
  {| valid := valid q; quit := quit q; max_workers := max_workers q;
     num_workers := num_workers q; waiting_jobs := waiting_jobs q;
     ready_jobs := l; running_jobs := running_jobs q |}.

Definition set_running_jobs (l : list ptr) (q : jobq_t) : jobq_t :=
  {| valid := valid q; quit := quit q; max_workers := max_workers q;
     num_workers := num_workers q; waiting_jobs := waiting_jobs q;
     ready_jobs := ready_jobs q; running_jobs := l |}.

(** Calls that leave this file: threads created and collaborators of
    the director called, in program order. *)
Inductive call :=
| pthread_create_sched_wait (jcr : ptr)
| pthread_create_jobq_server
| FreeJcr (jcr : ptr)
| free (p : ptr)
| UpdateJobEnd (jcr : ptr) (s : job_status)
| DirdFreeJcrPointers (jcr : ptr)
| NewDirectorJcr (njcr : ptr)
| SetJcrDefaults (njcr : ptr)
| CopyRstorage (njcr : ptr)
| FreeRstorage (njcr : ptr)
| CopyWstorage (njcr : ptr)
| FreeWstorage (njcr : ptr)
| RunJob (njcr : ptr).

Record World := {
  heap : gmap ptr JCR;
  jq : jobq_t;
  dir : Director;
  calls : list call
}.

Definition set_heap (h : gmap ptr JCR) (w : World) : World :=
  {| heap := h; jq := jq w; dir := dir w; calls := calls w |}.
Definition set_jq (q : jobq_t) (w : World) : World :=
  {| heap := heap w; jq := q; dir := dir w; calls := calls w |}.
Definition set_dir (d : Director) (w : World) : World :=
  {| heap := heap w; jq := jq w; dir := d; calls := calls w |}.
Definition set_calls (c : list call) (w : World) : World :=
  {| heap := heap w; jq := jq w; dir := dir w; calls := c |}.

(** What the operating system and the collaborators answer during one
    operation: [time(NULL)], the status of [pthread_cond_init] and of
    [pthread_create], and whether [malloc] returns a block. *)
Record OS := {
  os_time : Z;
  os_pthread_cond_init : Z;
  os_pthread_create : Z;
  os_malloc_ok : bool
}.

Definition EINVAL : Z := 22.
Definition ENOMEM : Z := 12.

Definition in_dir {A} (m : M Director A) : M World A := λ w,
  match m (dir w) with
  | Ok (a, d') => Ok (a, set_dir d' w)
  | Fault f => Fault f
  end.

Definition do_call (c : call) : M World unit :=
  modify (λ w, set_calls (calls w ++ [c]) w).

Definition load (p : ptr) : M World JCR :=
  if decide (p = nullptr) then raise NullPointer
  else
    h ← gets heap;
    match h !! p with
    | Some v => ret v
    | None => raise InvalidPointer
    end.

Definition store (p : ptr) (v : JCR) : M World unit :=
  modify (λ w, set_heap (<[p := v]> (heap w)) w).

Definition update (p : ptr) (f : JCR → JCR) : M World unit :=
  v ← load p; store p (f v).

Definition modify_jq (f : jobq_t → jobq_t) : M World unit :=
  modify (λ w, set_jq (f (jq w)) w).

(** [std::list::remove(value)]: every element equal to [value] goes. *)
Definition list_remove (value : ptr) (l : list ptr) : list ptr :=
  filter (λ x, x ≠ value) l.

(** [std::find(l.begin(), l.end(), value)] as a position; [length l]
    is [l.end()]. *)
Fixpoint std_find (value : ptr) (l : list ptr) : nat :=
  match l with
  | [] => 0%nat
  | x :: l' => if decide (x = value) then 0%nat else S (std_find value l')
  end.

(** [std::list::insert(it, value)]: [value] goes before position [it]. *)
Definition list_insert_at (it : nat) (value : ptr) (l : list ptr) : list ptr :=
  take it l ++ value :: drop it l.

(** [StartServer], [jobq.cc:359-376] *)
Definition StartServer (os : OS) : M World Z :=
  q ← gets jq;
  if num_workers q <? max_workers q then
    if negb (os_pthread_create os =? 0) then
      in_dir (log (Jmsg M_ERROR (pthread_create_ERR (os_pthread_create os))));;
      ret (os_pthread_create os)
    else
      do_call pthread_create_jobq_server;;
      modify_jq (set_num_workers (num_workers q + 1));;
      ret 0
  else ret 0.

(** The loop of [jobq.cc:277-290]: the first waiting entry whose
    priority value is strictly greater than [prio], if any. *)
Fixpoint first_greater (prio : Z) (l : list ptr) : M World (option ptr) :=
  match l with
  | [] => ret None
  | li :: l' =>
    v ← load li;
    if JobPriority v >? prio then ret (Some li)
    else first_greater prio l'
  end.

(** [JobqAdd], [jobq.cc:210-309]. The packet for the waiter thread is
    written without a test of what [malloc] returned
    ([jobq.cc:243-245]). *)
Definition JobqAdd (os : OS) (jcr : ptr) : M World Z :=
  v ← load jcr;
  let wtime := sched_time v - os_time os in
  if negb (term_wait_inited (impl v)) && negb (os_pthread_cond_init os =? 0)
  then
    in_dir (log (Jmsg M_FATAL
      (Unable_to_init_job_cond_variable (os_pthread_cond_init os))));;
    ret (os_pthread_cond_init os)
  else
    update jcr (with_impl (set_term_wait_inited true));;
    q ← gets jq;
    if negb (valid q) then
      in_dir (log (Jmsg M_ERROR Jobq_add_queue_not_initialized));;
      ret EINVAL
    else
      update jcr (λ v, set_use_count (use_count v + 1) v);;
      if negb (JobCanceled v) && (wtime >? 0) then
        (if negb (os_malloc_ok os) then raise NullPointer else ret tt);;
        (if negb (os_pthread_create os =? 0) then
           in_dir (log (Jmsg M_ERROR
             (pthread_thread_create_ERR (os_pthread_create os))))
         else do_call (pthread_create_sched_wait jcr));;
        ret (os_pthread_create os)
      else if negb (os_malloc_ok os) then
        do_call (FreeJcr jcr);;
        ret ENOMEM
      else
        let item := jcr in
        (if JobCanceled v then
           modify_jq (λ q, set_ready_jobs (item :: ready_jobs q) q)
         else
           found ← first_greater (JobPriority v) (waiting_jobs q);
           match found with
           | Some li =>
             let it := std_find li (waiting_jobs q) in
             modify_jq (λ q,
               set_waiting_jobs (list_insert_at it li (waiting_jobs q)) q)
           | None =>
             modify_jq (λ q, set_waiting_jobs (waiting_jobs q ++ [item]) q)
           end);;
        StartServer os.

(** [JobqRemove], [jobq.cc:318-354]. The function declares a local
    [item] that is never assigned: the loop at line 328 declares an
    [item] of its own. [item], the value the outer variable happens to
    hold, is an argument of the embedding. *)
Definition JobqRemove (os : OS) (item : ptr) (jcr : ptr) : M World Z :=
  q ← gets jq;
  if negb (valid q) then ret EINVAL
  else
    let found := bool_decide (jcr ∈ waiting_jobs q) in
    if negb found then ret EINVAL
    else
      modify_jq (λ q, set_waiting_jobs (list_remove item (waiting_jobs q)) q);;
      modify_jq (λ q, set_ready_jobs (item :: ready_jobs q) q);;
      StartServer os.

(** ** The promotion pass of [jobq_server], [jobq.cc:512-585] *)

Inductive which_list := Waiting | Ready | Running.

Global Instance which_list_eq_dec : EqDecision which_list.
Proof. solve_decision. Defined.

(** A list iterator: the list it walks and its position there. *)
Record iterator := { it_list : which_list; it_pos : nat }.

Global Instance iterator_eq_dec : EqDecision iterator.
Proof. solve_decision. Defined.

Definition list_of (l : which_list) (q : jobq_t) : list ptr :=
  match l with
  | Waiting => waiting_jobs q
  | Ready => ready_jobs q
  | Running => running_jobs q
  end.

Definition begin_ (l : which_list) : iterator :=
  {| it_list := l; it_pos := 0 |}.
Definition end_ (l : which_list) (q : jobq_t) : iterator :=
  {| it_list := l; it_pos := length (list_of l q) |}.
Definition advance (it : iterator) : iterator :=
  {| it_list := it_list it; it_pos := S (it_pos it) |}.

(** [*it]. Past the end the word read is the size of the list, null
    exactly when the list is empty. *)
Definition star (q : jobq_t) (it : iterator) : ptr :=
  nth (it_pos it) (list_of (it_list it) q)
    (length (list_of (it_list it) q)).

(** The loop of [jobq.cc:523-531] over the running jobs. [re] starts at
    [running_jobs.begin()] and [rest] holds the entries from [re] on;
    [wend] is [jq->waiting_jobs.end()], the bound the loop compares [re]
    with. Past the last running job [*re] is the size of the running
    list, and the loop reads [( *re)->impl] through that word. *)
Fixpoint running_walk (wend re : iterator) (rest : list ptr) : M World bool :=
  if decide (re ≠ wend) then
    match rest with
    | [] => raise InvalidPointer
    | r :: rest' =>
      v ← load r;
      j ← deref (job (res (impl v)));
      if negb (allow_mixed_priority j) then ret false
      else running_walk wend (advance re) rest'
    end
  else ret true.

(** The test of [jobq.cc:557-560], with the short circuit of [&&]. *)
Definition correct_Priority (Priority : Z) (running_allow_mix : bool)
    (jcr : JCR) : M World bool :=
  if JobPriority jcr =? Priority then ret true
  else if JobPriority jcr <? Priority then
    j ← deref (job (res (impl jcr)));
    ret (allow_mixed_priority j && running_allow_mix)
  else ret false.

Definition AcquireResources_at (jcr : ptr) : M World bool :=
  v ← load jcr;
  '(ok, v') ← in_dir (AcquireResources v);
  store jcr v';;
  ret ok.

(** The loop of [jobq.cc:543-584] over the waiting jobs. [rest] holds
    the entries from [je] on. A pass examines each entry at most once,
    so [fuel = length rest] iterations are enough. After
    [waiting_jobs.remove( *je)] the pointer read through [je] is the one
    its node held. When the entries have run out [je] is
    [waiting_jobs.end()] and the test [*je] of the loop reads the size
    of the list: the loop ends if no job is left waiting, and else goes
    on to read [jcr->JobPriority] through that word, [jobq.cc:557]. *)
Fixpoint waiting_walk (fuel : nat) (Priority : Z) (running_allow_mix : bool)
    (rest : list ptr) : M World unit :=
  match rest with
  | [] =>
    q ← gets jq;
    if decide (star q (end_ Waiting q) = nullptr) then ret tt
    else raise InvalidPointer
  | je :: rest' =>
    if decide (je = nullptr) then ret tt
    else
      match fuel with
      | O => raise OutOfFuel
      | S fuel' =>
        jcr ← load je;
        take ← correct_Priority Priority running_allow_mix jcr;
        if negb take then update je (setJobStatus JS_WaitPriority)
        else
          acquired ← AcquireResources_at je;
          jcr ← load je;
          if negb acquired && negb (JobCanceled jcr) then
            waiting_walk fuel' Priority running_allow_mix rest'
          else
            modify_jq (λ q,
              set_waiting_jobs (list_remove je (waiting_jobs q)) q);;
            modify_jq (λ q, set_ready_jobs (ready_jobs q ++ [je]) q);;
            if bool_decide (head rest' = Some je) then raise ErasedIterator
            else
              waiting_walk fuel' Priority running_allow_mix
                (list_remove je rest')
      end
  end.

Definition promote_waiting : M World unit :=
  q ← gets jq;
  if negb (bool_decide (waiting_jobs q = [])) && negb (quit q) then
    let je := begin_ Waiting in
    let re := begin_ Running in
    if decide (star q re ≠ nullptr) then
      r ← load (star q re);
      let Priority := JobPriority r in
      running_allow_mix ← running_walk (end_ Waiting q) re (running_jobs q);
      waiting_walk (length (waiting_jobs q)) Priority running_allow_mix
        (drop (it_pos je) (waiting_jobs q))
    else
      w ← load (star q je);
      let Priority := JobPriority w in
      waiting_walk (length (waiting_jobs q)) Priority false
        (drop (it_pos je) (waiting_jobs q))
  else ret tt.

(** ** The reschedule engine: [RescheduleJob], [jobq.cc:645-769] *)

(** Modelled from the spec: the status, type and level tests of
    [JobControlRecord] are defined in a header outside the sources at
    hand; the specification reads them as "is in Incomplete state",
    "did not terminate OK", "was canceled", "is a backup" and "level
    other than Base". *)
Definition IsIncomplete (jcr : JCR) : bool :=
  bool_decide (JobStatus jcr = JS_Incomplete).
Definition IsTerminatedOk (jcr : JCR) : bool :=
  bool_decide (JobStatus jcr = JS_Terminated).
Definition is_JobStatus (s : job_status) (jcr : JCR) : bool :=
  bool_decide (JobStatus jcr = s).
Definition is_JobType (t : job_type) (jcr : JCR) : bool :=
  bool_decide (JobType jcr = t).
Definition is_JobLevel (l : job_level) (jcr : JCR) : bool :=
  bool_decide (JobLevel jcr = l).

(** [resched], [jobq.cc:658-672] *)
Definition resched (jcr : JCR) (j : JobResource) : bool :=
  if (RescheduleTimes j =? 0)
     || (reschedule_count (impl jcr) <? RescheduleTimes j)
  then
    (RescheduleIncompleteJobs j && IsIncomplete jcr
     && is_JobType JT_BACKUP jcr && negb (is_JobLevel L_BASE jcr))
    ||
    (RescheduleOnError j && negb (IsTerminatedOk jcr)
     && negb (is_JobStatus JS_Canceled jcr) && is_JobType JT_BACKUP jcr)
  else false.

(** Modelled from the spec: [CopyRstorage], [CopyWstorage],
    [FreeRstorage] and [FreeWstorage] are collaborators defined outside
    the sources at hand; the specification has the clone receive the
    storage lists of the original. *)
Definition copy_rstorage (l : list StorageResource) (r : Resources) :=
  {| read_storage := read_storage r; write_storage := write_storage r;
     read_storage_list := l; write_storage_list := write_storage_list r;
     client := client r; job := job r; messages := messages r;
     pool := pool r; run_pool_override := run_pool_override r;
     full_pool := full_pool r;
     run_full_pool_override := run_full_pool_override r;
     inc_pool := inc_pool r;
     run_inc_pool_override := run_inc_pool_override r;
     diff_pool := diff_pool r;
     run_diff_pool_override := run_diff_pool_override r;
     next_pool := next_pool r;
     run_next_pool_override := run_next_pool_override r |}.

Definition free_rstorage (r : Resources) :=
  {| read_storage := None; write_storage := write_storage r;
     read_storage_list := []; write_storage_list := write_storage_list r;
     client := client r; job := job r; messages := messages r;
     pool := pool r; run_pool_override := run_pool_override r;
     full_pool := full_pool r;
     run_full_pool_override := run_full_pool_override r;
     inc_pool := inc_pool r;
     run_inc_pool_override := run_inc_pool_override r;
     diff_pool := diff_pool r;
     run_diff_pool_override := run_diff_pool_override r;
     next_pool := next_pool r;
     run_next_pool_override := run_next_pool_override r |}.

Definition copy_wstorage (l : list StorageResource) (r : Resources) :=
  {| read_storage := read_storage r; write_storage := write_storage r;
     read_storage_list := read_storage_list r; write_storage_list := l;
     client := client r; job := job r; messages := messages r;
     pool := pool r; run_pool_override := run_pool_override r;
     full_pool := full_pool r;
     run_full_pool_override := run_full_pool_override r;
     inc_pool := inc_pool r;
     run_inc_pool_override := run_inc_pool_override r;
     diff_pool := diff_pool r;
     run_diff_pool_override := run_diff_pool_override r;
     next_pool := next_pool r;
     run_next_pool_override := run_next_pool_override r |}.

Definition free_wstorage (r : Resources) :=
  {| read_storage := read_storage r; write_storage := None;
     read_storage_list := read_storage_list r; write_storage_list := [];
     client := client r; job := job r; messages := messages r;
     pool := pool r; run_pool_override := run_pool_override r;
     full_pool := full_pool r;
     run_full_pool_override := run_full_pool_override r;
     inc_pool := inc_pool r;
     run_inc_pool_override := run_inc_pool_override r;
     diff_pool := diff_pool r;
     run_diff_pool_override := run_diff_pool_override r;
     next_pool := next_pool r;
     run_next_pool_override := run_next_pool_override r |}.

(** The assignments of [jobq.cc:730-743] and [757]: the pools, their
    overrides and the messages resource of [jcr] go to the resources [n]
    of the new record. *)
Definition copy_pools_and_messages (jcr : Resources) (n : Resources) :=
  {| read_storage := read_storage n; write_storage := write_storage n;
     read_storage_list := read_storage_list n;
     write_storage_list := write_storage_list n;
     client := client n; job := job n; messages := messages jcr;
     pool := pool jcr; run_pool_override := run_pool_override jcr;
     full_pool := full_pool jcr;
     run_full_pool_override := run_full_pool_override jcr;
     inc_pool := inc_pool jcr;
     run_inc_pool_override := run_inc_pool_override jcr;
     diff_pool := diff_pool jcr;
     run_diff_pool_override := run_diff_pool_override jcr;
     next_pool := next_pool jcr;
     run_next_pool_override := run_next_pool_override jcr |}.

(** The new record of the clone branch, [jobq.cc:723-758]: [defaults]
    is the record [NewDirectorJcr] and [SetJcrDefaults] produce, [jcr]
    the record being rescheduled. *)
Definition clone_fields (jcr defaults : JCR) : JCR :=
  let n := defaults in
  let n := with_impl (set_reschedule_count (reschedule_count (impl jcr))) n in
  let n := set_sched_time (sched_time jcr) n in
  let n := set_initial_sched_time (initial_sched_time jcr) n in
  let n := set_JobLevel (JobLevel jcr) n in
  let n := with_impl (λ i,
             set_res (copy_pools_and_messages (res (impl jcr)) (res i)) i) n in
  let n := set_JobStatus JS_Unset n in
  let n := setJobStatus (JobStatus jcr) n in
  let n := match read_storage (res (impl jcr)) with
           | Some _ => with_impl (λ i, set_res
               (copy_rstorage (read_storage_list (res (impl jcr))) (res i)) i) n
           | None => with_impl (λ i, set_res (free_rstorage (res i)) i) n
           end in
  let n := match write_storage (res (impl jcr)) with
           | Some _ => with_impl (λ i, set_res
               (copy_wstorage (write_storage_list (res (impl jcr))) (res i)) i) n
           | None => with_impl (λ i, set_res (free_wstorage (res i)) i) n
           end in
  with_impl (set_spool_data (spool_data (impl jcr))) n.

(** [(int)x] and [%d] of a 64-bit [x]: the low 32 bits, as a signed
    number. *)
Definition to_int (x : Z) : Z := (x + 2 ^ 31) mod 2 ^ 32 - 2 ^ 31.

(** [free(p)]: the block at [p] is released, and no record lives there
    any more. *)
Definition free_record (p : ptr) : M World unit :=
  do_call (free p);;
  modify (λ w, set_heap (delete p (heap w)) w).

(** [os] holds what the operating system answers to [RescheduleJob]
    itself, [os_add] what it answers to the [JobqAdd] of the in-place
    branch, which reads the clock again ([jobq.cc:682] and [215]).
    [AllowDuplicateJob] is the answer of the duplicate-job oracle;
    [njcr] and [defaults] are the address and the contents of the record
    the job factory returns. [je] is the third argument of the
    function, a pointer to a record: [free(je)] releases that record. *)
Definition RescheduleJob (os os_add : OS) (AllowDuplicateJob : bool)
    (njcr : ptr) (defaults : JCR) (jcr je : ptr) : M World bool :=
  v ← load jcr;
  j ← deref (job (res (impl v)));
  if resched v j then
    let now := os_time os in
    update jcr (with_impl
      (set_reschedule_count (reschedule_count (impl v) + 1)));;
    update jcr (set_sched_time (now + RescheduleInterval j));;
    in_dir (log (Jmsg M_INFO (Rescheduled_Job (JobId v) now
      (to_int (RescheduleInterval j)) (now + RescheduleInterval j))));;
    do_call (DirdFreeJcrPointers jcr);;
    update jcr (set_JobStatus JS_Unset);;
    update jcr (with_impl (set_SDJobStatus 0));;
    update jcr (set_JobErrors 0);;
    if negb AllowDuplicateJob then ret false
    else if JobBytes v =? 0 then
      do_call (UpdateJobEnd jcr JS_WaitStartTime);;
      update jcr (with_impl (set_jr_RealEndTime 0));;
      JobqAdd os_add jcr;;
      do_call (FreeJcr jcr);;
      free_record je;;
      ret true
    else
      update jcr (setJobStatus JS_WaitStartTime);;
      do_call (NewDirectorJcr njcr);;
      do_call (SetJcrDefaults njcr);;
      v ← load jcr;
      store njcr (clone_fields v defaults);;
      match read_storage (res (impl v)) with
      | Some _ => do_call (CopyRstorage njcr)
      | None => do_call (FreeRstorage njcr)
      end;;
      match write_storage (res (impl v)) with
      | Some _ => do_call (CopyWstorage njcr)
      | None => do_call (FreeWstorage njcr)
      end;;
      do_call (RunJob njcr);;
      do_call (FreeJcr njcr);;
      ret false
  else ret false.

(** The end of one round of the drain loop of [jobq_server], after the
    engine has returned, [jobq.cc:479-508]. The result tells whether the
    round ended in [continue]. *)
Definition after_engine (os os_add : OS) (AllowDuplicateJob : bool)
    (njcr : ptr) (defaults : JCR) (je : ptr) : M World bool :=
  let jcr := je in
  modify_jq (λ q, set_running_jobs (list_remove je (running_jobs q)) q);;
  v ← load jcr;
  (if acquired_resource_locks (impl v) then
     in_dir (DecReadStore v);;
     in_dir (DecWriteStore v);;
     in_dir (DecClientConcurrency v);;
     in_dir (DecJobConcurrency v);;
     update jcr (with_impl (set_acquired_resource_locks false))
   else ret tt);;
  requeued ← RescheduleJob os os_add AllowDuplicateJob njcr defaults jcr je;
  if (requeued : bool) then ret true
  else
    update jcr (with_impl (set_SDJobStatus 0));;
    do_call (FreeJcr jcr);;
    ret false.

(** ** The registry seen as four permit classes *)

Definition try_inc (p : permit) : JCR → M Director bool :=
  match p with
  | Rstore => IncReadStore
  | Wstore => IncWriteStore
  | Client => IncClientConcurrency
  | Job => IncJobConcurrency
  end.

Definition dec (p : permit) : JCR → M Director unit :=
  match p with
  | Rstore => DecReadStore
  | Wstore => DecWriteStore
  | Client => DecClientConcurrency
  | Job => DecJobConcurrency
  end.

(** The counters of the registry. *)
Inductive counter := CClient | CJob | CStore | CStoreRead.

Definition value (d : Director) (c : counter) : resource_name → Z :=
  match c with
  | CClient => rcs_NumConcurrentJobs d
  | CJob => rjs_NumConcurrentJobs d
  | CStore => rss_NumConcurrentJobs d
  | CStoreRead => rss_NumConcurrentReadJobs d
  end.

(** The counter [n] a permit class is tested against. *)
Definition n_counter (p : permit) : counter :=
  match p with
  | Rstore | Wstore => CStore
  | Client => CClient
  | Job => CJob
  end.

(** The counters a permit of class [p] counts in: its [n], and for a
    read-storage permit the sub-counter of read jobs too. *)
Definition counts (p : permit) (c : counter) : bool :=
  match p, c with
  | Rstore, (CStore | CStoreRead) => true
  | Wstore, CStore => true
  | Client, CClient => true
  | Job, CJob => true
  | _, _ => false
  end.

(** The resource a permit of record [jcr] counts against, with its
    [MaxConcurrentJobs]: the reference is set and the ignore flag of the
    class, if it has one, is false. *)
Definition applies (p : permit) (jcr : JCR) : option (resource_name * Z) :=
  match p with
  | Rstore =>
    if IgnoreStorageConcurrency (impl jcr) then None
    else s ← read_storage (res (impl jcr));
         Some (store_resource_name_ s, store_MaxConcurrentJobs s)
  | Wstore =>
    if IgnoreStorageConcurrency (impl jcr) then None
    else s ← write_storage (res (impl jcr));
         Some (store_resource_name_ s, store_MaxConcurrentJobs s)
  | Client =>
    if IgnoreClientConcurrency (impl jcr) then None
    else c ← client (res (impl jcr));
         Some (client_resource_name_ c, client_MaxConcurrentJobs c)
  | Job =>
    j ← job (res (impl jcr));
    Some (job_resource_name_ j, job_MaxConcurrentJobs j)
  end.

(** What one permit of class [p] on resource [name] adds to counter [c]
    of resource [name']. *)
Definition unit_of (p : permit) (name : resource_name)
    (c : counter) (name' : resource_name) : Z :=
  if counts p c && bool_decide (name' = name) then 1 else 0.

(** Two states hold the same counters. *)
Definition same_counters (d d' : Director) : Prop :=
  ∀ c name, value d' c name = value d c name.

Definition is_FATAL (m : msg) : bool :=
  match m with
  | Jmsg M_FATAL _ => true
  | _ => false
  end.

(** ** Admission as the specification words it

    The permits are attempted in the order read-storage, write-storage,
    client, job definition, each only when it applies; a failing permit
    releases the ones acquired before it, last acquired first, and
    names the wait status. *)

Definition wait_kind (p : permit) : job_status :=
  match p with
  | Rstore | Wstore => JS_WaitStoreRes
  | Client => JS_WaitClientRes
  | Job => JS_WaitJobRes
  end.

Definition admission_order : list permit := [Rstore; Wstore; Client; Job].

Definition needs (p : permit) (jcr : JCR) : bool :=
  match applies p jcr with
  | Some _ => true
  | None => false
  end.

Definition needed (jcr : JCR) : list permit :=
  List.filter (λ p, needs p jcr) admission_order.

(** What the permits [ps] of record [jcr], once acquired, add to
    counter [c] of resource [name']. *)
Fixpoint units_of (ps : list permit) (jcr : JCR)
    (c : counter) (name' : resource_name) : Z :=
  match ps with
  | [] => 0
  | p :: ps' =>
    match applies p jcr with
    | Some (name, _) => unit_of p name c name'
    | None => 0
    end + units_of ps' jcr c name'
  end.

Fixpoint release (jcr : JCR) (held : list permit) : M Director unit :=
  match held with
  | [] => ret tt
  | p :: held' => dec p jcr;; release jcr held'
  end.

Fixpoint acquire_in_order (jcr : JCR) (todo held : list permit)
    : M Director (option permit) :=
  match todo with
  | [] => ret None
  | p :: todo' =>
    ok ← try_inc p jcr;
    if (ok : bool) then acquire_in_order jcr todo' (p :: held)
    else release jcr held;; ret (Some p)
  end.

Definition admission (jcr : JCR) : M Director (bool * JCR) :=
  let jcr :=
    job_type_exclusions (with_impl (set_acquired_resource_locks false) jcr) in
  failing ← acquire_in_order jcr (needed jcr) [];
  match failing with
  | None => ret (true, with_impl (set_acquired_resource_locks true) jcr)
  | Some p => ret (false, setJobStatus (wait_kind p) jcr)
  end.

(** ** Bookkeeping for the statements about the counters *)

(** State [d'] holds the counters of [d] plus [f]. *)
Definition shifted (d d' : Director) (f : counter → resource_name → Z)
    : Prop :=
  ∀ c name', value d' c name' = value d c name' + f c name'.

(** What a permit of class [p] of record [jcr] adds to a counter: nothing
    when the class does not apply to the record. *)
Definition unit_at (p : permit) (jcr : JCR)
    (c : counter) (name' : resource_name) : Z :=
  match applies p jcr with
  | Some (name, _) => unit_of p name c name'
  | None => 0
  end.

(** A permit of class [p] can be had in state [d]: the class does not
    apply, or its counter is below the maximum. *)
Definition available (p : permit) (jcr : JCR) (d : Director) : bool :=
  match applies p jcr with
  | Some (name, max) => bool_decide (value d (n_counter p) name < max)
  | None => true
  end.

(** The lines [try_inc] writes in state [d]. *)
Definition inc_msgs (p : permit) (jcr : JCR) (d : Director) : list msg :=
  match applies p jcr with
  | Some (name, max) =>
    let n := value d (n_counter p) name in
    if bool_decide (n < max) then [Dmsg_Inc p name (n + 1)]
    else
      match p with
      | Rstore | Wstore => [Dmsg_Fail p name n]
      | Client | Job => []
      end
  | None => []
  end.

(** The fatal job messages [dec] writes for resource [name] in state
    [d]. *)
Definition fatal_msgs (p : permit) (name : resource_name) (d : Director)
    : list msg :=
  match p with
  | Rstore =>
    (if value d CStoreRead name - 1 <? 0 then
       [Jmsg M_FATAL
          (NumConcurrentReadJobs_Dec_Rstore name
             (value d CStoreRead name - 1))]
     else []) ++
    (if value d CStore name - 1 <? 0 then
       [Jmsg M_FATAL
          (NumConcurrentJobs_Dec_Rstore name (value d CStore name - 1))]
     else [])
  | Wstore =>
    if value d CStore name - 1 <? 0 then
      [Jmsg M_FATAL
         (NumConcurrentJobs_Dec_Wstore name (value d CStore name - 1))]
    else []
  | Client | Job => []
  end.

(** The lines [dec] writes in state [d]. *)
Definition dec_msgs (p : permit) (jcr : JCR) (d : Director) : list msg :=
  match applies p jcr with
  | Some (name, _) =>
    Dmsg_Dec p name (value d (n_counter p) name - 1) :: fatal_msgs p name d
  | None => []
  end.

(** The lines of the attempts: increments and failures to acquire. *)
Definition is_attempt (m : msg) : bool :=
  match m with
  | Dmsg_Inc _ _ _ | Dmsg_Fail _ _ _ => true
  | _ => false
  end.

(** The call of [try_inc] as [AcquireResources] makes it: the storage
    permits behind the test of the storage reference. *)
Definition guarded_inc (p : permit) (jcr : JCR) : M Director bool :=
  match p with
  | Rstore =>
    match read_storage (res (impl jcr)) with
    | Some _ => IncReadStore jcr
    | None => ret true
    end
  | Wstore =>
    match write_storage (res (impl jcr)) with
    | Some _ => IncWriteStore jcr
    | None => ret true
    end
  | Client => IncClientConcurrency jcr
  | Job => IncJobConcurrency jcr
  end.

(** [acquire_in_order] over every permit class, the guards of the code
    deciding which ones count. *)
Fixpoint attempt (jcr : JCR) (todo held : list permit)
    : M Director (option permit) :=
  match todo with
  | [] => ret None
  | p :: todo' =>
    ok ← guarded_inc p jcr;
    if (ok : bool) then attempt jcr todo' (p :: held)
    else release jcr held;; ret (Some p)
  end.

(** ** Sample records and states *)

Definition sample_job (name : resource_name) (max : Z) (mix : bool)
    : JobResource :=
  {| job_resource_name_ := name; job_MaxConcurrentJobs := max;
     RescheduleTimes := 2; RescheduleInterval := 1;
     RescheduleOnError := true; RescheduleIncompleteJobs := false;
     allow_mixed_priority := mix |}.

Definition sample_res (rs ws : option StorageResource)
    (cl : option ClientResource) (j : JobResource) : Resources :=
  {| read_storage := rs; write_storage := ws;
     read_storage_list := option_list rs;
     write_storage_list := option_list ws;
     client := cl; job := Some j; messages := 0%nat;
     pool := 0%nat; run_pool_override := false;
     full_pool := 0%nat; run_full_pool_override := false;
     inc_pool := 0%nat; run_inc_pool_override := false;
     diff_pool := 0%nat; run_diff_pool_override := false;
     next_pool := 0%nat; run_next_pool_override := false |}.

Definition sample_impl (r : Resources) : JobControlRecordPrivate :=
  {| res := r; SDJobStatus := 0; term_wait_inited := true;
     acquired_resource_locks := false;
     IgnoreClientConcurrency := false; IgnoreStorageConcurrency := false;
     MigrateJobId := 0; reschedule_count := 0; spool_data := false;
     jr_RealEndTime := 0 |}.

Definition sample_jcr (id : Z) (t : job_type) (s : job_status)
    (priority bytes : Z) (r : Resources) : JCR :=
  {| JobId := id; JobType := t; JobLevel := L_FULL; JobStatus := s;
     JobPriority := priority; sched_time := 0; initial_sched_time := 0;
     JobBytes := bytes; JobErrors := 0; use_count := 1; canceled := false;
     impl := sample_impl r |}.

(** No permit is held. *)
Definition idle_director : Director :=
  {| rcs_NumConcurrentJobs := λ _, 0; rjs_NumConcurrentJobs := λ _, 0;
     rss_NumConcurrentJobs := λ _, 0; rss_NumConcurrentReadJobs := λ _, 0;
     msgs := [] |}.

Definition sample_storage (name : resource_name) (max : Z) :=
  {| store_resource_name_ := name; store_MaxConcurrentJobs := max |}.
Definition sample_client (name : resource_name) (max : Z) :=
  {| client_resource_name_ := name; client_MaxConcurrentJobs := max |}.

(** A backup that reads storage 1 and writes storage 2 for client 3
    under job definition 4. *)
Definition backup_jcr : JCR :=
  sample_jcr 1 JT_BACKUP JS_Unset 10 0
    (sample_res (Some (sample_storage 1%nat 2))
       (Some (sample_storage 2%nat 2))
       (Some (sample_client 3%nat 1)) (sample_job 4%nat 1 false)).

(** The client of [backup_jcr] already runs its one job. *)
Definition busy_client_director : Director :=
  set_rcs (<[3%nat := 1]> (rcs_NumConcurrentJobs idle_director)) idle_director.

(** A migration control job: it ignores client and storage
    concurrency. *)
Definition migrate_control_jcr : JCR :=
  sample_jcr 2 JT_MIGRATE JS_Unset 10 0
    (sample_res (Some (sample_storage 1%nat 2))
       (Some (sample_storage 2%nat 2))
       (Some (sample_client 3%nat 1)) (sample_job 4%nat 1 false)).

(** A copy job at work on job 7: it ignores client concurrency only. *)
Definition copy_jcr : JCR :=
  {| JobId := 3; JobType := JT_COPY; JobLevel := L_FULL;
     JobStatus := JS_Unset; JobPriority := 10; sched_time := 0;
     initial_sched_time := 0; JobBytes := 0; JobErrors := 0;
     use_count := 1; canceled := false;
     impl :=
       {| res := sample_res (Some (sample_storage 1%nat 2))
                   (Some (sample_storage 2%nat 2))
                   (Some (sample_client 3%nat 1)) (sample_job 4%nat 1 false);
          SDJobStatus := 0; term_wait_inited := true;
          acquired_resource_locks := false;
          IgnoreClientConcurrency := true;
          IgnoreStorageConcurrency := false;
          MigrateJobId := 7; reschedule_count := 0; spool_data := false;
          jr_RealEndTime := 0 |} |}.

(** Storage 2 already runs its two jobs. *)
Definition full_storage_director : Director :=
  set_rss (<[2%nat := 2]> (rss_NumConcurrentJobs idle_director)) idle_director.

(** ** Sample queues *)

Definition sample_os : OS :=
  {| os_time := 100; os_pthread_cond_init := 0; os_pthread_create := 0;
     os_malloc_ok := true |}.

Definition sample_jobq (waiting running : list ptr) : jobq_t :=
  {| valid := true; quit := false; max_workers := 1; num_workers := 1;
     waiting_jobs := waiting; ready_jobs := []; running_jobs := running |}.

(** A backup of the given priority under job definition [name], without
    storage or client. *)
Definition plain_jcr (id priority : Z) (name : resource_name) (mix : bool)
    : JCR :=
  sample_jcr id JT_BACKUP JS_Unset priority 0
    (sample_res None None None (sample_job name 5 mix)).

(** Job 1 of priority 10 waits; job 2 of priority 5 is about to be
    submitted. *)
Definition one_waiting : World :=
  {| heap := <[1%nat := plain_jcr 1 10 1%nat true]>
             (<[2%nat := plain_jcr 2 5 2%nat true]> ∅);
     jq := sample_jobq [1%nat] [];
     dir := idle_director; calls := [] |}.

(** Job 1 of priority 10 runs; job 2 of priority 5 and job 3 of
    priority 20 wait. [mix] is the [allow_mixed_priority] of job 1; the
    waiting jobs allow mixed priorities. *)
Definition one_running (mix : bool) : World :=
  {| heap := <[1%nat := plain_jcr 1 10 1%nat mix]>
             (<[2%nat := plain_jcr 2 5 2%nat true]>
             (<[3%nat := plain_jcr 3 20 3%nat true]> ∅));
     jq := sample_jobq [2%nat; 3%nat] [1%nat];
     dir := idle_director; calls := [] |}.

(** A backup under a job definition with [RescheduleOnError],
    [RescheduleTimes = 2] and [RescheduleInterval = 1] has ended in
    error after writing [bytes] bytes, and has left the running list. *)
Definition failed_backup (bytes : Z) : World :=
  {| heap := <[1%nat := sample_jcr 1 JT_BACKUP JS_ErrorTerminated 10 bytes
                          (sample_res None None None
                             (sample_job 1%nat 5 false))]> ∅;
     jq := sample_jobq [] [];
     dir := idle_director; calls := [] |}.

(** The record the job factory returns in the samples. *)
Definition fresh_jcr : JCR := plain_jcr 2 10 1%nat false.

(** ** The reschedule decision as the specification words it *)


(** Every pointer of the waiting list points to a record. *)
Definition waiting_valid (w : World) : Prop :=
  ∀ p, p ∈ waiting_jobs (jq w) → p ≠ nullptr ∧ is_Some (heap w !! p).



(** The record of a rescheduled job after [jobq.cc:683-696]. *)
Definition rescheduled_record (os : OS) (j : JobResource) (v : JCR) : JCR :=
  set_JobErrors 0
    (with_impl (set_SDJobStatus 0)
       (set_JobStatus JS_Unset
          (set_sched_time (os_time os + RescheduleInterval j)
             (with_impl
                (set_reschedule_count (reschedule_count (impl v) + 1)) v)))).

(** The director state with message [m] written. *)
Definition add_msg (m : msg) (d : Director) : Director :=
  {| rcs_NumConcurrentJobs := rcs_NumConcurrentJobs d;
     rjs_NumConcurrentJobs := rjs_NumConcurrentJobs d;
     rss_NumConcurrentJobs := rss_NumConcurrentJobs d;
     rss_NumConcurrentReadJobs := rss_NumConcurrentReadJobs d;
     msgs := msgs d ++ [m] |}.

(** The state of a rescheduled job [v] at [jcr] when the duplicate-job
    oracle is consulted, [jobq.cc:682-697]: the record is brought up to
    date, the job message is written and the partial cleanup called. *)
Definition rescheduled_state (os : OS) (j : JobResource) (jcr : ptr)
    (v : JCR) (w : World) : World :=
  {| heap := <[jcr := rescheduled_record os j v]> (heap w);
     jq := jq w;
     dir := add_msg (Jmsg M_INFO (Rescheduled_Job (JobId v) (os_time os)
              (to_int (RescheduleInterval j))
              (os_time os + RescheduleInterval j))) (dir w);
     calls := calls w ++ [DirdFreeJcrPointers jcr] |}.

(** The state in which the in-place branch passes the record to
    [JobqAdd], [jobq.cc:704-708]. *)
Definition resubmitted_state (os : OS) (j : JobResource) (jcr : ptr)
    (v : JCR) (w : World) : World :=
  {| heap := <[jcr := with_impl (set_jr_RealEndTime 0)
                        (rescheduled_record os j v)]> (heap w);
     jq := jq w;
     dir := dir (rescheduled_state os j jcr v w);
     calls := calls w ++ [DirdFreeJcrPointers jcr;
                          UpdateJobEnd jcr JS_WaitStartTime] |}.

(** The state the in-place branch leaves, from the state [w2] in which
    [JobqAdd] has returned, [jobq.cc:710-711]: the record is released
    with [FreeJcr], and the block at [je] is freed. *)
Definition released_state (jcr je : ptr) (w2 : World) : World :=
  {| heap := delete je (heap w2);
     jq := jq w2;
     dir := dir w2;
     calls := calls w2 ++ [FreeJcr jcr; free je] |}.

(** The state the clone branch leaves, [jobq.cc:722-763]: the original
    record waits for its start time, the record of the factory at
    [njcr] has received the fields of the original, and the new job has
    been run. *)
Definition cloned_state (os : OS) (j : JobResource) (njcr : ptr)
    (defaults : JCR) (jcr : ptr) (v : JCR) (w : World) : World :=
  let v6 := setJobStatus JS_WaitStartTime (rescheduled_record os j v) in
  {| heap := <[njcr := clone_fields v6 defaults]> (<[jcr := v6]> (heap w));
     jq := jq w;
     dir := dir (rescheduled_state os j jcr v w);
     calls := calls w ++
       [DirdFreeJcrPointers jcr; NewDirectorJcr njcr; SetJcrDefaults njcr;
        match read_storage (res (impl v)) with
        | Some _ => CopyRstorage njcr
        | None => FreeRstorage njcr
        end;
        match write_storage (res (impl v)) with
        | Some _ => CopyWstorage njcr
        | None => FreeWstorage njcr
        end;
        RunJob njcr; FreeJcr njcr] |}.


(** The first entry of [l] whose priority value is strictly greater than
    [prio]. *)
Fixpoint greater_entry (h : gmap ptr JCR) (prio : Z) (l : list ptr)
    : option ptr :=
  match l with
  | [] => None
  | li :: l' =>
    match h !! li with
    | Some v =>
      if JobPriority v >? prio then Some li else greater_entry h prio l'
    | None => None
    end
  end.

(** A run never ends for want of fuel. *)
Definition fuel_enough {S A} (m : M S A) : Prop :=
  ∀ s, m s ≠ Fault OutOfFuel.

(** * More of the job queue: limits, frames, the drain loop, creation and
    destruction of the queue, the waiter thread, the worker thread *)

(** ** Limits of the resources *)

(** No counter the permits of record [jcr] count against is above the
    [MaxConcurrentJobs] of its resource. *)
Definition within_limits (jcr : JCR) (d : Director) : Prop :=
  ∀ p name max,
    applies p jcr = Some (name, max) → value d (n_counter p) name ≤ max.

(** The read storage and the write storage of a record, when they are
    the same resource, carry the same [MaxConcurrentJobs]: in the
    program both references then point to one object. *)
Definition one_storage_object (jcr : JCR) : Prop :=
  ∀ r w,
    read_storage (res (impl jcr)) = Some r →
    write_storage (res (impl jcr)) = Some w →
    store_resource_name_ r = store_resource_name_ w →
    store_MaxConcurrentJobs r = store_MaxConcurrentJobs w.

(** A copy job at work on job 7 that reads and writes the one storage 1,
    of at most two jobs, under job definition 4. *)
Definition one_storage_jcr : JCR :=
  {| JobId := 4; JobType := JT_COPY; JobLevel := L_FULL;
     JobStatus := JS_Unset; JobPriority := 10; sched_time := 0;
     initial_sched_time := 0; JobBytes := 0; JobErrors := 0;
     use_count := 1; canceled := false;
     impl :=
       {| res := sample_res (Some (sample_storage 1%nat 2))
                   (Some (sample_storage 1%nat 2))
                   (Some (sample_client 3%nat 1)) (sample_job 4%nat 1 false);
          SDJobStatus := 0; term_wait_inited := true;
          acquired_resource_locks := false;
          IgnoreClientConcurrency := false;
          IgnoreStorageConcurrency := false;
          MigrateJobId := 7; reschedule_count := 0; spool_data := false;
          jr_RealEndTime := 0 |} |}.

(** Storage 1 already runs one job. *)
Definition used_storage_director : Director :=
  set_rss (<[1%nat := 1]> (rss_NumConcurrentJobs idle_director)) idle_director.

(** ** What an operation leaves as it was *)

(** Every run of [m] that ends takes a state to a state related to it
    by [R]. *)
Definition preserves {A} (R : World → World → Prop) (m : M World A) : Prop :=
  ∀ w a w', m w = Ok (a, w') → R w w'.

(** From [w] to [w'] no concurrency counter has changed, the running
    list, the [valid] and [quit] flags and [max_workers] are the same,
    the number of workers has not gone down and has gone up at most to
    [max_workers], and the records other than those at [ps] are the
    same. *)
Definition frame (ps : list ptr) (w w' : World) : Prop :=
  same_counters (dir w) (dir w') ∧
  running_jobs (jq w') = running_jobs (jq w) ∧
  valid (jq w') = valid (jq w) ∧
  quit (jq w') = quit (jq w) ∧
  max_workers (jq w') = max_workers (jq w) ∧
  num_workers (jq w) ≤ num_workers (jq w') ∧
  num_workers (jq w') ≤ num_workers (jq w) `max` max_workers (jq w) ∧
  (∀ p, p ∉ ps → heap w' !! p = heap w !! p) ∧
  (∀ p, is_Some (heap w !! p) → is_Some (heap w' !! p)).

(** From [w] to [w'] no concurrency counter has changed and the running
    list is the same. *)
Definition admissions_kept (w w' : World) : Prop :=
  same_counters (dir w) (dir w') ∧
  running_jobs (jq w') = running_jobs (jq w).

(** ** The order of the waiting list *)

(** The waiting entries [l] stand in non-decreasing order of priority
    value: an entry never stands before one of smaller value. *)
Definition prio_sorted (h : gmap ptr JCR) (l : list ptr) : Prop :=
  ∀ i j p q vp vq,
    (i < j)%nat → l !! i = Some p → l !! j = Some q →
    h !! p = Some vp → h !! q = Some vq →
    JobPriority vp ≤ JobPriority vq.

(** No entry of [l] has a priority value strictly greater than
    [prio]. *)
Definition none_greater (h : gmap ptr JCR) (prio : Z) (l : list ptr) : Prop :=
  ∀ p vp, p ∈ l → h !! p = Some vp → JobPriority vp ≤ prio.

(** ** The drain loop of [jobq_server], [jobq.cc:432-508] *)

(** The start of one round, [jobq.cc:435-451]: the head of the ready
    list is taken off the list; when jobs remain ready another server is
    asked for, and should that fail the worker leaves at once, result
    [None]; otherwise the job joins the running list and is given to the
    engine, result [Some jcr]. The pointer read through [je] after
    [ready_jobs.remove( *je)] is the one its node held. *)
Definition take_ready (os : OS) : M World (option ptr) :=
  q ← gets jq;
  let je := begin_ Ready in
  let jcr := star q je in
  modify_jq (λ q, set_ready_jobs (list_remove jcr (ready_jobs q)) q);;
  q ← gets jq;
  status ← (if negb (bool_decide (ready_jobs q = [])) then StartServer os
            else ret 0);
  if negb (status =? 0) then
    modify_jq (λ q, set_num_workers (num_workers q - 1) q);;
    ret None
  else
    modify_jq (λ q, set_running_jobs (running_jobs q ++ [jcr]) q);;
    _ ← load jcr;
    ret (Some jcr).

(** ** The promotion pass *)

(** The job a promotion pass takes its priority from: the first running
    job, or the first waiting job when none runs ([jobq.cc:515-537]). *)
Definition cohort (q : jobq_t) : ptr :=
  if decide (star q (begin_ Running) ≠ nullptr)
  then star q (begin_ Running)
  else star q (begin_ Waiting).

(** Every pointer of [l] is a live record with a job definition. *)
Definition records_valid (h : gmap ptr JCR) (l : list ptr) : Prop :=
  ∀ p, p ∈ l →
    p ≠ nullptr ∧ ∃ v, h !! p = Some v ∧ is_Some (job (res (impl v))).

(** What the jobs [moved] that hold their locks add to counter [c] of
    resource [name]: the permits of their records in [h]. *)
Fixpoint held_units (h : gmap ptr JCR) (moved : list ptr)
    (c : counter) (name : resource_name) : Z :=
  match moved with
  | [] => 0
  | p :: moved' =>
    match h !! p with
    | Some v =>
      if acquired_resource_locks (impl v)
      then units_of (needed v) v c name else 0
    | None => 0
    end + held_units h moved' c name
  end.

(** The walk over the running jobs [l] comes, by way of live records
    whose job definitions allow mixed priorities, to a live record whose
    job definition does not. *)
Definition mixing_refused (h : gmap ptr JCR) (l : list ptr) : Prop :=
  ∃ l1 r l2 v j,
    l = l1 ++ r :: l2 ∧
    (∀ p, p ∈ l1 →
       p ≠ nullptr ∧
       ∃ v j, h !! p = Some v ∧ job (res (impl v)) = Some j ∧
              allow_mixed_priority j = true) ∧
    r ≠ nullptr ∧ h !! r = Some v ∧ job (res (impl v)) = Some j ∧
    allow_mixed_priority j = false.

(** Jobs 1 and 2 of priority 10 and job 3 of priority 20 wait, under
    job definitions of their own; all three write storage 9, which
    takes one job. No job runs. *)
Definition storage_jcr (id priority : Z) (name : resource_name) : JCR :=
  sample_jcr id JT_BACKUP JS_Unset priority 0
    (sample_res None (Some (sample_storage 9%nat 1)) None
       (sample_job name 5 false)).

Definition three_waiting : World :=
  {| heap := <[1%nat := storage_jcr 1 10 1%nat]>
             (<[2%nat := storage_jcr 2 10 2%nat]>
             (<[3%nat := storage_jcr 3 20 3%nat]> ∅));
     jq := sample_jobq [1%nat; 2%nat; 3%nat] [];
     dir := idle_director; calls := [] |}.

(** Jobs 1 and 2 of priority 10 wait for storage 9, which takes one
    job. No job runs. *)
Definition two_contending : World :=
  {| heap := <[1%nat := storage_jcr 1 10 1%nat]>
             (<[2%nat := storage_jcr 2 10 2%nat]> ∅);
     jq := sample_jobq [1%nat; 2%nat] [];
     dir := idle_director; calls := [] |}.

(** ** Sample states of the drain loop *)

(** The permits of [backup_jcr] are held, and nothing else. *)
Definition held_director : Director :=
  {| rcs_NumConcurrentJobs := <[3%nat := 1]> (λ _, 0);
     rjs_NumConcurrentJobs := <[4%nat := 1]> (λ _, 0);
     rss_NumConcurrentJobs := <[1%nat := 1]> (<[2%nat := 1]> (λ _, 0));
     rss_NumConcurrentReadJobs := <[1%nat := 1]> (λ _, 0);
     msgs := [] |}.

(** [backup_jcr], admitted, has run to a good end and is still on the
    running list. *)
Definition finished_backup : World :=
  {| heap := <[1%nat := set_JobStatus JS_Terminated
                          (with_impl (set_acquired_resource_locks true)
                             backup_jcr)]> ∅;
     jq := sample_jobq [] [1%nat];
     dir := held_director; calls := [] |}.

(** Jobs 1 and 2 are ready and one worker of the two allowed is at
    work. *)
Definition two_ready : World :=
  {| heap := <[1%nat := plain_jcr 1 10 1%nat true]>
             (<[2%nat := plain_jcr 2 10 2%nat true]> ∅);
     jq := {| valid := true; quit := false; max_workers := 2;
              num_workers := 1; waiting_jobs := [];
              ready_jobs := [1%nat; 2%nat]; running_jobs := [] |};
     dir := idle_director; calls := [] |}.

(** Threads cannot be created. *)
Definition no_threads_os : OS :=
  {| os_time := 100; os_pthread_cond_init := 0; os_pthread_create := 11;
     os_malloc_ok := true |}.

(** ** Creating and destroying the queue: [JobqInit], [JobqDestroy] *)

(** The pthread objects of a queue, [jq->attr], [jq->mutex] and
    [jq->work]. An object is live when a call of its init function has
    succeeded and it has not been passed to its destroy function
    since. *)
Record pthread_objects := {
  attr_live : bool;
  mutex_live : bool;
  work_live : bool
}.

Inductive pthread_function :=
| attr_init | attr_setdetachstate | mutex_init | cond_init | cond_wait.

(** The queue as [JobqInit] and [JobqDestroy] see it: the fields the
    other operations use, the engine routine (by its address), the
    pthread objects, and the error messages written with
    [Jmsg1(NULL, M_ERROR, ...)], each by the function that failed and
    its status. *)
Record Queue := {
  fields : jobq_t;
  engine : nat;
  objects : pthread_objects;
  errors : list (pthread_function * Z)
}.

(** What the thread library answers: the status of each call, and for
    the successive calls of [pthread_cond_wait] the status and the
    number of workers left when the caller wakes up with the mutex. *)
Record Pthread := {
  pthread_attr_init : Z;
  pthread_attr_setdetachstate : Z;
  pthread_mutex_init : Z;
  pthread_cond_init : Z;
  pthread_cond_wait : list (Z * Z);
  pthread_mutex_destroy : Z;
  pthread_cond_destroy : Z;
  pthread_attr_destroy : Z
}.

Definition set_fields (q : jobq_t) (s : Queue) : Queue :=
  {| fields := q; engine := engine s; objects := objects s;
     errors := errors s |}.
Definition set_engine (e : nat) (s : Queue) : Queue :=
  {| fields := fields s; engine := e; objects := objects s;
     errors := errors s |}.
Definition set_objects (o : pthread_objects) (s : Queue) : Queue :=
  {| fields := fields s; engine := engine s; objects := o;
     errors := errors s |}.

Definition set_attr_live (b : bool) (s : Queue) : Queue :=
  set_objects {| attr_live := b; mutex_live := mutex_live (objects s);
                 work_live := work_live (objects s) |} s.
Definition set_mutex_live (b : bool) (s : Queue) : Queue :=
  set_objects {| attr_live := attr_live (objects s); mutex_live := b;
                 work_live := work_live (objects s) |} s.
Definition set_work_live (b : bool) (s : Queue) : Queue :=
  set_objects {| attr_live := attr_live (objects s);
                 mutex_live := mutex_live (objects s); work_live := b |} s.

Definition set_valid (b : bool) (q : jobq_t) : jobq_t :=
  {| valid := b; quit := quit q; max_workers := max_workers q;
     num_workers := num_workers q; waiting_jobs := waiting_jobs q;
     ready_jobs := ready_jobs q; running_jobs := running_jobs q |}.
Definition set_quit (b : bool) (q : jobq_t) : jobq_t :=
  {| valid := valid q; quit := b; max_workers := max_workers q;
     num_workers := num_workers q; waiting_jobs := waiting_jobs q;
     ready_jobs := ready_jobs q; running_jobs := running_jobs q |}.

Definition error (f : pthread_function) (status : Z) : M Queue unit :=
  modify (λ s,
    {| fields := fields s; engine := engine s; objects := objects s;
       errors := errors s ++ [(f, status)] |}).

(** [JobqInit], [jobq.cc:70-114] *)
Definition JobqInit (a : Pthread) (max_workers : Z) (engine : nat)
    : M Queue Z :=
  let status := pthread_attr_init a in
  if negb (status =? 0) then
    error attr_init status;;
    ret status
  else
    modify (set_attr_live true);;
    let status := pthread_attr_setdetachstate a in
    if negb (status =? 0) then
      modify (set_attr_live false);;
      ret status
    else
      let status := pthread_mutex_init a in
      if negb (status =? 0) then
        error mutex_init status;;
        modify (set_attr_live false);;
        ret status
      else
        modify (set_mutex_live true);;
        let status := pthread_cond_init a in
        if negb (status =? 0) then
          error cond_init status;;
          modify (set_mutex_live false);;
          modify (set_attr_live false);;
          ret status
        else
          modify (set_work_live true);;
          modify (λ s, set_fields (set_quit false (fields s)) s);;
          modify (λ s, set_fields
            {| valid := valid (fields s); quit := quit (fields s);
               max_workers := max_workers;
               num_workers := num_workers (fields s);
               waiting_jobs := waiting_jobs (fields s);
               ready_jobs := ready_jobs (fields s);
               running_jobs := running_jobs (fields s) |} s);;
          modify (λ s, set_fields (set_num_workers 0 (fields s)) s);;
          modify (set_engine engine);;
          modify (λ s, set_fields (set_valid true (fields s)) s);;
          modify (λ s, set_fields (set_waiting_jobs [] (fields s)) s);;
          modify (λ s, set_fields (set_running_jobs [] (fields s)) s);;
          modify (λ s, set_fields (set_ready_jobs [] (fields s)) s);;
          ret 0.

(** The loop of [jobq.cc:135-143]: the caller waits on [jq->work] while
    workers are left. A wait releases the mutex, and the workers that
    leave meanwhile take themselves off the count. When the answers run
    out with workers left the caller is still waiting: the run has no
    result. The result is the status of a wait that failed, or zero. *)
Fixpoint wait_for_workers (waits : list (Z * Z)) : M Queue Z :=
  q ← gets fields;
  if num_workers q >? 0 then
    match waits with
    | [] => raise OutOfFuel
    | (status, workers) :: waits' =>
      modify (λ s, set_fields (set_num_workers workers (fields s)) s);;
      if negb (status =? 0) then
        error cond_wait status;;
        ret status
      else wait_for_workers waits'
    end
  else ret 0.

(** [JobqDestroy], [jobq.cc:122-153] *)
Definition JobqDestroy (a : Pthread) : M Queue Z :=
  q ← gets fields;
  if negb (valid q) then ret EINVAL
  else
    modify (λ s, set_fields (set_valid false (fields s)) s);;
    status ← (if num_workers q >? 0 then
                modify (λ s, set_fields (set_quit true (fields s)) s);;
                wait_for_workers (pthread_cond_wait a)
              else ret 0);
    if negb (status =? 0) then ret status
    else
      let status := pthread_mutex_destroy a in
      modify (set_mutex_live false);;
      let status1 := pthread_cond_destroy a in
      modify (set_work_live false);;
      let status2 := pthread_attr_destroy a in
      modify (set_attr_live false);;
      modify (λ s, set_fields (set_waiting_jobs [] (fields s)) s);;
      modify (λ s, set_fields (set_running_jobs [] (fields s)) s);;
      modify (λ s, set_fields (set_ready_jobs [] (fields s)) s);;
      ret (if negb (status =? 0) then status
           else if negb (status1 =? 0) then status1 else status2).

(** No pthread object is live. *)
Definition none_live : pthread_objects :=
  {| attr_live := false; mutex_live := false; work_live := false |}.

(** The first status other than zero, or zero. *)
Fixpoint first_failure (statuses : list Z) : Z :=
  match statuses with
  | [] => 0
  | status :: statuses' =>
    if status =? 0 then first_failure statuses' else status
  end.

(** A queue as memory not yet initialised holds it. *)
Definition raw_queue : Queue :=
  {| fields := {| valid := false; quit := true; max_workers := 7;
                  num_workers := 3; waiting_jobs := [5%nat];
                  ready_jobs := []; running_jobs := [] |};
     engine := 0%nat; objects := none_live; errors := [] |}.

(** Every call succeeds, and the two workers of a queue are gone at the
    second wake-up. *)
Definition good_pthread : Pthread :=
  {| pthread_attr_init := 0; pthread_attr_setdetachstate := 0;
     pthread_mutex_init := 0; pthread_cond_init := 0;
     pthread_cond_wait := [(0, 1); (0, 0)];
     pthread_mutex_destroy := 0; pthread_cond_destroy := 0;
     pthread_attr_destroy := 0 |}.

(** ** The waiter thread: [sched_wait], [jobq.cc:167-204] *)

Definition set_canceled (b : bool) (jcr : JCR) : JCR :=
  {| JobId := JobId jcr; JobType := JobType jcr; JobLevel := JobLevel jcr;
     JobStatus := JobStatus jcr; JobPriority := JobPriority jcr;
     sched_time := sched_time jcr;
     initial_sched_time := initial_sched_time jcr;
     JobBytes := JobBytes jcr; JobErrors := JobErrors jcr;
     use_count := use_count jcr; canceled := b; impl := impl jcr |}.

(** The loop of [jobq.cc:190-197]. [events] tells what each
    [Bmicrosleep] of the loop meets: whether a request to cancel the
    job arrives during the sleep, and what [time(NULL)] answers after
    it. The result lists the durations of the sleeps, in seconds. When
    the events run out with time left to wait the waiter is still
    asleep: the run has no result. *)
Fixpoint wait_until (events : list (bool * Z)) (jcr : ptr) (wtime : Z)
    : M World (list Z) :=
  if wtime >? 0 then
    match events with
    | [] => raise OutOfFuel
    | (cancel, now) :: events' =>
      let wtime := if wtime >? 30 then 30 else wtime in
      (if (cancel : bool) then update jcr (set_canceled true) else ret tt);;
      v ← load jcr;
      if JobCanceled v then ret [wtime]
      else
        sleeps ← wait_until events' jcr (sched_time v - now);
        ret (wtime :: sleeps)
    end
  else ret [].

(** [now] is the answer of the first [time(NULL)], [os] what the
    operating system answers to the [JobqAdd] at the end. The result
    holds the seconds announced in the job message "waiting ... seconds
    for scheduled start time", if the message is written, and the
    durations of the sleeps. The message prints the 64-bit [wtime] with
    [%d]. *)
Definition sched_wait (now : Z) (events : list (bool * Z)) (os : OS)
    (jcr : ptr) : M World (option Z * list Z) :=
  v ← load jcr;
  let wtime := sched_time v - now in
  update jcr (setJobStatus JS_WaitStartTime);;
  let announced := if wtime >? 0 then Some (to_int wtime) else None in
  sleeps ← wait_until events jcr wtime;
  JobqAdd os jcr;;
  do_call (FreeJcr jcr);;
  ret (announced, sleeps).

(** A request to cancel the job of record [v] has arrived by the end of
    the [i]-th sleep of its waiter. *)
Definition canceled_by (v : JCR) (events : list (bool * Z)) (i : nat)
    : bool :=
  JobCanceled v || existsb fst (take i events).

(** Job 2 is to start at time 160, and job 1 waits in the queue. *)
Definition one_scheduled : World :=
  set_heap (<[2%nat := set_sched_time 160 (plain_jcr 2 10 2%nat true)]>
              (heap one_waiting)) one_waiting.

(** ** The worker thread: [jobq_server], [jobq.cc:383-640] *)

(** What surrounds one worker thread: the answers of the operating
    system to its queue operations, and to the [JobqAdd] of a job
    rescheduled in place, the engine of the queue, what the
    other threads do to the state while the worker has released the
    mutex to sleep or to wait, the answer of the duplicate-job check for
    a job, and the address and contents of the record the job factory
    gives for a job that is rescheduled. *)
Record Surroundings := {
  sur_os : OS;
  sur_os_add : OS;
  sur_engine : ptr → M World unit;
  sur_others : M World unit;
  sur_AllowDuplicateJob : ptr → bool;
  sur_NewDirectorJcr : ptr → ptr * JCR
}.

Definition ETIMEDOUT : Z := 110.

(** The ready loop, [jobq.cc:432-508]. The result is false when the
    worker has left from inside the loop. [fuel] bounds the number of
    rounds. The engine runs with the mutex released: what the other
    threads do meanwhile is part of [sur_engine]. *)
Fixpoint drain (fuel : nat) (s : Surroundings) : M World bool :=
  q ← gets jq;
  if negb (bool_decide (ready_jobs q = [])) && negb (quit q) then
    match fuel with
    | O => raise OutOfFuel
    | S fuel' =>
      taken ← take_ready (sur_os s);
      match taken with
      | None => ret false
      | Some je =>
        sur_engine s je;;
        _ ← load je;
        after_engine (sur_os s) (sur_os_add s) (sur_AllowDuplicateJob s je)
          (sur_NewDirectorJcr s je).1 (sur_NewDirectorJcr s je).2 je;;
        drain fuel' s
      end
    end
  else ret true.

(** The timed wait at the top of the big loop, [jobq.cc:400-426]:
    [waits] holds the statuses the coming calls of
    [pthread_cond_timedwait] return. The result is [None] when the
    worker has left, and else what is left of [waits] and the new value
    of [timedout]. *)
Definition timed_wait (s : Surroundings) (waits : list Z)
    (work timedout : bool) : M World (option (list Z * bool)) :=
  q ← gets jq;
  if negb work && negb (quit q) then
    match waits with
    | [] => raise OutOfFuel
    | status :: waits' =>
      sur_others s;;
      if status =? ETIMEDOUT then ret (Some (waits', true))
      else if negb (status =? 0) then
        modify_jq (λ q, set_num_workers (num_workers q - 1) q);;
        ret None
      else ret (Some (waits', timedout))
    end
  else ret (Some (waits, timedout)).

(** The end of a turn of the big loop, [jobq.cc:589-631]. The result is
    [None] when the worker leaves the loop, and else the new value of
    [work]. The broadcast on [jq->work] of the last worker that quits
    changes no field of the queue and is not recorded. *)
Definition end_of_turn (s : Surroundings) (timedout : bool)
    : M World (option bool) :=
  q ← gets jq;
  if bool_decide (ready_jobs q = []) && quit q then
    modify_jq (λ q, set_num_workers (num_workers q - 1) q);;
    ret None
  else if bool_decide (ready_jobs q = []) && timedout then
    modify_jq (λ q, set_num_workers (num_workers q - 1) q);;
    ret None
  else
    let work := negb (bool_decide (ready_jobs q = []))
                || negb (bool_decide (waiting_jobs q = [])) in
    if work then
      sur_others s;;
      q ← gets jq;
      ret (Some (negb (bool_decide (ready_jobs q = []))
                 || negb (bool_decide (waiting_jobs q = []))))
    else ret (Some work).

(** The big loop from a turn on, with the values of the local variables
    [work] and [timedout]; the thread starts with [work] true and
    [timedout] false. [fuel] bounds the number of turns, and of rounds
    of the ready loop in each. *)
Fixpoint jobq_server_loop (fuel : nat) (s : Surroundings) (waits : list Z)
    (work timedout : bool) : M World unit :=
  match fuel with
  | O => raise OutOfFuel
  | S fuel' =>
    waited ← timed_wait s waits work timedout;
    match waited with
    | None => ret tt
    | Some (waits, timedout) =>
      serving ← drain fuel s;
      if negb serving then ret tt
      else
        promote_waiting;;
        turn ← end_of_turn s timedout;
        match turn with
        | None => ret tt
        | Some work => jobq_server_loop fuel' s waits work timedout
        end
    end
  end.

Definition jobq_server (fuel : nat) (s : Surroundings) (waits : list Z)
    : M World unit :=
  jobq_server_loop fuel s waits true false.

(** The server threads created among the calls [cs]. *)
Definition servers (cs : list call) : Z :=
  Z.of_nat (length (List.filter
    (λ c, match c with pthread_create_jobq_server => true | _ => false end)
    cs)).

(** From [w] to [w'] the number of workers has changed by the number of
    server threads created, less [left] workers that have gone. *)
Definition accounted (left : Z) (w w' : World) : Prop :=
  num_workers (jq w') - servers (calls w')
  = num_workers (jq w) - servers (calls w) - left.

(** Surroundings in which nothing happens: the engine ends the job with
    a good end and no other thread touches the state. *)
Definition quiet (os : OS) : Surroundings :=
  {| sur_os := os;
     sur_os_add := os;
     sur_engine := λ je, update je (setJobStatus JS_Terminated);
     sur_others := ret tt;
     sur_AllowDuplicateJob := λ _, true;
     sur_NewDirectorJcr := λ _, (99%nat, fresh_jcr) |}.

(** Jobs 1 and 2 are ready when the queue is asked to quit. *)
Definition quitting_two_ready : World :=
  {| heap := heap two_ready;
     jq := {| valid := false; quit := true; max_workers := 2;
              num_workers := 1; waiting_jobs := [];
              ready_jobs := [1%nat; 2%nat]; running_jobs := [] |};
     dir := idle_director; calls := [] |}.

(** Job 1 waits when the queue is asked to quit. *)
Definition quitting_one_waiting : World :=
  {| heap := heap one_waiting;
     jq := {| valid := false; quit := true; max_workers := 1;
              num_workers := 1; waiting_jobs := [1%nat];
              ready_jobs := []; running_jobs := [] |};
     dir := idle_director; calls := [] |}.

(** * Properties of the concurrency counters *)

(** ** Running monadic code *)

Lemma bind_Ok {S A B} (m : M S A) (k : A → M S B) s a s' :
  m s = Ok (a, s') → (m ≫= k) s = k a s'.
Proof. intros E. unfold mbind, M_bind. by rewrite E. Qed.

Lemma bind_Fault {S A B} (m : M S A) (k : A → M S B) s f :
  m s = Fault f → (m ≫= k) s = Fault f.
Proof. intros E. unfold mbind, M_bind. by rewrite E. Qed.

Lemma bind_ext {S A B} (m m' : M S A) (k : A → M S B) s :
  (∀ s, m s = m' s) → (m ≫= k) s = (m' ≫= k) s.
Proof. intros E. unfold mbind, M_bind. by rewrite E. Qed.

Lemma bind_assoc {S A B C} (m : M S A) (k : A → M S B) (k' : B → M S C) s :
  ((m ≫= k) ≫= k') s = (m ≫= λ a, k a ≫= k') s.
Proof. unfold mbind, M_bind. by destruct (m s) as [[]|]. Qed.

Ltac run :=
  cbv [mbind M_bind mret M_ret ret raise gets modify log deref].

Ltac steps :=
  repeat first
    [ reflexivity
    | rewrite bind_assoc
    | erewrite bind_Ok by eassumption; cbn [negb]; cbv beta iota ].

(** Goals about the counters after a few assignments. *)
Ltac counters :=
  repeat match goal with
  | |- ∀ _, _ => intro
  | c : counter |- _ => destruct c
  end;
  cbn [value unit_of counts n_counter rcs_NumConcurrentJobs
       rjs_NumConcurrentJobs rss_NumConcurrentJobs rss_NumConcurrentReadJobs
       set_rcs set_rjs set_rss set_rss_read andb] in *;
  unfold unit_of, insert, fn_insert in *; cbn [counts andb] in *;
  repeat first [case_decide | case_bool_decide]; subst; try lia;
  try congruence.

Ltac split_jcr jcr :=
  destruct jcr as [? ? ? ? ? ? ? ? ? ? ? [[rs ws ? ? cl jb] ? ? ? ic isc]];
  destruct rs as [[rn rmax]|], ws as [[wn wmax]|], cl as [[cn cmax]|],
    jb as [[jn jmax]|], ic, isc.

Ltac unfold_ops :=
  unfold IncReadStore, IncWriteStore, IncClientConcurrency, IncJobConcurrency,
    DecReadStore, DecWriteStore, DecClientConcurrency, DecJobConcurrency;
  cbn [impl res IgnoreStorageConcurrency IgnoreClientConcurrency read_storage
       write_storage client job negb];
  run;
  cbn [store_resource_name_ store_MaxConcurrentJobs client_resource_name_
       client_MaxConcurrentJobs job_resource_name_ job_MaxConcurrentJobs
       rcs_NumConcurrentJobs rjs_NumConcurrentJobs rss_NumConcurrentJobs
       rss_NumConcurrentReadJobs msgs set_rcs set_rjs set_rss set_rss_read].

Ltac split_ltb :=
  repeat match goal with
  | |- context [?a <? ?b] => destruct (Z.ltb_spec a b)
  end.

(** ** The four test-and-increment operations *)

Lemma try_inc_ok (p : permit) (jcr : JCR) (d : Director)
    (name : resource_name) (max : Z) :
  applies p jcr = Some (name, max) →
  ∃ d',
    try_inc p jcr d = Ok (bool_decide (value d (n_counter p) name < max), d') ∧
    (∀ c name',
      value d' c name' =
      value d c name' +
      (if bool_decide (value d (n_counter p) name < max)
       then unit_of p name c name' else 0)) ∧
    msgs d' = msgs d ++ inc_msgs p jcr d.
Proof.
  intros Happ. unfold inc_msgs. rewrite Happ.
  split_jcr jcr; destruct p; cbn in Happ; try discriminate;
    simplify_eq; cbn [try_inc n_counter value]; unfold_ops; split_ltb;
    first [rewrite !bool_decide_eq_true_2 by lia
          |rewrite !bool_decide_eq_false_2 by lia];
    (eexists; split; [reflexivity|]); (split; [counters|]);
    cbn [msgs]; rewrite <- ?app_assoc, ?app_nil_r; reflexivity.
Qed.

Lemma dec_ok (p : permit) (jcr : JCR) (d : Director)
    (name : resource_name) (max : Z) :
  applies p jcr = Some (name, max) →
  ∃ d',
    dec p jcr d = Ok (tt, d') ∧
    (∀ c name', value d' c name' = value d c name' - unit_of p name c name') ∧
    msgs d' = msgs d ++ dec_msgs p jcr d.
Proof.
  intros Happ. unfold dec_msgs, fatal_msgs. rewrite Happ.
  split_jcr jcr; destruct p; cbn in Happ; try discriminate;
    simplify_eq; cbn [dec n_counter value]; unfold_ops; split_ltb;
    (eexists; split; [reflexivity|]); (split; [counters|]);
    cbn [msgs app]; rewrite <- ?app_assoc; reflexivity.
Qed.

Lemma dec_noop (p : permit) (jcr : JCR) (d : Director) :
  p ≠ Job → applies p jcr = None → dec p jcr d = Ok (tt, d).
Proof.
  intros Hp Happ. split_jcr jcr; destruct p; cbn in Happ; try discriminate;
    try congruence; reflexivity.
Qed.

(** ** Facts about [shifted] and the logged lines *)

Lemma shifted_same d d' : shifted d d' (λ _ _, 0) ↔ same_counters d d'.
Proof.
  unfold shifted, same_counters. split; intros H c n; rewrite H; lia.
Qed.

Lemma inc_msgs_no_Dec p jcr d q name n :
  Dmsg_Dec q name n ∉ inc_msgs p jcr d.
Proof.
  unfold inc_msgs. destruct (applies p jcr) as [[nm mx]|];
    [|apply not_elem_of_nil].
  cbv zeta. case_bool_decide; [|destruct p];
    rewrite ?list_elem_of_singleton; try apply not_elem_of_nil; congruence.
Qed.

Lemma inc_msgs_Inc p jcr d name max :
  available p jcr d = true → applies p jcr = Some (name, max) →
  ∃ n, Dmsg_Inc p name n ∈ inc_msgs p jcr d.
Proof.
  unfold available, inc_msgs. intros Ha Happ. rewrite Happ in *.
  cbv zeta. rewrite Ha. eexists. apply list_elem_of_singleton. reflexivity.
Qed.

Lemma dec_msgs_Dec p jcr d q name n :
  Dmsg_Dec q name n ∈ dec_msgs p jcr d →
  q = p ∧ ∃ max, applies p jcr = Some (name, max).
Proof.
  unfold dec_msgs, fatal_msgs.
  destruct (applies p jcr) as [[nm mx]|]; [|by intros ?%elem_of_nil].
  intros H. apply elem_of_cons in H as [H|H].
  - simplify_eq. eauto.
  - exfalso. destruct p; repeat case_match; cbn [app] in H;
      repeat (apply elem_of_cons in H as [H|H]; [discriminate|]);
      by apply elem_of_nil in H.
Qed.

Lemma dec_msgs_no_attempt p jcr d :
  List.filter is_attempt (dec_msgs p jcr d) = [].
Proof.
  unfold dec_msgs, fatal_msgs. destruct (applies p jcr) as [[nm mx]|]; [|done].
  destruct p; repeat case_match; reflexivity.
Qed.

(** ** The calls as [AcquireResources] makes them *)

Lemma guarded_inc_needed (p : permit) (jcr : JCR) :
  needs p jcr = true → guarded_inc p jcr = try_inc p jcr.
Proof.
  unfold needs. destruct (applies p jcr) as [[name max]|] eqn:Happ; [|done].
  intros _. destruct p; try reflexivity; unfold applies in Happ; cbn.
  - destruct (read_storage (res (impl jcr))); [done|].
    by destruct (IgnoreStorageConcurrency (impl jcr)).
  - destruct (write_storage (res (impl jcr))); [done|].
    by destruct (IgnoreStorageConcurrency (impl jcr)).
Qed.

Lemma guarded_inc_noop (p : permit) (jcr : JCR) (d : Director) :
  needs p jcr = false → p ≠ Job → guarded_inc p jcr d = Ok (true, d).
Proof.
  unfold needs. destruct (applies p jcr) as [[name max]|] eqn:Happ; [done|].
  intros _ Hp.
  destruct p; unfold applies in Happ; cbn;
    unfold IncReadStore, IncWriteStore, IncClientConcurrency; try done.
  - destruct (read_storage (res (impl jcr))); [|done].
    by destruct (IgnoreStorageConcurrency (impl jcr)).
  - destruct (write_storage (res (impl jcr))); [|done].
    by destruct (IgnoreStorageConcurrency (impl jcr)).
  - destruct (client (res (impl jcr))); [|done].
    by destruct (IgnoreClientConcurrency (impl jcr)).
Qed.

Lemma needs_Job jcr : is_Some (job (res (impl jcr))) → needs Job jcr = true.
Proof. intros [j Hj]. unfold needs. cbn. by rewrite Hj. Qed.

Lemma needs_not_Job p jcr :
  is_Some (job (res (impl jcr))) → needs p jcr = false → p ≠ Job.
Proof. intros Hj Hn ->. by rewrite needs_Job in Hn. Qed.

Lemma guarded_inc_run (p : permit) (jcr : JCR) (d : Director) :
  is_Some (job (res (impl jcr))) →
  ∃ d',
    guarded_inc p jcr d = Ok (available p jcr d, d') ∧
    shifted d d' (λ c n, if available p jcr d then unit_at p jcr c n else 0) ∧
    msgs d' = msgs d ++ inc_msgs p jcr d.
Proof.
  intros Hj. destruct (needs p jcr) eqn:Hn.
  - rewrite (guarded_inc_needed p jcr Hn). unfold needs in Hn.
    unfold available, unit_at.
    destruct (applies p jcr) as [[name max]|] eqn:Happ; [|done].
    destruct (try_inc_ok p jcr d name max Happ) as (d' & E & Hs & Hm).
    by exists d'.
  - rewrite (guarded_inc_noop p jcr d Hn (needs_not_Job p jcr Hj Hn)).
    unfold needs in Hn. unfold available, unit_at, inc_msgs.
    destruct (applies p jcr) as [[name max]|] eqn:Happ; [done|].
    exists d. split; [done|]. split; [intros c n; lia|].
    by rewrite app_nil_r.
Qed.

Lemma dec_run (p : permit) (jcr : JCR) (d : Director) :
  is_Some (job (res (impl jcr))) →
  ∃ d',
    dec p jcr d = Ok (tt, d') ∧
    shifted d d' (λ c n, - unit_at p jcr c n) ∧
    msgs d' = msgs d ++ dec_msgs p jcr d.
Proof.
  intros Hj. unfold unit_at, dec_msgs.
  destruct (applies p jcr) as [[name max]|] eqn:Happ.
  - destruct (dec_ok p jcr d name max Happ) as (d' & E & Hs & Hm).
    exists d'. split; [done|]. split.
    + intros c n. rewrite Hs. lia.
    + rewrite Hm. unfold dec_msgs. by rewrite Happ.
  - exists d. split; [|split; [intros c n; lia|by rewrite app_nil_r]].
    apply dec_noop; [|done].
    apply (needs_not_Job p jcr Hj). unfold needs. by rewrite Happ.
Qed.

Lemma release_filter jcr held d :
  is_Some (job (res (impl jcr))) →
  release jcr (List.filter (λ p, needs p jcr) held) d = release jcr held d.
Proof.
  intros Hj. revert d. induction held as [|p held IH]; intros d; [done|].
  cbn [List.filter]. destruct (needs p jcr) eqn:Hn.
  - cbn [release]. unfold mbind, M_bind.
    destruct (dec p jcr d) as [[[] d']|]; [apply IH|done].
  - cbn [release]. rewrite IH.
    pose proof (needs_not_Job p jcr Hj Hn) as Hp.
    unfold needs in Hn. destruct (applies p jcr) eqn:Happ; [done|].
    unfold mbind, M_bind. by rewrite (dec_noop p jcr d Hp Happ).
Qed.

Lemma acquire_in_order_attempt jcr todo held d :
  is_Some (job (res (impl jcr))) →
  acquire_in_order jcr (List.filter (λ p, needs p jcr) todo)
    (List.filter (λ p, needs p jcr) held) d
  = attempt jcr todo held d.
Proof.
  intros Hj. revert held d.
  induction todo as [|p todo IH]; intros held d; [done|].
  cbn [List.filter attempt]. destruct (needs p jcr) eqn:Hn.
  - cbn [acquire_in_order]. rewrite (guarded_inc_needed p jcr Hn).
    destruct (try_inc p jcr d) as [[[] d']|] eqn:E.
    + rewrite !(bind_Ok _ _ _ _ _ E).
      rewrite <- IH. cbn [List.filter]. by rewrite Hn.
    + rewrite !(bind_Ok _ _ _ _ _ E).
      unfold mbind, M_bind. by rewrite release_filter.
    + by rewrite !(bind_Fault _ _ _ _ E).
  - rewrite (bind_Ok _ _ _ _ _
      (guarded_inc_noop p jcr d Hn (needs_not_Job p jcr Hj Hn))).
    rewrite <- IH. cbn [List.filter]. by rewrite Hn.
Qed.

Lemma job_type_exclusions_res jcr :
  res (impl (job_type_exclusions jcr)) = res (impl jcr).
Proof.
  unfold job_type_exclusions.
  destruct (JobType jcr); try reflexivity; cbn;
    destruct (MigrateJobId (impl jcr) =? 0); reflexivity.
Qed.

Lemma job_type_exclusions_locks jcr :
  acquired_resource_locks (impl (job_type_exclusions jcr))
  = acquired_resource_locks (impl jcr).
Proof.
  unfold job_type_exclusions.
  destruct (JobType jcr); try reflexivity; cbn;
    destruct (MigrateJobId (impl jcr) =? 0); reflexivity.
Qed.

Lemma AcquireResources_unfold jcr :
  AcquireResources jcr =
  let jcr := job_type_exclusions
               (with_impl (set_acquired_resource_locks false) jcr) in
  rs ← guarded_inc Rstore jcr;
  if negb rs then ret (false, setJobStatus JS_WaitStoreRes jcr)
  else
    ws ← guarded_inc Wstore jcr;
    if negb ws then
      dec Rstore jcr;;
      ret (false, setJobStatus JS_WaitStoreRes jcr)
    else
      cl ← guarded_inc Client jcr;
      if negb cl then
        dec Wstore jcr;;
        dec Rstore jcr;;
        ret (false, setJobStatus JS_WaitClientRes jcr)
      else
        jb ← guarded_inc Job jcr;
        if negb jb then
          dec Wstore jcr;;
          dec Rstore jcr;;
          dec Client jcr;;
          ret (false, setJobStatus JS_WaitJobRes jcr)
        else
          ret (true, with_impl (set_acquired_resource_locks true) jcr).
Proof. reflexivity. Qed.

Lemma units_of_needed jcr c n :
  units_of (needed jcr) jcr c n =
  unit_at Rstore jcr c n + unit_at Wstore jcr c n +
  unit_at Client jcr c n + unit_at Job jcr c n.
Proof.
  unfold needed, admission_order, needs, unit_at. cbn [List.filter].
  destruct (applies Rstore jcr) as [[]|] eqn:ER,
    (applies Wstore jcr) as [[]|] eqn:EW,
    (applies Client jcr) as [[]|] eqn:EC,
    (applies Job jcr) as [[]|] eqn:EJ;
    cbn [units_of]; rewrite ?ER, ?EW, ?EC, ?EJ; lia.
Qed.

Lemma unavailable_needed p jcr d :
  available p jcr d = false → p ∈ needed jcr.
Proof.
  unfold available, needed, admission_order. intros H.
  apply list_elem_of_In, filter_In. split.
  - destruct p; cbn; tauto.
  - unfold needs. by destruct (applies p jcr).
Qed.

(** Every state an admission attempt of record [jcr1] can pass through,
    from state [d]: after each test-and-increment, and after each
    release of the three ways out. *)
Ltac attempt_states jcr1 d Hj1 :=
  destruct (guarded_inc_run Rstore jcr1 d Hj1) as (d1 & E1 & S1 & M1);
  destruct (guarded_inc_run Wstore jcr1 d1 Hj1) as (d2 & E2 & S2 & M2);
  destruct (guarded_inc_run Client jcr1 d2 Hj1) as (d3 & E3 & S3 & M3);
  destruct (guarded_inc_run Job jcr1 d3 Hj1) as (d4 & E4 & S4 & M4);
  destruct (dec_run Rstore jcr1 d2 Hj1) as (r1 & Er1 & Sr1 & Mr1);
  destruct (dec_run Wstore jcr1 d3 Hj1) as (w1 & Ew1 & Sw1 & Mw1);
  destruct (dec_run Rstore jcr1 w1 Hj1) as (w2 & Ew2 & Sw2 & Mw2);
  destruct (dec_run Wstore jcr1 d4 Hj1) as (x1 & Ex1 & Sx1 & Mx1);
  destruct (dec_run Rstore jcr1 x1 Hj1) as (x2 & Ex2 & Sx2 & Mx2);
  destruct (dec_run Client jcr1 x2 Hj1) as (x3 & Ex3 & Sx3 & Mx3).

(** Goals about counters from the [shifted] facts at hand. *)
Ltac shifts :=
  unfold same_counters, shifted in *;
  let c := fresh "c" in let n := fresh "n" in
  intros c n;
  repeat match goal with
  | H : ∀ (c : counter) (name' : resource_name), _ = _ |- _ =>
      pose proof (H c n); clear H
  end;
  rewrite ?units_of_needed; lia.

(** ** The claims about the counters and admission *)

(** C6. Each test-and-increment operation, when its class applies to the
    record, returns true exactly when the counter [n] of the resource is
    below [max], and then adds one to it; otherwise it returns false and
    leaves every counter as it was. A read-storage permit counts in the
    read sub-counter as well as in [n], on the way up and, in [dec], on
    the way down. No other counter changes. *)
Theorem try_inc_test_and_increment (p : permit) (jcr : JCR) (d : Director)
    (name : resource_name) (max : Z) :
  applies p jcr = Some (name, max) →
  let below := bool_decide (value d (n_counter p) name < max) in
  (∃ d',
     try_inc p jcr d = Ok (below, d') ∧
     ∀ c name',
       value d' c name' =
       value d c name' + (if below then unit_of p name c name' else 0)) ∧
  (∃ d',
     dec p jcr d = Ok (tt, d') ∧
     ∀ c name',
       value d' c name' = value d c name' - unit_of p name c name') ∧
  unit_of Rstore name CStoreRead name = 1 ∧
  unit_of p name (n_counter p) name = 1.
Proof.
  intros Happ below. split; [|split; [|split]].
  - destruct (try_inc_ok p jcr d name max Happ) as (d' & E & H & _). eauto.
  - destruct (dec_ok p jcr d name max Happ) as (d' & E & H & _). eauto.
  - unfold unit_of. cbn. by rewrite bool_decide_eq_true_2.
  - unfold unit_of. destruct p; cbn; by rewrite bool_decide_eq_true_2.
Qed.

Lemma try_inc_test_and_increment_witness :
  applies Rstore backup_jcr = Some (1%nat, 2) ∧
  ∃ d',
    try_inc Rstore backup_jcr idle_director = Ok (true, d') ∧
    value d' CStore 1%nat = 1 ∧ value d' CStoreRead 1%nat = 1 ∧
    value d' CStore 2%nat = 0.
Proof.
  split; [reflexivity|].
  destruct (try_inc_test_and_increment Rstore backup_jcr idle_director
              1%nat 2 eq_refl) as [(d' & E & H) _].
  exists d'. split; [exact E|]. rewrite !H. repeat split; reflexivity.
Defined.

(** C8 (what the code does). The decrement of a client or of a job
    definition takes the counter below zero without a job message: the
    test for a negative result and the fatal message are in
    [DecReadStore] and [DecWriteStore] only. *)
Theorem dec_client_and_job_negative_without_fatal :
  (∃ d',
     DecJobConcurrency backup_jcr idle_director = Ok (tt, d') ∧
     value d' CJob 4%nat = -1 ∧
     List.filter is_FATAL (msgs d') = []) ∧
  (∃ d',
     DecClientConcurrency backup_jcr idle_director = Ok (tt, d') ∧
     value d' CClient 3%nat = -1 ∧
     List.filter is_FATAL (msgs d') = []) ∧
  (∃ d',
     DecWriteStore backup_jcr idle_director = Ok (tt, d') ∧
     value d' CStore 2%nat = -1 ∧
     List.filter is_FATAL (msgs d') =
       [Jmsg M_FATAL (NumConcurrentJobs_Dec_Wstore 2%nat (-1))]).
Proof.
  repeat split; eexists; (split; [reflexivity|]); split; reflexivity.
Qed.

(** What every [dec] does when its class applies: the counter goes down
    by one, whatever its value, and stays there; a fatal job message is
    written for a negative result of a storage counter, and never for a
    client or a job definition. *)
Lemma dec_decrements_and_logs (p : permit) (jcr : JCR) (d : Director)
    (name : resource_name) (max : Z) :
  applies p jcr = Some (name, max) →
  ∃ d',
    dec p jcr d = Ok (tt, d') ∧
    value d' (n_counter p) name = value d (n_counter p) name - 1 ∧
    List.filter is_FATAL (msgs d') =
      List.filter is_FATAL (msgs d) ++ fatal_msgs p name d.
Proof.
  intros Happ.
  destruct (dec_ok p jcr d name max Happ) as (d' & E & H & Hm).
  exists d'. split; [done|]. split.
  - rewrite H. unfold unit_of.
    destruct p; cbn; rewrite bool_decide_eq_true_2 by done; lia.
  - rewrite Hm. unfold dec_msgs. rewrite Happ, List.filter_app.
    f_equal. cbn [List.filter is_FATAL].
    unfold fatal_msgs. destruct p; repeat case_match; reflexivity.
Qed.

(** The start of every proof about an admission attempt: the record
    after the job type exclusions, and the states the attempt can pass
    through. *)
Ltac admission_attempt jcr d Hj :=
  rewrite AcquireResources_unfold; cbv zeta;
  set (jcr1 := job_type_exclusions _);
  assert (Hj1 : is_Some (job (res (impl jcr1))))
    by (unfold jcr1; rewrite job_type_exclusions_res; cbn; by rewrite Hj);
  attempt_states jcr1 d Hj1.

(** C1. Admission is all or nothing. The routine agrees with the
    admission of the specification, in its result, in the record it
    leaves, in the counters and in the lines of the attempts: the
    permits that apply are attempted in the order read-storage,
    write-storage, client, job definition. When all are had the record
    holds its locks and every counter has gone up by the permits of the
    record; when one fails the status is the wait status of that permit,
    the result is failure and every counter is back at its value before
    the call. *)
Theorem AcquireResources_all_or_nothing (jcr : JCR) (d : Director)
    (j : JobResource) :
  job (res (impl jcr)) = Some j →
  ∃ ok jcr' d' d'',
    AcquireResources jcr d = Ok (ok, jcr', d') ∧
    admission jcr d = Ok (ok, jcr', d'') ∧
    same_counters d' d'' ∧
    List.filter is_attempt (msgs d') = List.filter is_attempt (msgs d'') ∧
    if ok then
      acquired_resource_locks (impl jcr') = true ∧
      shifted d d' (units_of (needed jcr') jcr')
    else
      acquired_resource_locks (impl jcr') = false ∧
      same_counters d d' ∧
      ∃ p, p ∈ needed jcr' ∧ JobStatus jcr' = wait_kind p.
Proof.
  intros Hj. unfold admission. admission_attempt jcr d Hj.
  assert (Hacq : acquired_resource_locks (impl jcr1) = false)
    by (unfold jcr1; by rewrite job_type_exclusions_locks).
  unfold needed at 1, admission_order at 1.
  change (acquire_in_order jcr1 _ []) with
    (acquire_in_order jcr1
       (List.filter (λ p, needs p jcr1) [Rstore; Wstore; Client; Job])
       (List.filter (λ p, needs p jcr1) [])).
  rewrite (bind_ext _ (attempt jcr1 [Rstore; Wstore; Client; Job] []))
    by (intros; by apply acquire_in_order_attempt).
  cbn [attempt release].
  assert (Hap : ∀ p s, applies p (setJobStatus s jcr1) = applies p jcr1)
    by (by intros []).
  assert (Hap' : ∀ p,
    applies p (with_impl (set_acquired_resource_locks true) jcr1)
    = applies p jcr1) by (by intros []).
  assert (Hn : ∀ s, needed (setJobStatus s jcr1) = needed jcr1).
  { intros s. unfold needed, needs, admission_order. cbn [List.filter].
    by rewrite !Hap. }
  destruct (dec_run Client jcr1 d4 Hj1) as (y1 & Ey1 & Sy1 & My1).
  destruct (dec_run Wstore jcr1 y1 Hj1) as (y2 & Ey2 & Sy2 & My2).
  destruct (dec_run Rstore jcr1 y2 Hj1) as (y3 & Ey3 & Sy3 & My3).
  destruct (available Rstore jcr1 d) eqn:A1.
  2: { exists false, (setJobStatus JS_WaitStoreRes jcr1), d1, d1.
       split; [steps|]. split; [steps|]. split; [shifts|].
       split; [done|]. split; [done|]. split; [shifts|]. exists Rstore.
       rewrite Hn. eauto using unavailable_needed. }
  destruct (available Wstore jcr1 d1) eqn:A2.
  2: { exists false, (setJobStatus JS_WaitStoreRes jcr1), r1, r1.
       split; [steps|]. split; [steps|]. split; [shifts|].
       split; [done|]. split; [done|]. split; [shifts|]. exists Wstore.
       rewrite Hn. eauto using unavailable_needed. }
  destruct (available Client jcr1 d2) eqn:A3.
  2: { exists false, (setJobStatus JS_WaitClientRes jcr1), w2, w2.
       split; [steps|]. split; [steps|]. split; [shifts|].
       split; [done|]. split; [done|]. split; [shifts|]. exists Client.
       rewrite Hn. eauto using unavailable_needed. }
  destruct (available Job jcr1 d3) eqn:A4.
  2: { exists false, (setJobStatus JS_WaitJobRes jcr1), x3, y3.
       split; [steps|]. split; [steps|]. split; [shifts|].
       split.
       { rewrite Mx3, Mx2, Mx1, My3, My2, My1, !List.filter_app,
           !dec_msgs_no_attempt. reflexivity. }
       split; [done|]. split; [shifts|]. exists Job.
       rewrite Hn. eauto using unavailable_needed. }
  exists true, (with_impl (set_acquired_resource_locks true) jcr1), d4, d4.
  split; [steps|]. split; [steps|]. split; [shifts|].
  split; [done|]. split; [done|].
  intros c n. rewrite units_of_needed. unfold unit_at. rewrite !Hap'.
  fold (unit_at Rstore jcr1 c n) (unit_at Wstore jcr1 c n)
    (unit_at Client jcr1 c n) (unit_at Job jcr1 c n).
  revert c n. shifts.
Qed.

Lemma AcquireResources_all_or_nothing_witness :
  job (res (impl backup_jcr)) = Some (sample_job 4%nat 1 false) ∧
  ∃ jcr' d',
    AcquireResources backup_jcr busy_client_director = Ok (false, jcr', d') ∧
    JobStatus jcr' = JS_WaitClientRes ∧
    same_counters busy_client_director d'.
Proof.
  split; [reflexivity|].
  destruct (AcquireResources_all_or_nothing backup_jcr busy_client_director
              _ eq_refl) as (ok & jcr' & d' & d'' & E & _ & _ & _ & H).
  vm_compute in E. injection E as <- <- <-.
  destruct H as (_ & Hs & _).
  eexists _, _. split; [reflexivity|]. split; [reflexivity|]. exact Hs.
Defined.

Ltac steps_in E :=
  repeat first
    [ rewrite bind_assoc in E
    | erewrite bind_Ok in E by eassumption; cbn [negb] in E;
      cbv beta iota in E ];
  injection E as <- <-.

Ltac split_or H :=
  repeat match type of H with
  | _ ∨ _ => destruct H as [H|H]
  end.

Ltac no_Dec :=
  let H := fresh in
  intros ? ? ? H; rewrite ?elem_of_app in H; split_or H;
  first [by apply elem_of_nil in H | by apply inc_msgs_no_Dec in H].

Ltac matching_Inc :=
  let H := fresh in let n' := fresh "n'" in let Hin := fresh in
  intros ? ? ? H; rewrite ?elem_of_app in H; split_or H;
  first
    [ by apply elem_of_nil in H
    | apply dec_msgs_Dec in H as [-> [? H]];
      match goal with
      | A : available ?p ?jcr ?d = true |- ∃ _, Dmsg_Inc ?p _ _ ∈ _ =>
          destruct (inc_msgs_Inc p jcr d _ _ A H) as [n' Hin];
          exists n'; rewrite ?elem_of_app; eauto 10
      end ].

(** C9. The releases of the storage and client permits do nothing when
    the permit cannot have been taken: the reference is unset or the
    ignore flag of the class is set. And in a failed admission attempt
    the lines of the counters are those of the increments followed by
    those of the backout, and each decrement of the backout is matched
    by an increment of the same class and resource earlier in the same
    attempt. *)
Theorem release_guards_and_backout (jcr : JCR) (d : Director)
    (j : JobResource) :
  job (res (impl jcr)) = Some j →
  (∀ p, p ≠ Job → applies p jcr = None → dec p jcr d = Ok (tt, d)) ∧
  ∀ jcr' d',
    AcquireResources jcr d = Ok (false, jcr', d') →
    ∃ incs decs,
      msgs d' = msgs d ++ incs ++ decs ∧
      (∀ q name n, Dmsg_Dec q name n ∉ incs) ∧
      (∀ q name n, Dmsg_Dec q name n ∈ decs →
                   ∃ n', Dmsg_Inc q name n' ∈ incs).
Proof.
  intros Hj. split; [intros p; apply dec_noop|].
  intros jcr' d'. admission_attempt jcr d Hj. intros E.
  destruct (available Rstore jcr1 d) eqn:A1.
  2: { steps_in E. exists (inc_msgs Rstore jcr1 d), [].
       split; [by rewrite M1, app_nil_r|]. split; [no_Dec|matching_Inc]. }
  destruct (available Wstore jcr1 d1) eqn:A2.
  2: { steps_in E.
       exists (inc_msgs Rstore jcr1 d ++ inc_msgs Wstore jcr1 d1),
         (dec_msgs Rstore jcr1 d2).
       split; [by rewrite Mr1, M2, M1, <- !app_assoc|].
       split; [no_Dec|matching_Inc]. }
  destruct (available Client jcr1 d2) eqn:A3.
  2: { steps_in E.
       exists (inc_msgs Rstore jcr1 d ++ inc_msgs Wstore jcr1 d1
               ++ inc_msgs Client jcr1 d2),
         (dec_msgs Wstore jcr1 d3 ++ dec_msgs Rstore jcr1 w1).
       split; [by rewrite Mw2, Mw1, M3, M2, M1, <- !app_assoc|].
       split; [no_Dec|matching_Inc]. }
  destruct (available Job jcr1 d3) eqn:A4.
  2: { steps_in E.
       exists (inc_msgs Rstore jcr1 d ++ inc_msgs Wstore jcr1 d1
               ++ inc_msgs Client jcr1 d2 ++ inc_msgs Job jcr1 d3),
         (dec_msgs Wstore jcr1 d4 ++ dec_msgs Rstore jcr1 x1
          ++ dec_msgs Client jcr1 x2).
       split; [by rewrite Mx3, Mx2, Mx1, M4, M3, M2, M1, <- !app_assoc|].
       split; [no_Dec|matching_Inc]. }
  exfalso. revert E. steps. discriminate.
Qed.

Lemma release_guards_and_backout_witness :
  job (res (impl copy_jcr)) = Some (sample_job 4%nat 1 false) ∧
  applies Client copy_jcr = None ∧
  DecClientConcurrency copy_jcr full_storage_director
    = Ok (tt, full_storage_director) ∧
  ∃ jcr' d' incs decs,
    AcquireResources copy_jcr full_storage_director = Ok (false, jcr', d') ∧
    msgs d' = incs ++ decs ∧
    Dmsg_Dec Rstore 1%nat 0 ∈ decs ∧
    ∃ n', Dmsg_Inc Rstore 1%nat n' ∈ incs.
Proof.
  split; [reflexivity|]. split; [reflexivity|].
  destruct (release_guards_and_backout copy_jcr full_storage_director
              _ eq_refl) as [Hnoop Hback].
  split; [exact (Hnoop Client ltac:(discriminate) eq_refl)|].
  destruct (Hback _ _ eq_refl) as (incs & decs & Hm & Hno & Hdec).
  change (msgs full_storage_director ++ incs ++ decs) with (incs ++ decs)
    in Hm.
  eexists _, _, incs, decs. split; [reflexivity|]. split; [exact Hm|].
  assert (Hin : Dmsg_Dec Rstore 1%nat 0 ∈ decs).
  { assert (H : Dmsg_Dec Rstore 1%nat 0 ∈ incs ++ decs)
      by (rewrite <- Hm; vm_compute; repeat constructor).
    apply elem_of_app in H as [H|H]; [by apply Hno in H|exact H]. }
  split; [exact Hin|]. exact (Hdec _ _ _ Hin).
Defined.

Lemma unit_at_CJob p jcr n : p ≠ Job → unit_at p jcr CJob n = 0.
Proof.
  intros Hp. unfold unit_at, unit_of.
  destruct (applies p jcr) as [[]|]; [|done]. by destruct p.
Qed.

(** The job definition permit has no null guard: without a job
    definition its operations are a null pointer access. *)
Lemma job_permit_needs_job (jcr : JCR) (d : Director) :
  job (res (impl jcr)) = None →
  IncJobConcurrency jcr d = Fault NullPointer ∧
  DecJobConcurrency jcr d = Fault NullPointer.
Proof.
  intros Hj. unfold IncJobConcurrency, DecJobConcurrency. rewrite Hj. done.
Qed.

(** C10. The job definition permit is tested for every record, whatever
    its job type and its ignore flags: [IncJobConcurrency] returns true
    and adds one exactly when the counter of the job definition is below
    its [MaxConcurrentJobs], [DecJobConcurrency] takes one off, and every
    successful admission has found the counter below the maximum and
    leaves it one higher. *)
Theorem job_concurrency_always_enforced (jcr : JCR) (d : Director)
    (j : JobResource) :
  job (res (impl jcr)) = Some j →
  let name := job_resource_name_ j in
  let max := job_MaxConcurrentJobs j in
  let n := rjs_NumConcurrentJobs d name in
  (∃ d',
     IncJobConcurrency jcr d = Ok (bool_decide (n < max), d') ∧
     rjs_NumConcurrentJobs d' name
       = if bool_decide (n < max) then n + 1 else n) ∧
  (∃ d',
     DecJobConcurrency jcr d = Ok (tt, d') ∧
     rjs_NumConcurrentJobs d' name = n - 1) ∧
  (∀ jcr' d',
     AcquireResources jcr d = Ok (true, jcr', d') →
     n < max ∧ rjs_NumConcurrentJobs d' name = n + 1).
Proof.
  intros Hj name max n.
  assert (Happ : applies Job jcr = Some (name, max))
    by (cbn; by rewrite Hj).
  assert (Hu : unit_of Job name CJob name = 1)
    by (unfold unit_of; cbn; by rewrite bool_decide_eq_true_2).
  split; [|split].
  - destruct (try_inc_ok Job jcr d name max Happ) as (d' & E & H & _).
    exists d'. split; [exact E|].
    change (value d' CJob name = if bool_decide (n < max) then n + 1 else n).
    rewrite H, Hu. subst n. cbn [n_counter value].
    repeat case_bool_decide; lia.
  - destruct (dec_ok Job jcr d name max Happ) as (d' & E & H & _).
    exists d'. split; [exact E|].
    change (value d' CJob name = n - 1). rewrite H, Hu. subst n.
    cbn [value]. lia.
  - intros jcr' d'. admission_attempt jcr d Hj. intros E.
    assert (Happ1 : applies Job jcr1 = Some (name, max)).
    { unfold jcr1. cbn. rewrite job_type_exclusions_res. cbn.
      by rewrite Hj. }
    destruct (available Rstore jcr1 d) eqn:A1;
      [|revert E; steps; discriminate].
    destruct (available Wstore jcr1 d1) eqn:A2;
      [|revert E; steps; discriminate].
    destruct (available Client jcr1 d2) eqn:A3;
      [|revert E; steps; discriminate].
    destruct (available Job jcr1 d3) eqn:A4;
      [|revert E; steps; discriminate].
    steps_in E.
    unfold available in A4. rewrite Happ1 in A4.
    apply bool_decide_eq_true_1 in A4. cbn [n_counter] in A4.
    pose proof (S1 CJob name) as H1. pose proof (S2 CJob name) as H2.
    pose proof (S3 CJob name) as H3. pose proof (S4 CJob name) as H4.
    cbv beta in H1, H2, H3, H4.
    rewrite unit_at_CJob in H1, H2, H3 by done.
    unfold unit_at in H4. rewrite Happ1, Hu in H4.
    cbn [value] in *. unfold n. lia.
Qed.

Lemma job_concurrency_always_enforced_witness :
  job (res (impl migrate_control_jcr)) = Some (sample_job 4%nat 1 false) ∧
  ∃ jcr' d',
    AcquireResources migrate_control_jcr idle_director = Ok (true, jcr', d') ∧
    IgnoreClientConcurrency (impl jcr') = true ∧
    IgnoreStorageConcurrency (impl jcr') = true ∧
    rjs_NumConcurrentJobs idle_director 4%nat < 1 ∧
    rjs_NumConcurrentJobs d' 4%nat = 1.
Proof.
  split; [reflexivity|].
  destruct (job_concurrency_always_enforced migrate_control_jcr
              idle_director _ eq_refl) as (_ & _ & H).
  eexists _, _. split; [reflexivity|]. split; [reflexivity|].
  split; [reflexivity|]. exact (H _ _ eq_refl).
Defined.

(** * Properties of the queue *)

(** Evaluate a run on a closed input. *)
Ltac evaluate t :=
  let r := fresh "r" in
  let E := fresh "E" in
  remember t as r eqn:E; vm_compute in E; subst r.

(** ** Submission *)

(** C3 (what the code does). Job 1 of priority 10 waits and job 2 of
    priority 5 is submitted, its start time reached. The call returns 0,
    the waiting list then holds job 1 twice and job 2 is on no list:
    what [jobq.cc:283] inserts before the entry found is that entry,
    not the submitted record. *)
Theorem JobqAdd_inserts_the_entry_found :
  ∃ w',
    JobqAdd sample_os 2%nat one_waiting = Ok (0, w') ∧
    waiting_jobs (jq w') = [1%nat; 1%nat] ∧
    ready_jobs (jq w') = [] ∧ running_jobs (jq w') = [].
Proof.
  evaluate (JobqAdd sample_os 2%nat one_waiting).
  eexists. repeat split; reflexivity.
Qed.

(** ** Removal *)

(** C7 (what the code does). Job 1 waits and is to be removed. Whatever
    the unassigned local [item] holds, the call returns 0 after removing
    [item], not job 1, from the waiting list and pushing [item] on the
    ready list. With a null [item] job 1 stays on the waiting list and
    the ready list receives a null pointer. *)
Theorem JobqRemove_moves_the_unassigned_item :
  (∀ item : ptr,
     ∃ w',
       JobqRemove sample_os item 1%nat one_waiting = Ok (0, w') ∧
       waiting_jobs (jq w') = list_remove item [1%nat] ∧
       ready_jobs (jq w') = [item]) ∧
  list_remove nullptr [1%nat] = [1%nat].
Proof.
  split; [|reflexivity]. intros item.
  evaluate (JobqRemove sample_os item 1%nat one_waiting).
  eexists. repeat split; reflexivity.
Qed.

(** The part of the contract that holds: a record that is not on the
    waiting list is reported with [EINVAL] and nothing changes. *)
Lemma JobqRemove_not_waiting (os : OS) (item jcr : ptr) (w : World) :
  valid (jq w) = true → jcr ∉ waiting_jobs (jq w) →
  JobqRemove os item jcr w = Ok (EINVAL, w).
Proof.
  intros Hv Hn. unfold JobqRemove.
  erewrite bind_Ok by reflexivity. cbv beta. rewrite Hv. cbn [negb].
  by rewrite bool_decide_eq_false_2.
Qed.

(** In general: the record found on the waiting list stays there unless
    [item] happens to be its address. *)
Lemma JobqRemove_keeps_jcr (os : OS) (item jcr : ptr) (w : World) :
  valid (jq w) = true → jcr ∈ waiting_jobs (jq w) → item ≠ jcr →
  ∃ st w',
    JobqRemove os item jcr w = Ok (st, w') ∧
    jcr ∈ waiting_jobs (jq w') ∧ head (ready_jobs (jq w')) = Some item.
Proof.
  intros Hv Hin Hne. unfold JobqRemove, StartServer.
  erewrite bind_Ok by reflexivity. cbv beta. rewrite Hv. cbn [negb].
  rewrite bool_decide_eq_true_2 by done. cbn [negb].
  assert (Hk : jcr ∈ list_remove item (waiting_jobs (jq w))).
  { unfold list_remove. apply list_elem_of_filter. split; [done|done]. }
  unfold modify_jq, modify, gets, in_dir, do_call, log.
  cbv [mbind M_bind mret M_ret ret modify].
  cbn [jq set_jq num_workers max_workers set_ready_jobs set_waiting_jobs].
  destruct (num_workers (jq w) <? max_workers (jq w));
    [destruct (os_pthread_create os =? 0)|]; cbn [negb];
    eexists _, _; (split; [reflexivity|]); cbn; auto.
Qed.

(** ** Promotion *)

(** C2 (what the code does). Job 1 of priority 10 runs and allows mixed
    priorities; jobs 2 (priority 5) and 3 (priority 20) wait. The walk
    over the running jobs compares its iterator with the end of the
    waiting list, steps past the only running job and ends the pass in
    an access through the word it reads there, which points to no
    record: job 2 is not promoted and job 3 is not marked. When job 1
    does not allow mixed priorities the pass ends: job 2 is marked
    [JS_WaitPriority] and nothing moves. *)
Theorem promote_waiting_overruns_running_list :
  promote_waiting (one_running true) = Fault InvalidPointer ∧
  ∃ w',
    promote_waiting (one_running false) = Ok (tt, w') ∧
    waiting_jobs (jq w') = [2%nat; 3%nat] ∧ ready_jobs (jq w') = [] ∧
    JobStatus <$> heap w' !! 2%nat = Some JS_WaitPriority ∧
    JobStatus <$> heap w' !! 3%nat = Some JS_Unset.
Proof.
  split.
  - evaluate (promote_waiting (one_running true)). reflexivity.
  - evaluate (promote_waiting (one_running false)).
    eexists. repeat split; reflexivity.
Qed.

(** The walk over the running jobs never reports that every running job
    allows mixed priorities: its iterator belongs to another list than
    the end it is compared with, so the walk ends at a job that does not
    allow them, or in a fault. *)
Lemma running_walk_never_true (wend re : iterator) (rest : list ptr)
    (w w' : World) :
  it_list re ≠ it_list wend →
  running_walk wend re rest w ≠ Ok (true, w').
Proof.
  revert re w. induction rest as [|r rest IH]; intros re w Hl;
    cbn [running_walk]; (rewrite decide_True by (by intros ->)).
  - discriminate.
  - unfold mbind, M_bind. destruct (load r w) as [[v w1]|]; [|discriminate].
    destruct (job (res (impl v))) as [j|]; [|discriminate]. cbn.
    destruct (allow_mixed_priority j); cbn [negb]; [|discriminate].
    by apply IH.
Qed.

(** In general: when every running job allows mixed priorities, the
    promotion pass of a queue with waiting jobs ends in a fault. *)
Lemma promote_waiting_faults (w : World) :
  waiting_jobs (jq w) ≠ [] → quit (jq w) = false →
  hd nullptr (running_jobs (jq w)) ≠ nullptr →
  (∀ r, r ∈ running_jobs (jq w) →
        ∃ v j, load r w = Ok (v, w) ∧ job (res (impl v)) = Some j ∧
               allow_mixed_priority j = true) →
  ∃ f, promote_waiting w = Fault f.
Proof.
  intros Hwait Hq Hhd Hall. unfold promote_waiting.
  erewrite bind_Ok by reflexivity. cbv beta zeta.
  rewrite bool_decide_eq_false_2, Hq by done. cbn [negb andb].
  assert (Hstar : star (jq w) (begin_ Running) = hd nullptr (running_jobs (jq w)))
    by (unfold star; cbn; by destruct (running_jobs (jq w))).
  rewrite Hstar, decide_True by done.
  destruct (running_jobs (jq w)) as [|r0 rest] eqn:Hrun; [done|].
  destruct (Hall r0) as (v0 & j0 & E0 & _); [by left|].
  cbn [hd]. erewrite bind_Ok by exact E0. cbv beta.
  assert (Hwalk : ∀ rest' re,
    it_list re = Running →
    (∀ r, r ∈ rest' → ∃ v j, load r w = Ok (v, w) ∧
            job (res (impl v)) = Some j ∧ allow_mixed_priority j = true) →
    ∃ f, running_walk (end_ Waiting (jq w)) re rest' w = Fault f).
  { induction rest' as [|r rest' IH]; intros re Hre Hr; cbn [running_walk];
      (rewrite decide_True by (intros ->; discriminate)).
    - by eexists.
    - destruct (Hr r) as (v & j & E & Hj & Hm); [by left|].
      erewrite bind_Ok by exact E. cbv beta. rewrite Hj.
      erewrite bind_Ok by reflexivity. cbv beta. rewrite Hm. cbn [negb].
      apply IH; [done|]. intros r' Hr'. apply Hr. by right. }
  destruct (Hwalk (r0 :: rest) (begin_ Running) eq_refl Hall) as [f Hf].
  exists f. by erewrite bind_Fault.
Qed.

(** ** The iteration bound of the promotion pass is never reached *)

Lemma fuel_ret {S A} (a : A) : fuel_enough (mret a : M S A).
Proof. by intros s. Qed.

Lemma fuel_raise {S A} (f : fault) :
  f ≠ OutOfFuel → fuel_enough (raise f : M S A).
Proof. intros Hf s. unfold raise. congruence. Qed.

Lemma fuel_gets {S A} (f : S → A) : fuel_enough (gets f).
Proof. by intros s. Qed.

Lemma fuel_modify {S} (f : S → S) : fuel_enough (modify f).
Proof. by intros s. Qed.

Lemma fuel_bind {S A B} (m : M S A) (k : A → M S B) :
  fuel_enough m → (∀ a, fuel_enough (k a)) → fuel_enough (m ≫= k).
Proof.
  intros Hm Hk s. unfold mbind, M_bind.
  destruct (m s) as [[a s']|f] eqn:E; [apply Hk|].
  intros [= ->]. by apply (Hm s).
Qed.

Lemma fuel_in_dir {A} (m : M Director A) :
  fuel_enough m → fuel_enough (in_dir m).
Proof.
  intros Hm w. unfold in_dir.
  destruct (m (dir w)) as [[a d']|f] eqn:E; [done|].
  intros [= ->]. by apply (Hm (dir w)).
Qed.

(** Code without a loop: follow its syntax. *)
Ltac fuel :=
  repeat first
    [ apply fuel_ret
    | apply fuel_gets
    | apply fuel_modify
    | apply fuel_raise; discriminate
    | apply fuel_in_dir
    | apply fuel_bind; [|intros ?]
    | match goal with
      | |- fuel_enough (let '(_, _) := ?x in _) => destruct x
      | |- fuel_enough (if ?b then _ else _) => destruct b
      | |- fuel_enough (match ?o with _ => _ end) => destruct o
      end
    | progress unfold ret, log, deref, load, store, update, modify_jq,
        do_call, correct_Priority, AcquireResources_at, AcquireResources,
        IncReadStore, IncWriteStore, IncClientConcurrency, IncJobConcurrency,
        DecReadStore, DecWriteStore, DecClientConcurrency,
        DecJobConcurrency ].

Lemma waiting_walk_fuel (fuel : nat) (Priority : Z) (running_allow_mix : bool)
    (rest : list ptr) :
  (length rest ≤ fuel)%nat →
  fuel_enough (waiting_walk fuel Priority running_allow_mix rest).
Proof.
  revert rest. induction fuel as [|fuel IH]; intros [|je rest] Hl;
    cbn [waiting_walk]; try (by fuel); cbn [length] in Hl; [lia|].
  destruct (decide (je = nullptr)); [by fuel|].
  apply fuel_bind; [by fuel|intros jcr].
  apply fuel_bind; [by fuel|intros take].
  destruct (negb take); [by fuel|].
  apply fuel_bind; [by fuel|intros acquired].
  apply fuel_bind; [by fuel|intros jcr'].
  destruct (negb acquired && negb (JobCanceled jcr')).
  - apply IH. lia.
  - apply fuel_bind; [by fuel|intros _].
    apply fuel_bind; [by fuel|intros _].
    destruct (bool_decide (head rest = Some je)); [by fuel|].
    apply IH. pose proof (length_filter (λ x, x ≠ je) rest).
    unfold list_remove. lia.
Qed.

Lemma running_walk_fuel (wend re : iterator) (rest : list ptr) :
  fuel_enough (running_walk wend re rest).
Proof.
  revert re. induction rest as [|r rest IH]; intros re; cbn [running_walk];
    (destruct (decide (re ≠ wend)); [|by fuel]); [by fuel|].
  apply fuel_bind; [by fuel|intros v].
  apply fuel_bind; [by fuel|intros j].
  destruct (negb (allow_mixed_priority j)); [by fuel|]. apply IH.
Qed.

(** The promotion pass never ends for want of fuel: its faults are
    faults of the code. *)
Lemma promote_waiting_fuel : fuel_enough promote_waiting.
Proof.
  unfold promote_waiting. apply fuel_bind; [by fuel|intros q].
  destruct (negb (bool_decide (waiting_jobs q = [])) && negb (quit q));
    [|by fuel].
  cbv zeta. destruct (decide (star q (begin_ Running) ≠ nullptr)).
  - apply fuel_bind; [by fuel|intros r].
    apply fuel_bind; [apply running_walk_fuel|intros mix].
    apply waiting_walk_fuel. cbn. done.
  - apply fuel_bind; [by fuel|intros v].
    apply waiting_walk_fuel. cbn. done.
Qed.

(** ** Running code on the heap *)

Lemma load_ok (p : ptr) (v : JCR) (w : World) :
  p ≠ nullptr → heap w !! p = Some v → load p w = Ok (v, w).
Proof.
  intros Hp Hv. unfold load. rewrite decide_False by done.
  erewrite bind_Ok by reflexivity. cbv beta. by rewrite Hv.
Qed.

Lemma update_ok (p : ptr) (f : JCR → JCR) (v : JCR) (w : World) :
  p ≠ nullptr → heap w !! p = Some v →
  update p f w = Ok (tt, set_heap (<[p := f v]> (heap w)) w).
Proof.
  intros Hp Hv. unfold update.
  erewrite bind_Ok by (by apply load_ok). reflexivity.
Qed.

Lemma first_greater_ok (prio : Z) (l : list ptr) (w : World) :
  (∀ p, p ∈ l → p ≠ nullptr ∧ is_Some (heap w !! p)) →
  ∃ found, first_greater prio l w = Ok (found, w).
Proof.
  induction l as [|li l IH]; intros Hl; [by eexists|].
  destruct (Hl li) as [Hn [v Hv]]; [by left|].
  cbn [first_greater]. erewrite bind_Ok by (by apply load_ok). cbv beta.
  destruct (JobPriority v >? prio); [by eexists|].
  apply IH. intros p Hp. apply Hl. by right.
Qed.

Lemma StartServer_ok (os : OS) (w : World) :
  ∃ st w', StartServer os w = Ok (st, w') ∧ heap w' = heap w.
Proof.
  unfold StartServer. erewrite bind_Ok by reflexivity. cbv beta.
  destruct (num_workers (jq w) <? max_workers (jq w)); [|by eexists _, _].
  destruct (os_pthread_create os =? 0); cbn [negb];
    eexists _, _; split; reflexivity.
Qed.

Lemma first_greater_entry (prio : Z) (l : list ptr) (w : World) :
  (∀ p, p ∈ l → p ≠ nullptr ∧ is_Some (heap w !! p)) →
  first_greater prio l w = Ok (greater_entry (heap w) prio l, w).
Proof.
  induction l as [|li l IH]; intros Hl; [done|].
  destruct (Hl li) as [Hn [v Hv]]; [by left|].
  cbn [first_greater greater_entry].
  erewrite bind_Ok by (by apply load_ok). cbv beta. rewrite Hv.
  destruct (JobPriority v >? prio); [done|].
  apply IH. intros p Hp. apply Hl. by right.
Qed.

Lemma greater_entry_insert (h : gmap ptr JCR) (p : ptr) (v v' : JCR)
    (prio : Z) (l : list ptr) :
  h !! p = Some v → JobPriority v' = JobPriority v →
  greater_entry (<[p := v']> h) prio l = greater_entry h prio l.
Proof.
  intros Hv Hp. induction l as [|li l IH]; [done|].
  cbn [greater_entry]. destruct (decide (p = li)) as [->|Hne].
  - rewrite lookup_insert_eq, Hv, Hp. by destruct (_ >? _).
  - rewrite lookup_insert_ne by done.
    destruct (h !! li) as [u|]; [|done]. by destruct (_ >? _).
Qed.

Lemma StartServer_lists (os : OS) (w : World) :
  ∃ st w',
    StartServer os w = Ok (st, w') ∧
    waiting_jobs (jq w') = waiting_jobs (jq w) ∧
    ready_jobs (jq w') = ready_jobs (jq w) ∧
    running_jobs (jq w') = running_jobs (jq w).
Proof.
  unfold StartServer. erewrite bind_Ok by reflexivity. cbv beta.
  destruct (num_workers (jq w) <? max_workers (jq w)); [|by eexists _, _].
  destruct (os_pthread_create os =? 0); cbn [negb];
    eexists _, _; split; reflexivity || (repeat split; reflexivity).
Qed.

(** What [JobqAdd] does with a record it accepts for the lists: a
    canceled record goes to the front of the ready list; another one is
    appended to the waiting list when no entry has a strictly greater
    priority value; and when an entry has one, that entry is inserted
    once more before its first occurrence, and the record is not
    inserted. *)
Lemma JobqAdd_accepted (os : OS) (jcr : ptr) (v : JCR) (w : World) :
  jcr ≠ nullptr → heap w !! jcr = Some v → waiting_valid w →
  valid (jq w) = true →
  term_wait_inited (impl v) = true ∨ os_pthread_cond_init os = 0 →
  os_malloc_ok os = true →
  JobCanceled v = true ∨ sched_time v - os_time os ≤ 0 →
  ∃ st w',
    JobqAdd os jcr w = Ok (st, w') ∧
    running_jobs (jq w') = running_jobs (jq w) ∧
    if JobCanceled v then
      ready_jobs (jq w') = jcr :: ready_jobs (jq w) ∧
      waiting_jobs (jq w') = waiting_jobs (jq w)
    else
      ready_jobs (jq w') = ready_jobs (jq w) ∧
      waiting_jobs (jq w') =
        match greater_entry (heap w) (JobPriority v) (waiting_jobs (jq w))
        with
        | Some li =>
          list_insert_at (std_find li (waiting_jobs (jq w))) li
            (waiting_jobs (jq w))
        | None => waiting_jobs (jq w) ++ [jcr]
        end.
Proof.
  intros Hp Hv Hw Hval Hinit Hmalloc Hdue. unfold JobqAdd.
  erewrite bind_Ok by (by apply load_ok). cbv beta zeta.
  replace (negb (term_wait_inited (impl v))
           && negb (os_pthread_cond_init os =? 0)) with false.
  2: { destruct Hinit as [->| ->]; [done|]. by rewrite andb_false_r. }
  erewrite bind_Ok by (by apply update_ok). cbv beta.
  erewrite bind_Ok by reflexivity. cbv beta.
  set (v1 := with_impl (set_term_wait_inited true) v).
  set (w1 := set_heap _ w).
  assert (Hv1 : heap w1 !! jcr = Some v1) by apply lookup_insert_eq.
  change (valid (jq w1)) with (valid (jq w)). rewrite Hval. cbn [negb].
  erewrite bind_Ok by (by apply update_ok). cbv beta.
  set (v2 := set_use_count _ v1). set (w2 := set_heap _ w1).
  replace (negb (JobCanceled v) && (sched_time v - os_time os >? 0))
    with false.
  2: { destruct Hdue as [->|Hd]; [done|].
       symmetry. apply andb_false_iff. right.
       rewrite Z.gtb_ltb. apply Z.ltb_ge. lia. }
  rewrite Hmalloc. cbn [negb]. cbv zeta.
  destruct (JobCanceled v).
  - erewrite bind_Ok by reflexivity.
    match goal with |- context [StartServer os ?w] =>
      destruct (StartServer_lists os w) as (st & w' & E & Hwt & Hrd & Hrn) end.
    exists st, w'. split; [exact E|]. rewrite Hwt, Hrd, Hrn. done.
  - assert (Hw2 : ∀ p, p ∈ waiting_jobs (jq w1) →
                       p ≠ nullptr ∧ is_Some (heap w2 !! p)).
    { intros p Hin. destruct (Hw p Hin) as [Hn Hs]. split; [done|].
      unfold w2, w1. cbn [heap set_heap].
      rewrite !lookup_insert_is_Some. destruct (decide (jcr = p)); auto. }
    rewrite bind_assoc.
    erewrite bind_Ok by (by apply first_greater_entry). cbv beta.
    assert (Hg : greater_entry (heap w2) (JobPriority v)
                   (waiting_jobs (jq w1))
                 = greater_entry (heap w) (JobPriority v)
                     (waiting_jobs (jq w))).
    { unfold w2, w1. cbn [heap set_heap jq].
      rewrite (greater_entry_insert _ jcr v1 v2) by
        (apply lookup_insert_eq || done).
      by rewrite (greater_entry_insert _ jcr v v1). }
    rewrite Hg.
    destruct (greater_entry (heap w) (JobPriority v) (waiting_jobs (jq w)))
      as [li|]; erewrite bind_Ok by reflexivity;
      match goal with |- context [StartServer os ?w] =>
        destruct (StartServer_lists os w)
          as (st & w' & E & Hwt & Hrd & Hrn) end;
      exists st, w'; (split; [exact E|]); rewrite Hwt, Hrd, Hrn; done.
Qed.

(** ** The reschedule engine *)


Lemma World_eq (a b : World) :
  heap a = heap b → jq a = jq b → dir a = dir b → calls a = calls b →
  a = b.
Proof. destruct a, b. cbn. by intros -> -> -> ->. Qed.

Lemma update_exact (p : ptr) (f : JCR → JCR) (v : JCR) (w : World) :
  p ≠ nullptr → heap w !! p = Some v →
  ∃ w',
    update p f w = Ok (tt, w') ∧ heap w' = <[p := f v]> (heap w) ∧
    jq w' = jq w ∧ dir w' = dir w ∧ calls w' = calls w.
Proof. intros Hp Hv. eexists. split; [by apply update_ok|]. done. Qed.

Lemma call_exact (c : call) (w : World) :
  ∃ w',
    do_call c w = Ok (tt, w') ∧ heap w' = heap w ∧
    jq w' = jq w ∧ dir w' = dir w ∧ calls w' = calls w ++ [c].
Proof. eexists. split; [reflexivity|]. done. Qed.

Lemma log_exact (m : msg) (w : World) :
  ∃ w',
    in_dir (log m) w = Ok (tt, w') ∧ heap w' = heap w ∧
    jq w' = jq w ∧ dir w' = add_msg m (dir w) ∧ calls w' = calls w.
Proof. eexists. split; [reflexivity|]. done. Qed.

(** Run the next statement of the goal with a step lemma, and name the
    state it leaves. *)
Ltac step_with lem w' :=
  let E := fresh "E" in
  destruct lem as (w' & E & ?);
  erewrite bind_Ok by exact E; cbv beta; clear E.

(** What [RescheduleJob] does, case by case. *)
Lemma RescheduleJob_run (os os_add : OS) (AllowDuplicateJob : bool)
    (njcr : ptr) (defaults : JCR) (jcr je : ptr) (w : World)
    (v : JCR) (j : JobResource) :
  jcr ≠ nullptr → heap w !! jcr = Some v → job (res (impl v)) = Some j →
  let run := RescheduleJob os os_add AllowDuplicateJob njcr defaults jcr je w
  in
  if resched v j then
    if AllowDuplicateJob then
      if JobBytes v =? 0 then
        match JobqAdd os_add jcr (resubmitted_state os j jcr v w) with
        | Ok (st, w2) => run = Ok (true, released_state jcr je w2)
        | Fault f => run = Fault f
        end
      else run = Ok (false, cloned_state os j njcr defaults jcr v w)
    else run = Ok (false, rescheduled_state os j jcr v w)
  else run = Ok (false, w).
Proof.
  intros Hp Hv Hj run. subst run. unfold RescheduleJob.
  erewrite bind_Ok by (by apply load_ok). cbv beta.
  rewrite Hj. erewrite bind_Ok by reflexivity. cbv beta zeta.
  destruct (resched v j); [|reflexivity].
  step_with (update_exact jcr
    (with_impl (set_reschedule_count (reschedule_count (impl v) + 1)))
    v w Hp Hv) w1.
  destruct H as (Hh1 & Hq1 & Hd1 & Hc1).
  step_with (update_exact jcr
    (set_sched_time (os_time os + RescheduleInterval j)) _ w1 Hp
    ltac:(rewrite Hh1; apply lookup_insert_eq)) w2.
  destruct H as (Hh2 & Hq2 & Hd2 & Hc2).
  rewrite Hh1, insert_insert_eq in Hh2. rewrite Hq1 in Hq2.
  rewrite Hd1 in Hd2. rewrite Hc1 in Hc2. clear w1 Hh1 Hq1 Hd1 Hc1.
  step_with (log_exact (Jmsg M_INFO (Rescheduled_Job (JobId v) (os_time os)
    (to_int (RescheduleInterval j)) (os_time os + RescheduleInterval j)))
    w2) w3.
  destruct H as (Hh3 & Hq3 & Hd3 & Hc3).
  rewrite Hh2 in Hh3. rewrite Hq2 in Hq3. rewrite Hd2 in Hd3.
  rewrite Hc2 in Hc3. clear w2 Hh2 Hq2 Hd2 Hc2.
  step_with (call_exact (DirdFreeJcrPointers jcr) w3) w4.
  destruct H as (Hh4 & Hq4 & Hd4 & Hc4).
  rewrite Hh3 in Hh4. rewrite Hq3 in Hq4. rewrite Hd3 in Hd4.
  rewrite Hc3 in Hc4. clear w3 Hh3 Hq3 Hd3 Hc3.
  step_with (update_exact jcr (set_JobStatus JS_Unset) _ w4 Hp
    ltac:(rewrite Hh4; apply lookup_insert_eq)) w5.
  destruct H as (Hh5 & Hq5 & Hd5 & Hc5).
  rewrite Hh4, insert_insert_eq in Hh5. rewrite Hq4 in Hq5.
  rewrite Hd4 in Hd5. rewrite Hc4 in Hc5. clear w4 Hh4 Hq4 Hd4 Hc4.
  step_with (update_exact jcr (with_impl (set_SDJobStatus 0)) _ w5 Hp
    ltac:(rewrite Hh5; apply lookup_insert_eq)) w6.
  destruct H as (Hh6 & Hq6 & Hd6 & Hc6).
  rewrite Hh5, insert_insert_eq in Hh6. rewrite Hq5 in Hq6.
  rewrite Hd5 in Hd6. rewrite Hc5 in Hc6. clear w5 Hh5 Hq5 Hd5 Hc5.
  step_with (update_exact jcr (set_JobErrors 0) _ w6 Hp
    ltac:(rewrite Hh6; apply lookup_insert_eq)) w7.
  destruct H as (Hh7 & Hq7 & Hd7 & Hc7).
  rewrite Hh6, insert_insert_eq in Hh7. rewrite Hq6 in Hq7.
  rewrite Hd6 in Hd7. rewrite Hc6 in Hc7. clear w6 Hh6 Hq6 Hd6 Hc6.
  fold (rescheduled_record os j v) in Hh7.
  assert (E7 : w7 = rescheduled_state os j jcr v w)
    by (by apply World_eq).
  clear Hh7 Hq7 Hd7 Hc7. subst w7.
  set (v5 := rescheduled_record os j v).
  assert (Hv5 : heap (rescheduled_state os j jcr v w) !! jcr = Some v5)
    by apply lookup_insert_eq.
  destruct AllowDuplicateJob; cbn [negb]; [|reflexivity].
  destruct (JobBytes v =? 0).
  - step_with (call_exact (UpdateJobEnd jcr JS_WaitStartTime)
                 (rescheduled_state os j jcr v w)) w8.
    destruct H as (Hh8 & Hq8 & Hd8 & Hc8).
    step_with (update_exact jcr (with_impl (set_jr_RealEndTime 0)) v5 w8 Hp
      ltac:(by rewrite Hh8)) w9.
    destruct H as (Hh9 & Hq9 & Hd9 & Hc9).
    assert (E9 : w9 = resubmitted_state os j jcr v w).
    { apply World_eq.
      - rewrite Hh9, Hh8. cbn [heap rescheduled_state resubmitted_state].
        by rewrite insert_insert_eq.
      - by rewrite Hq9, Hq8.
      - by rewrite Hd9, Hd8.
      - rewrite Hc9, Hc8. cbn [calls rescheduled_state resubmitted_state].
        by rewrite <- app_assoc. }
    clear Hh9 Hq9 Hd9 Hc9 Hh8 Hq8 Hd8 Hc8. subst w9.
    destruct (JobqAdd os_add jcr (resubmitted_state os j jcr v w))
      as [[st w2]|f] eqn:Ea; [|by erewrite bind_Fault by exact Ea].
    erewrite bind_Ok by exact Ea. cbv beta.
    erewrite bind_Ok by reflexivity. cbv beta.
    unfold free_record. rewrite bind_assoc.
    erewrite bind_Ok by reflexivity. cbv beta.
    erewrite bind_Ok by reflexivity. cbv beta.
    unfold ret, mret, M_ret. f_equal. f_equal.
    apply World_eq; cbn; try reflexivity.
    by rewrite <- app_assoc.
  - step_with (update_exact jcr (setJobStatus JS_WaitStartTime) v5
                 (rescheduled_state os j jcr v w) Hp Hv5) w8.
    destruct H as (Hh8 & Hq8 & Hd8 & Hc8).
    step_with (call_exact (NewDirectorJcr njcr) w8) w9.
    destruct H as (Hh9 & Hq9 & Hd9 & Hc9).
    step_with (call_exact (SetJcrDefaults njcr) w9) w10.
    destruct H as (Hh10 & Hq10 & Hd10 & Hc10).
    set (v6 := setJobStatus JS_WaitStartTime v5) in *.
    assert (Hv6 : heap w10 !! jcr = Some v6).
    { rewrite Hh10, Hh9, Hh8. apply lookup_insert_eq. }
    erewrite bind_Ok by (by apply load_ok). cbv beta.
    erewrite bind_Ok by reflexivity. cbv beta.
    assert (Hres : res (impl v6) = res (impl v)).
    { unfold v6, v5, rescheduled_record, setJobStatus. clear.
      by destruct v. }
    rewrite Hres.
    unfold ret, mret, M_ret, cloned_state.
    destruct (read_storage (res (impl v))),
      (write_storage (res (impl v)));
      do 4 (erewrite bind_Ok by reflexivity; cbv beta);
      f_equal; f_equal; apply World_eq;
      cbn [heap jq dir calls set_heap set_calls cloned_state];
      rewrite ?Hh10, ?Hh9, ?Hh8, ?Hq10, ?Hq9, ?Hq8, ?Hd10, ?Hd9, ?Hd8,
        ?Hc10, ?Hc9, ?Hc8;
      cbn [heap jq dir calls rescheduled_state];
      rewrite ?insert_insert_eq, <- ?app_assoc; reflexivity.
Qed.
(** ** The decision to reschedule *)









(** * Further properties of the counters and of admission *)

Lemma applies_locks p b jcr :
  applies p (with_impl (set_acquired_resource_locks b) jcr) = applies p jcr.
Proof. by destruct p. Qed.

Lemma unit_at_locks p b jcr c n :
  unit_at p (with_impl (set_acquired_resource_locks b) jcr) c n
  = unit_at p jcr c n.
Proof. unfold unit_at. by rewrite applies_locks. Qed.

(** The record and the state a successful admission leaves: the record
    after the job type exclusions with its locks flag set, and each
    permit class found available in the state the classes before it
    left. *)
Lemma AcquireResources_success (jcr jcr' : JCR) (d d' : Director)
    (j : JobResource) :
  job (res (impl jcr)) = Some j →
  AcquireResources jcr d = Ok (true, jcr', d') →
  let jcr1 := job_type_exclusions
                (with_impl (set_acquired_resource_locks false) jcr) in
  jcr' = with_impl (set_acquired_resource_locks true) jcr1 ∧
  ∃ d1 d2 d3,
    available Rstore jcr1 d = true ∧
    shifted d d1 (unit_at Rstore jcr1) ∧
    available Wstore jcr1 d1 = true ∧
    shifted d1 d2 (unit_at Wstore jcr1) ∧
    available Client jcr1 d2 = true ∧
    shifted d2 d3 (unit_at Client jcr1) ∧
    available Job jcr1 d3 = true ∧
    shifted d3 d' (unit_at Job jcr1).
Proof.
  intros Hj. admission_attempt jcr d Hj. intros E. cbv zeta.
  destruct (available Rstore jcr1 d) eqn:A1;
    [|erewrite bind_Ok in E by eassumption; discriminate].
  destruct (available Wstore jcr1 d1) eqn:A2;
    [|repeat (erewrite bind_Ok in E by eassumption; cbn [negb] in E;
              cbv beta iota in E); discriminate].
  destruct (available Client jcr1 d2) eqn:A3;
    [|repeat (erewrite bind_Ok in E by eassumption; cbn [negb] in E;
              cbv beta iota in E); discriminate].
  destruct (available Job jcr1 d3) eqn:A4;
    [|repeat (erewrite bind_Ok in E by eassumption; cbn [negb] in E;
              cbv beta iota in E); discriminate].
  repeat (erewrite bind_Ok in E by eassumption; cbn [negb] in E;
          cbv beta iota in E).
  injection E as <- <-. split; [reflexivity|].
  exists d1, d2, d3. repeat split; assumption.
Qed.

(** The record an admission attempt leaves: the record after the job
    type exclusions, with its locks flag set on success and with a wait
    status on failure. *)
Lemma AcquireResources_shape (jcr jcr' : JCR) (d d' : Director) (ok : bool) :
  AcquireResources jcr d = Ok (ok, jcr', d') →
  let jcr1 := job_type_exclusions
                (with_impl (set_acquired_resource_locks false) jcr) in
  if ok then jcr' = with_impl (set_acquired_resource_locks true) jcr1
  else ∃ s, jcr' = setJobStatus s jcr1.
Proof.
  rewrite AcquireResources_unfold. cbv zeta.
  set (jcr1 := job_type_exclusions _). unfold mbind, M_bind.
  destruct (guarded_inc Rstore jcr1 d) as [[[] d1]|]; cbn [negb];
    [|intros [= <- <- <-]; eauto|discriminate].
  destruct (guarded_inc Wstore jcr1 d1) as [[[] d2]|]; cbn [negb];
    [| |discriminate].
  2: { destruct (dec Rstore jcr1 d2) as [[[] r1]|]; [|discriminate].
       intros [= <- <- <-]; eauto. }
  destruct (guarded_inc Client jcr1 d2) as [[[] d3]|]; cbn [negb];
    [| |discriminate].
  2: { destruct (dec Wstore jcr1 d3) as [[[] r1]|]; [|discriminate].
       destruct (dec Rstore jcr1 r1) as [[[] r2]|]; [|discriminate].
       intros [= <- <- <-]; eauto. }
  destruct (guarded_inc Job jcr1 d3) as [[[] d4]|]; cbn [negb];
    [| |discriminate].
  2: { destruct (dec Wstore jcr1 d4) as [[[] r1]|]; [|discriminate].
       destruct (dec Rstore jcr1 r1) as [[[] r2]|]; [|discriminate].
       destruct (dec Client jcr1 r2) as [[[] r3]|]; [|discriminate].
       intros [= <- <- <-]; eauto. }
  by intros [= <- <- <-].
Qed.

(** What an admission attempt leaves of the record. *)
Lemma AcquireResources_keeps (jcr jcr' : JCR) (d d' : Director) (ok : bool) :
  AcquireResources jcr d = Ok (ok, jcr', d') →
  res (impl jcr') = res (impl jcr) ∧
  JobPriority jcr' = JobPriority jcr ∧
  JobCanceled jcr' = JobCanceled jcr ∧
  acquired_resource_locks (impl jcr') = ok.
Proof.
  intros E. apply AcquireResources_shape in E. cbv zeta in E.
  assert (H1 : ∀ x, JobPriority (job_type_exclusions x) = JobPriority x).
  { intros x. unfold job_type_exclusions.
    destruct (JobType x); try done; cbn;
      by destruct (MigrateJobId (impl x) =? 0). }
  assert (H2 : ∀ x, JobCanceled (job_type_exclusions x) = JobCanceled x).
  { intros x. unfold job_type_exclusions.
    destruct (JobType x); try done; cbn;
      by destruct (MigrateJobId (impl x) =? 0). }
  destruct ok.
  - subst jcr'. cbn. rewrite job_type_exclusions_res, H1, H2. done.
  - destruct E as [s ->]. cbn.
    rewrite job_type_exclusions_res, job_type_exclusions_locks, H1, H2.
    done.
Qed.

(** Admission of a record with a job definition comes to its end; a
    failed attempt leaves every counter as it was. *)
Lemma AcquireResources_outcome (jcr : JCR) (d : Director) (j : JobResource) :
  job (res (impl jcr)) = Some j →
  ∃ ok jcr' d',
    AcquireResources jcr d = Ok (ok, jcr', d') ∧
    (ok = false → same_counters d d').
Proof.
  intros Hj. admission_attempt jcr d Hj.
  destruct (available Rstore jcr1 d) eqn:A1.
  2: { eexists false, _, d1. split; [steps|]. intros _. shifts. }
  destruct (available Wstore jcr1 d1) eqn:A2.
  2: { eexists false, _, r1. split; [steps|]. intros _. shifts. }
  destruct (available Client jcr1 d2) eqn:A3.
  2: { eexists false, _, w2. split; [steps|]. intros _. shifts. }
  destruct (available Job jcr1 d3) eqn:A4.
  2: { eexists false, _, x3. split; [steps|]. intros _. shifts. }
  eexists true, _, d4. split; [steps|]. discriminate.
Qed.

(** X1. Permits are not leaked. When [AcquireResources] has admitted a
    record, the release block of the drain loop run on the admitted
    record ([DecReadStore], [DecWriteStore], [DecClientConcurrency],
    [DecJobConcurrency], [jobq.cc:489-492]) brings every counter of
    every resource back to its value before the admission. *)
Theorem release_after_admission_restores_counters (jcr jcr' : JCR)
    (d d1 : Director) (j : JobResource) :
  job (res (impl jcr)) = Some j →
  AcquireResources jcr d = Ok (true, jcr', d1) →
  ∃ d2,
    (DecReadStore jcr';; DecWriteStore jcr';; DecClientConcurrency jcr';;
     DecJobConcurrency jcr') d1 = Ok (tt, d2) ∧
    same_counters d d2.
Proof.
  intros Hj E.
  destruct (AcquireResources_success jcr jcr' d d1 j Hj E)
    as (-> & a1 & a2 & a3 & _ & S1 & _ & S2 & _ & S3 & _ & S4).
  set (jcr1 := job_type_exclusions _) in *.
  set (jcr2 := with_impl (set_acquired_resource_locks true) jcr1).
  assert (Hj2 : is_Some (job (res (impl jcr2)))).
  { unfold jcr2, jcr1. cbn. rewrite job_type_exclusions_res. cbn.
    by rewrite Hj. }
  destruct (dec_run Rstore jcr2 d1 Hj2) as (r1 & Er1 & Sr1 & _).
  destruct (dec_run Wstore jcr2 r1 Hj2) as (r2 & Er2 & Sr2 & _).
  destruct (dec_run Client jcr2 r2 Hj2) as (r3 & Er3 & Sr3 & _).
  destruct (dec_run Job jcr2 r3 Hj2) as (r4 & Er4 & Sr4 & _).
  exists r4. split.
  - change (DecReadStore jcr2) with (dec Rstore jcr2).
    change (DecWriteStore jcr2) with (dec Wstore jcr2).
    change (DecClientConcurrency jcr2) with (dec Client jcr2).
    change (DecJobConcurrency jcr2) with (dec Job jcr2).
    steps. exact Er4.
  - unfold jcr2 in Sr1, Sr2, Sr3, Sr4.
    unfold shifted in Sr1, Sr2, Sr3, Sr4.
    setoid_rewrite unit_at_locks in Sr1.
    setoid_rewrite unit_at_locks in Sr2.
    setoid_rewrite unit_at_locks in Sr3.
    setoid_rewrite unit_at_locks in Sr4.
    shifts.
Qed.

Lemma release_after_admission_restores_counters_witness :
  ∃ jcr' d1 d2,
    AcquireResources backup_jcr idle_director = Ok (true, jcr', d1) ∧
    (DecReadStore jcr';; DecWriteStore jcr';; DecClientConcurrency jcr';;
     DecJobConcurrency jcr') d1 = Ok (tt, d2) ∧
    same_counters idle_director d2.
Proof.
  destruct (AcquireResources backup_jcr idle_director)
    as [[[[] jcr'] d1]|] eqn:E; try (vm_compute in E; discriminate).
  destruct (release_after_admission_restores_counters backup_jcr jcr'
              idle_director d1 _ eq_refl E) as (d2 & E2 & Hs).
  exists jcr', d1, d2. done.
Defined.

Lemma one_storage_object_exclusions jcr :
  one_storage_object jcr →
  one_storage_object
    (job_type_exclusions (with_impl (set_acquired_resource_locks false) jcr)).
Proof.
  unfold one_storage_object. by rewrite job_type_exclusions_res.
Qed.

Lemma one_storage_object_max jcr rn rmax wn wmax :
  one_storage_object jcr →
  applies Rstore jcr = Some (rn, rmax) →
  applies Wstore jcr = Some (wn, wmax) →
  rn = wn → rmax = wmax.
Proof.
  unfold one_storage_object, applies. intros Hone.
  destruct (IgnoreStorageConcurrency (impl jcr)); [done|].
  destruct (read_storage (res (impl jcr))) as [r|]; [|done].
  destruct (write_storage (res (impl jcr))) as [w|]; [|done].
  cbn. intros [= <- <-] [= <- <-]. by apply Hone.
Qed.

(** X2. Admission never takes a counter over its limit. Whatever the
    outcome of [AcquireResources], a counter of the admitted record
    that was at most the [MaxConcurrentJobs] of its resource before the
    call is at most that maximum after it. *)
Theorem AcquireResources_keeps_limits (jcr jcr' : JCR) (d d' : Director)
    (j : JobResource) (ok : bool) :
  job (res (impl jcr)) = Some j →
  one_storage_object jcr →
  AcquireResources jcr d = Ok (ok, jcr', d') →
  within_limits jcr' d → within_limits jcr' d'.
Proof.
  intros Hj Hone E Hlim.
  destruct ok.
  2: { destruct (AcquireResources_outcome jcr d j Hj)
         as (ok & jcr2 & d2 & E2 & Hs).
       rewrite E in E2. injection E2 as <- <- <-.
       specialize (Hs eq_refl).
       intros p name max Happ. rewrite Hs. eauto. }
  apply one_storage_object_exclusions in Hone.
  destruct (AcquireResources_success jcr jcr' d d' j Hj E)
    as (-> & d1 & d2 & d3 & A1 & S1 & A2 & S2 & A3 & S3 & A4 & S4).
  set (jcr1 := job_type_exclusions _) in *. clearbody jcr1.
  clear E Hlim Hj.
  intros p name max. rewrite applies_locks. intros Happ.
  pose proof (λ rn rmax wn wmax,
    one_storage_object_max jcr1 rn rmax wn wmax Hone) as Hmax.
  unfold available in A1, A2, A3, A4.
  unfold shifted, unit_at in S1, S2, S3, S4.
  pose proof (S1 (n_counter p) name) as T1.
  pose proof (S2 (n_counter p) name) as T2.
  pose proof (S3 (n_counter p) name) as T3.
  pose proof (S4 (n_counter p) name) as T4.
  destruct p; rewrite Happ in *; cbn [n_counter] in *.
  - destruct (applies Wstore jcr1) as [[wn wmax]|];
      destruct (applies Client jcr1) as [[cn cmax]|];
      destruct (applies Job jcr1) as [[jn jmax]|];
      try specialize (Hmax _ _ _ _ eq_refl eq_refl);
      try pose proof (S1 CStore wn) as U1;
      unfold unit_of in *; cbn [counts andb] in *;
      repeat case_bool_decide; simplify_eq; lia.
  - destruct (applies Rstore jcr1) as [[rn rmax]|];
      destruct (applies Client jcr1) as [[cn cmax]|];
      destruct (applies Job jcr1) as [[jn jmax]|];
      try specialize (Hmax _ _ _ _ eq_refl eq_refl);
      unfold unit_of in *; cbn [counts andb] in *;
      repeat case_bool_decide; simplify_eq; lia.
  - destruct (applies Rstore jcr1) as [[rn rmax]|];
      destruct (applies Wstore jcr1) as [[wn wmax]|];
      destruct (applies Job jcr1) as [[jn jmax]|];
      unfold unit_of in *; cbn [counts andb] in *;
      repeat case_bool_decide; simplify_eq; lia.
  - destruct (applies Rstore jcr1) as [[rn rmax]|];
      destruct (applies Wstore jcr1) as [[wn wmax]|];
      destruct (applies Client jcr1) as [[cn cmax]|];
      unfold unit_of in *; cbn [counts andb] in *;
      repeat case_bool_decide; simplify_eq; lia.
Qed.

Lemma AcquireResources_keeps_limits_witness :
  ∃ jcr' d',
    AcquireResources one_storage_jcr used_storage_director
      = Ok (false, jcr', d') ∧
    within_limits jcr' d'.
Proof.
  destruct (AcquireResources one_storage_jcr used_storage_director)
    as [[[[] jcr'] d']|] eqn:E; try (vm_compute in E; discriminate).
  exists jcr', d'. split; [reflexivity|].
  apply (AcquireResources_keeps_limits one_storage_jcr jcr'
           used_storage_director d' (sample_job 4%nat 1 false) false).
  - reflexivity.
  - intros r w [= <-] [= <-] _. reflexivity.
  - exact E.
  - vm_compute in E. injection E as <- <-.
    intros p name max Happ.
    destruct p; vm_compute in Happ; simplify_eq; vm_compute; discriminate.
Defined.

(** ** Migration, copy and consolidation jobs *)

Lemma job_type_exclusions_flags jcr :
  JobType jcr = JT_MIGRATE ∨ JobType jcr = JT_COPY
    ∨ JobType jcr = JT_CONSOLIDATE →
  IgnoreClientConcurrency (impl (job_type_exclusions jcr)) = true ∧
  (MigrateJobId (impl jcr) = 0 →
   IgnoreStorageConcurrency (impl (job_type_exclusions jcr)) = true).
Proof.
  unfold job_type_exclusions.
  intros [-> | [-> | ->]]; cbn;
    destruct (Z.eqb_spec (MigrateJobId (impl jcr)) 0); cbn; by split.
Qed.

(** X3. Migration, copy and consolidation jobs are admitted without
    regard to their client: [AcquireResources] sets the record's
    [IgnoreClientConcurrency] and changes no client counter. A control
    job of these types ([MigrateJobId = 0]) is admitted without regard
    to its storages too: the outcome is decided by the counter of the
    job definition alone, and no storage counter changes. *)
Theorem migration_jobs_skip_client_and_storage (jcr : JCR) (d : Director)
    (j : JobResource) :
  JobType jcr = JT_MIGRATE ∨ JobType jcr = JT_COPY
    ∨ JobType jcr = JT_CONSOLIDATE →
  job (res (impl jcr)) = Some j →
  ∃ ok jcr' d',
    AcquireResources jcr d = Ok (ok, jcr', d') ∧
    IgnoreClientConcurrency (impl jcr') = true ∧
    (∀ name, value d' CClient name = value d CClient name) ∧
    (MigrateJobId (impl jcr) = 0 →
       IgnoreStorageConcurrency (impl jcr') = true ∧
       ok = bool_decide (value d CJob (job_resource_name_ j)
                         < job_MaxConcurrentJobs j) ∧
       ∀ name,
         value d' CStore name = value d CStore name ∧
         value d' CStoreRead name = value d CStoreRead name).
Proof.
  intros Ht Hj.
  destruct (AcquireResources_outcome jcr d j Hj)
    as (ok & jcr' & d' & E & Hfail).
  exists ok, jcr', d'. split; [exact E|].
  pose proof (AcquireResources_shape _ _ _ _ _ E) as Hshape.
  cbv zeta in Hshape.
  assert (Hcount :
    if ok then
      shifted d d' (λ c n,
        unit_at Rstore (job_type_exclusions
          (with_impl (set_acquired_resource_locks false) jcr)) c n
        + unit_at Wstore (job_type_exclusions
            (with_impl (set_acquired_resource_locks false) jcr)) c n
        + unit_at Client (job_type_exclusions
            (with_impl (set_acquired_resource_locks false) jcr)) c n
        + unit_at Job (job_type_exclusions
            (with_impl (set_acquired_resource_locks false) jcr)) c n)
    else same_counters d d').
  { destruct ok; [|by apply Hfail].
    destruct (AcquireResources_success jcr jcr' d d' j Hj E)
      as (_ & a1 & a2 & a3 & _ & S1 & _ & S2 & _ & S3 & _ & S4).
    shifts. }
  revert E. admission_attempt jcr d Hj. intros E.
  destruct (job_type_exclusions_flags
              (with_impl (set_acquired_resource_locks false) jcr) Ht)
    as [Hic Hisc].
  fold jcr1 in Hic, Hisc, Hshape, Hcount.
  cbn [MigrateJobId impl with_impl set_acquired_resource_locks] in Hisc.
  assert (HC : applies Client jcr1 = None) by (cbn; by rewrite Hic).
  assert (HJ : applies Job jcr1
               = Some (job_resource_name_ j, job_MaxConcurrentJobs j)).
  { unfold jcr1. cbn. rewrite job_type_exclusions_res. cbn. by rewrite Hj. }
  assert (Hrec : IgnoreClientConcurrency (impl jcr')
                 = IgnoreClientConcurrency (impl jcr1) ∧
                 IgnoreStorageConcurrency (impl jcr')
                 = IgnoreStorageConcurrency (impl jcr1)).
  { destruct ok; [by subst jcr'|]. by destruct Hshape as [s ->]. }
  destruct Hrec as (Hc' & Hs').
  split; [congruence|]. split.
  { intros name. destruct ok.
    - rewrite Hcount. unfold unit_at.
      rewrite HC, HJ. unfold unit_of.
      destruct (applies Rstore jcr1) as [[]|],
        (applies Wstore jcr1) as [[]|]; cbn; lia.
    - apply Hcount. }
  intros Hm. specialize (Hisc Hm).
  assert (HR : applies Rstore jcr1 = None) by (cbn; by rewrite Hisc).
  assert (HW : applies Wstore jcr1 = None) by (cbn; by rewrite Hisc).
  split; [congruence|]. split.
  - unfold available, unit_at, shifted in *. rewrite HR, HW, HC, HJ in *.
    cbn [n_counter] in *.
    assert (Hd3 : value d3 CJob (job_resource_name_ j)
                  = value d CJob (job_resource_name_ j))
      by (rewrite S3, S2, S1; lia).
    rewrite Hd3 in *.
    destruct (bool_decide (value d CJob (job_resource_name_ j)
                           < job_MaxConcurrentJobs j));
      steps_in E; reflexivity.
  - intros name. destruct ok.
    + rewrite !Hcount. unfold unit_at.
      rewrite HR, HW, HC, HJ. unfold unit_of. cbn. lia.
    + by rewrite !Hcount.
Qed.

Lemma migration_jobs_skip_client_and_storage_witness :
  ∃ jcr' d',
    AcquireResources migrate_control_jcr full_storage_director
      = Ok (true, jcr', d') ∧
    value d' CStore 2%nat = 2 ∧ value d' CClient 3%nat = 0.
Proof.
  destruct (migration_jobs_skip_client_and_storage migrate_control_jcr
              full_storage_director (sample_job 4%nat 1 false)
              (or_introl eq_refl) eq_refl)
    as (ok & jcr' & d' & E & _ & Hc & H).
  destruct (H eq_refl) as (_ & -> & Hs).
  exists jcr', d'. split; [exact E|].
  split; [apply Hs|apply Hc].
Defined.

(** ** Fatal messages *)

Lemma inc_msgs_no_fatal p jcr d : List.filter is_FATAL (inc_msgs p jcr d) = [].
Proof.
  unfold inc_msgs. destruct (applies p jcr) as [[name max]|]; [|done].
  cbv zeta. case_bool_decide; [done|]. by destruct p.
Qed.

Lemma dec_msgs_fatal p jcr d name max :
  applies p jcr = Some (name, max) →
  0 < value d CStore name → 0 < value d CStoreRead name ∨ p ≠ Rstore →
  List.filter is_FATAL (dec_msgs p jcr d) = [].
Proof.
  intros Happ Hn Hr. unfold dec_msgs, fatal_msgs. rewrite Happ.
  cbn [List.filter is_FATAL]. destruct p; try done.
  - destruct Hr as [Hr|?]; [|done].
    destruct (Z.ltb_spec (value d CStoreRead name - 1) 0); [lia|].
    destruct (Z.ltb_spec (value d CStore name - 1) 0); [lia|]. done.
  - destruct (Z.ltb_spec (value d CStore name - 1) 0); [lia|]. done.
Qed.

(** A successful admission writes no fatal message. *)
Lemma AcquireResources_success_msgs (jcr jcr' : JCR) (d d' : Director)
    (j : JobResource) :
  job (res (impl jcr)) = Some j →
  AcquireResources jcr d = Ok (true, jcr', d') →
  List.filter is_FATAL (msgs d') = List.filter is_FATAL (msgs d).
Proof.
  intros Hj. admission_attempt jcr d Hj. intros E.
  destruct (available Rstore jcr1 d) eqn:A1;
    [|erewrite bind_Ok in E by eassumption; discriminate].
  destruct (available Wstore jcr1 d1) eqn:A2;
    [|repeat (erewrite bind_Ok in E by eassumption; cbn [negb] in E;
              cbv beta iota in E); discriminate].
  destruct (available Client jcr1 d2) eqn:A3;
    [|repeat (erewrite bind_Ok in E by eassumption; cbn [negb] in E;
              cbv beta iota in E); discriminate].
  destruct (available Job jcr1 d3) eqn:A4;
    [|repeat (erewrite bind_Ok in E by eassumption; cbn [negb] in E;
              cbv beta iota in E); discriminate].
  repeat (erewrite bind_Ok in E by eassumption; cbn [negb] in E;
          cbv beta iota in E).
  injection E as <- <-.
  rewrite M4, M3, M2, M1, !List.filter_app, !inc_msgs_no_fatal.
  by rewrite !app_nil_r.
Qed.

(** X4. A job run from counters that are not negative writes no fatal
    message: neither its admission nor the release of its permits at
    the end of its round finds a counter below zero. *)
Theorem admitted_job_writes_no_fatal_message (jcr jcr' : JCR)
    (d d1 : Director) (j : JobResource) :
  job (res (impl jcr)) = Some j →
  (∀ c n, 0 ≤ value d c n) →
  AcquireResources jcr d = Ok (true, jcr', d1) →
  ∃ d2,
    (DecReadStore jcr';; DecWriteStore jcr';; DecClientConcurrency jcr';;
     DecJobConcurrency jcr') d1 = Ok (tt, d2) ∧
    List.filter is_FATAL (msgs d2) = List.filter is_FATAL (msgs d).
Proof.
  intros Hj Hpos E.
  pose proof (AcquireResources_success_msgs jcr jcr' d d1 j Hj E) as Hm1.
  destruct (AcquireResources_success jcr jcr' d d1 j Hj E)
    as (-> & a1 & a2 & a3 & _ & S1 & _ & S2 & _ & S3 & _ & S4).
  set (jcr1 := job_type_exclusions _) in *.
  set (jcr2 := with_impl (set_acquired_resource_locks true) jcr1).
  assert (Hj2 : is_Some (job (res (impl jcr2)))).
  { unfold jcr2, jcr1. cbn. rewrite job_type_exclusions_res. cbn.
    by rewrite Hj. }
  destruct (dec_run Rstore jcr2 d1 Hj2) as (r1 & Er1 & Sr1 & Mr1).
  destruct (dec_run Wstore jcr2 r1 Hj2) as (r2 & Er2 & Sr2 & Mr2).
  destruct (dec_run Client jcr2 r2 Hj2) as (r3 & Er3 & Sr3 & Mr3).
  destruct (dec_run Job jcr2 r3 Hj2) as (r4 & Er4 & Sr4 & Mr4).
  exists r4. split.
  { change (DecReadStore jcr2) with (dec Rstore jcr2).
    change (DecWriteStore jcr2) with (dec Wstore jcr2).
    change (DecClientConcurrency jcr2) with (dec Client jcr2).
    change (DecJobConcurrency jcr2) with (dec Job jcr2).
    steps. exact Er4. }
  rewrite Mr4, Mr3, Mr2, Mr1, !List.filter_app, Hm1.
  assert (Hd1 : ∀ c n, value d1 c n
      = value d c n + unit_at Rstore jcr1 c n + unit_at Wstore jcr1 c n
        + unit_at Client jcr1 c n + unit_at Job jcr1 c n) by shifts.
  assert (Hr1 : ∀ c n, value r1 c n = value d1 c n - unit_at Rstore jcr1 c n).
  { intros c n. rewrite (Sr1 c n). unfold jcr2. rewrite unit_at_locks. lia. }
  assert (Hnn : ∀ p c n, 0 ≤ unit_at p jcr1 c n).
  { intros p c n. unfold unit_at, unit_of.
    destruct (applies p jcr1) as [[]|]; [|done]. by case_match. }
  assert (F1 : List.filter is_FATAL (dec_msgs Rstore jcr2 d1) = []).
  { destruct (applies Rstore jcr1) as [[rn rmax]|] eqn:ER.
    2: { unfold dec_msgs. unfold jcr2. by rewrite applies_locks, ER. }
    assert (Happ : applies Rstore jcr2 = Some (rn, rmax))
      by (unfold jcr2; by rewrite applies_locks).
    assert (Hu : ∀ c, c = CStore ∨ c = CStoreRead →
                      unit_at Rstore jcr1 c rn = 1).
    { intros c Hc. unfold unit_at, unit_of. rewrite ER.
      destruct Hc as [-> | ->]; cbn; by rewrite bool_decide_eq_true_2. }
    apply (dec_msgs_fatal Rstore jcr2 d1 rn rmax Happ); [|left];
      rewrite Hd1, Hu by auto.
    - pose proof (Hpos CStore rn). pose proof (Hnn Wstore CStore rn).
      pose proof (Hnn Client CStore rn). pose proof (Hnn Job CStore rn).
      lia.
    - pose proof (Hpos CStoreRead rn).
      pose proof (Hnn Wstore CStoreRead rn).
      pose proof (Hnn Client CStoreRead rn).
      pose proof (Hnn Job CStoreRead rn). lia. }
  assert (F2 : List.filter is_FATAL (dec_msgs Wstore jcr2 r1) = []).
  { destruct (applies Wstore jcr1) as [[wn wmax]|] eqn:EW.
    2: { unfold dec_msgs. unfold jcr2. by rewrite applies_locks, EW. }
    assert (Happ : applies Wstore jcr2 = Some (wn, wmax))
      by (unfold jcr2; by rewrite applies_locks).
    apply (dec_msgs_fatal Wstore jcr2 r1 wn wmax Happ); [|by right].
    rewrite Hr1, Hd1. pose proof (Hpos CStore wn).
    pose proof (Hnn Client CStore wn). pose proof (Hnn Job CStore wn).
    assert (unit_at Wstore jcr1 CStore wn = 1).
    { unfold unit_at, unit_of. rewrite EW. cbn.
      by rewrite bool_decide_eq_true_2. }
    lia. }
  assert (F34 : ∀ p x, p = Client ∨ p = Job →
            List.filter is_FATAL (dec_msgs p jcr2 x) = []).
  { intros p x Hp. unfold dec_msgs, fatal_msgs.
    destruct (applies p jcr2) as [[]|]; [|done].
    by destruct Hp as [-> | ->]. }
  rewrite F1, F2, !F34 by auto. by rewrite !app_nil_r.
Qed.

Lemma admitted_job_writes_no_fatal_message_witness :
  ∃ jcr' d1 d2,
    AcquireResources backup_jcr idle_director = Ok (true, jcr', d1) ∧
    (DecReadStore jcr';; DecWriteStore jcr';; DecClientConcurrency jcr';;
     DecJobConcurrency jcr') d1 = Ok (tt, d2) ∧
    List.filter is_FATAL (msgs d2) = [].
Proof.
  destruct (AcquireResources backup_jcr idle_director)
    as [[[[] jcr'] d1]|] eqn:E; try (vm_compute in E; discriminate).
  destruct (admitted_job_writes_no_fatal_message backup_jcr jcr'
              idle_director d1 _ eq_refl) as (d2 & E2 & Hm).
  - intros [] n; cbn; lia.
  - exact E.
  - exists jcr', d1, d2. done.
Defined.

(** * Further properties of the queue operations *)

(** ** What the operations leave as it was *)

Lemma preserves_ret {A} (R : World → World → Prop) (a : A) :
  (∀ w, R w w) → preserves R (mret a).
Proof. intros Hrefl w a' w' [= <- <-]. apply Hrefl. Qed.

Lemma preserves_raise {A} (R : World → World → Prop) (f : fault) :
  preserves R (raise f : M World A).
Proof. intros w a w'. discriminate. Qed.

Lemma preserves_gets {A} (R : World → World → Prop) (f : World → A) :
  (∀ w, R w w) → preserves R (gets f).
Proof. intros Hrefl w a w' [= <- <-]. apply Hrefl. Qed.

Lemma preserves_modify (R : World → World → Prop) (f : World → World) :
  (∀ w, R w (f w)) → preserves R (modify f).
Proof. intros Hf w [] w' [= <-]. apply Hf. Qed.

Lemma preserves_bind {A B} (R : World → World → Prop) (m : M World A)
    (k : A → M World B) :
  (∀ w1 w2 w3, R w1 w2 → R w2 w3 → R w1 w3) →
  preserves R m → (∀ a, preserves R (k a)) → preserves R (m ≫= k).
Proof.
  intros Htrans Hm Hk w b w'. unfold mbind, M_bind.
  destruct (m w) as [[a w1]|f] eqn:E; [|discriminate].
  intros E'. apply (Htrans w w1 w'); [by eapply Hm|by eapply Hk].
Qed.

Lemma preserves_load (R : World → World → Prop) (p : ptr) :
  (∀ w, R w w) → preserves R (load p).
Proof.
  intros Hrefl w v w' E. unfold load in E.
  destruct (decide (p = nullptr)); [discriminate|].
  unfold mbind, M_bind in E. cbn in E.
  destruct (heap w !! p); [|discriminate].
  injection E as <- <-. apply Hrefl.
Qed.

Lemma preserves_first_greater (R : World → World → Prop) (prio : Z)
    (l : list ptr) :
  (∀ w, R w w) → preserves R (first_greater prio l).
Proof.
  intros Hrefl. induction l as [|li l IH]; cbn [first_greater];
    [by apply preserves_ret|].
  intros w r w'. unfold mbind, M_bind.
  destruct (load li w) as [[v w0]|] eqn:El; [|discriminate].
  assert (w0 = w) as ->.
  { unfold load in El. destruct (decide (li = nullptr)); [discriminate|].
    unfold mbind, M_bind in El. cbn in El.
    destruct (heap w !! li); [|discriminate]. by injection El. }
  destruct (JobPriority v >? prio); [|apply IH].
  intros [= <- <-]. apply Hrefl.
Qed.

Lemma frame_refl ps w : frame ps w w.
Proof. unfold frame, same_counters. repeat split; auto; lia. Qed.

Lemma frame_trans ps w1 w2 w3 :
  frame ps w1 w2 → frame ps w2 w3 → frame ps w1 w3.
Proof.
  intros (C1 & R1 & V1 & Q1 & M1 & L1 & U1 & H1 & S1)
    (C2 & R2 & V2 & Q2 & M2 & L2 & U2 & H2 & S2).
  unfold frame, same_counters in *.
  split; [intros; by rewrite C2, C1|].
  split; [congruence|]. split; [congruence|]. split; [congruence|].
  split; [congruence|]. split; [lia|]. split; [lia|]. split.
  - intros p Hp. rewrite H2, H1; auto.
  - auto.
Qed.

Lemma frame_mono ps ps' w w' : ps ⊆ ps' → frame ps w w' → frame ps' w w'.
Proof.
  intros Hs (C & R & V & Q & M & L & U & H & S).
  repeat split; auto.
Qed.

Lemma frame_store ps p v :
  p ∈ ps → preserves (frame ps) (store p v).
Proof.
  intros Hp. apply preserves_modify. intros w.
  unfold frame, same_counters. cbn [set_heap heap jq dir].
  repeat split; auto; try lia.
  - intros q Hq. apply lookup_insert_ne. congruence.
  - intros q Hq. rewrite lookup_insert_is_Some.
    destruct (decide (p = q)); auto.
Qed.

Lemma frame_update ps p f :
  p ∈ ps → preserves (frame ps) (update p f).
Proof.
  intros Hp. unfold update. apply preserves_bind.
  - apply frame_trans.
  - apply preserves_load, frame_refl.
  - intros v. by apply frame_store.
Qed.

Lemma frame_do_call ps c : preserves (frame ps) (do_call c).
Proof.
  apply preserves_modify. intros w. unfold frame, same_counters.
  cbn. repeat split; auto; lia.
Qed.

Lemma frame_log ps m : preserves (frame ps) (in_dir (log m)).
Proof.
  intros w [] w' [= <-]. unfold frame, same_counters.
  cbn. repeat split; auto; try lia.
Qed.

Lemma frame_waiting ps (f : jobq_t → list ptr) :
  preserves (frame ps) (modify_jq (λ q, set_waiting_jobs (f q) q)).
Proof.
  apply preserves_modify. intros w. unfold frame, same_counters.
  cbn. repeat split; auto; lia.
Qed.

Lemma frame_ready ps (f : jobq_t → list ptr) :
  preserves (frame ps) (modify_jq (λ q, set_ready_jobs (f q) q)).
Proof.
  apply preserves_modify. intros w. unfold frame, same_counters.
  cbn. repeat split; auto; lia.
Qed.

Lemma frame_StartServer ps os : preserves (frame ps) (StartServer os).
Proof.
  intros w st w'. unfold StartServer.
  erewrite bind_Ok by reflexivity. cbv beta.
  destruct (Z.ltb_spec (num_workers (jq w)) (max_workers (jq w)));
    [|intros [= <- <-]; apply frame_refl].
  destruct (os_pthread_create os =? 0); cbn [negb]; intros [= <- <-];
    unfold frame, same_counters; cbn; repeat split; auto; try lia.
Qed.

(** Code without a loop: follow its syntax. *)
Ltac framing_with tac :=
  repeat first
    [ tac
    | apply preserves_ret, frame_refl
    | apply preserves_gets, frame_refl
    | apply preserves_raise
    | apply preserves_load, frame_refl
    | apply preserves_first_greater, frame_refl
    | apply frame_StartServer
    | apply frame_do_call
    | apply frame_log
    | apply frame_waiting
    | apply frame_ready
    | apply frame_update; by repeat constructor
    | apply frame_store; by repeat constructor
    | apply preserves_bind; [apply frame_trans| |intros ?]
    | match goal with
      | |- preserves _ (if ?b then _ else _) => destruct b
      | |- preserves _ (match ?o with _ => _ end) => destruct o
      end ].

Ltac framing := framing_with fail.

Lemma frame_JobqAdd os jcr : preserves (frame [jcr]) (JobqAdd os jcr).
Proof. unfold JobqAdd. framing. Qed.

Lemma frame_JobqRemove os item jcr :
  preserves (frame []) (JobqRemove os item jcr).
Proof. unfold JobqRemove. framing. Qed.

(** X5. [JobqAdd] touches nothing but the submitted record, the waiting
    and ready lists and the worker count: whatever the path, a call
    that returns has changed no concurrency counter, has left the
    running list, the [valid] and [quit] flags and [max_workers] as they
    were and every other record as it was, and has not taken the number
    of workers over [max_workers]. *)
Theorem JobqAdd_leaves_the_rest (os : OS) (jcr : ptr) (w w' : World)
    (st : Z) :
  JobqAdd os jcr w = Ok (st, w') →
  same_counters (dir w) (dir w') ∧
  running_jobs (jq w') = running_jobs (jq w) ∧
  valid (jq w') = valid (jq w) ∧
  quit (jq w') = quit (jq w) ∧
  max_workers (jq w') = max_workers (jq w) ∧
  (num_workers (jq w) ≤ max_workers (jq w) →
   num_workers (jq w') ≤ max_workers (jq w')) ∧
  ∀ p, p ≠ jcr → heap w' !! p = heap w !! p.
Proof.
  intros E.
  destruct (frame_JobqAdd os jcr w st w' E)
    as (C & R & V & Q & M & L & U & H & _).
  repeat split; auto; [lia|].
  intros p Hp. apply H. by intros ->%list_elem_of_singleton.
Qed.

Lemma JobqAdd_leaves_the_rest_witness :
  ∃ w',
    JobqAdd sample_os 2%nat one_waiting = Ok (0, w') ∧
    same_counters (dir one_waiting) (dir w') ∧
    heap w' !! 1%nat = heap one_waiting !! 1%nat.
Proof.
  destruct (JobqAdd sample_os 2%nat one_waiting) as [[st w']|] eqn:E;
    [|vm_compute in E; discriminate].
  assert (st = 0) as -> by (vm_compute in E; congruence).
  destruct (JobqAdd_leaves_the_rest sample_os 2%nat one_waiting w' 0 E)
    as (C & _ & _ & _ & _ & _ & H).
  exists w'. split; [reflexivity|]. split; [exact C|]. by apply H.
Defined.

(** X6. [JobqRemove] touches nothing but the waiting and ready lists
    and the worker count: a call that returns has changed no record and
    no concurrency counter, has left the running list, the flags and
    [max_workers] as they were, and has not taken the number of workers
    over [max_workers]; the entries of the ready list are still there,
    in their order, behind at most one new head. *)
Theorem JobqRemove_leaves_the_rest (os : OS) (item jcr : ptr)
    (w w' : World) (st : Z) :
  JobqRemove os item jcr w = Ok (st, w') →
  heap w' = heap w ∧
  same_counters (dir w) (dir w') ∧
  running_jobs (jq w') = running_jobs (jq w) ∧
  valid (jq w') = valid (jq w) ∧
  quit (jq w') = quit (jq w) ∧
  max_workers (jq w') = max_workers (jq w) ∧
  (num_workers (jq w) ≤ max_workers (jq w) →
   num_workers (jq w') ≤ max_workers (jq w')) ∧
  (ready_jobs (jq w') = ready_jobs (jq w) ∨
   ready_jobs (jq w') = item :: ready_jobs (jq w)).
Proof.
  intros E.
  destruct (frame_JobqRemove os item jcr w st w' E)
    as (C & R & V & Q & M & L & U & H & _).
  split; [apply map_eq; intros p; apply H, not_elem_of_nil|].
  repeat split; auto; [lia|].
  revert E. unfold JobqRemove. erewrite bind_Ok by reflexivity. cbv beta.
  destruct (negb (valid (jq w))); [intros [= <- <-]; by left|].
  destruct (negb (bool_decide (jcr ∈ waiting_jobs (jq w))));
    [intros [= <- <-]; by left|].
  erewrite bind_Ok by reflexivity. erewrite bind_Ok by reflexivity.
  match goal with |- StartServer os ?w1 = _ → _ =>
    destruct (StartServer_lists os w1) as (st1 & w1' & E1 & _ & Hrd & _) end.
  rewrite E1. intros [= <- <-]. right. exact Hrd.
Qed.

Lemma JobqRemove_leaves_the_rest_witness :
  ∃ w',
    JobqRemove sample_os 7%nat 1%nat one_waiting = Ok (0, w') ∧
    heap w' = heap one_waiting ∧
    running_jobs (jq w') = running_jobs (jq one_waiting).
Proof.
  destruct (JobqRemove sample_os 7%nat 1%nat one_waiting)
    as [[st w']|] eqn:E; [|vm_compute in E; discriminate].
  assert (st = 0) as -> by (vm_compute in E; congruence).
  destruct (JobqRemove_leaves_the_rest sample_os 7%nat 1%nat one_waiting
              w' 0 E) as (H & _ & R & _).
  exists w'. done.
Defined.

(** ** The ways out of [JobqAdd] *)

(** On its early exits [JobqAdd] leaves the queue as it was; when the
    condition variable cannot be initialised or the queue is not valid,
    the status is not zero. *)
Lemma JobqAdd_exits_early (os : OS) (jcr : ptr) (v : JCR) (w : World) :
  jcr ≠ nullptr → heap w !! jcr = Some v →
  negb (term_wait_inited (impl v)) && negb (os_pthread_cond_init os =? 0)
    = true ∨ valid (jq w) = false →
  ∃ st w', JobqAdd os jcr w = Ok (st, w') ∧ st ≠ 0 ∧ jq w' = jq w.
Proof.
  intros Hp Hv Hexit. unfold JobqAdd.
  erewrite bind_Ok by (by apply load_ok). cbv beta zeta.
  destruct (negb (term_wait_inited (impl v))
            && negb (os_pthread_cond_init os =? 0)) eqn:Hinit.
  { erewrite bind_Ok by reflexivity. eexists _, _.
    split; [reflexivity|]. split; [|done].
    apply andb_true_iff in Hinit as [_ H%negb_true_iff].
    by apply Z.eqb_neq in H. }
  destruct Hexit as [?|Hval]; [done|].
  erewrite bind_Ok by (by apply update_ok). cbv beta.
  erewrite bind_Ok by reflexivity. cbv beta.
  cbn [jq set_heap]. rewrite Hval. cbn [negb].
  erewrite bind_Ok by reflexivity. by eexists _, _.
Qed.

(** X7. The early exits of [JobqAdd], in the order the code tests them.
    (1) The condition variable of the record cannot be initialised: the
    status of [pthread_cond_init] is returned and nothing but the
    message log has changed. (2) The queue is not valid: [EINVAL], with
    the lists, the use count and the calls as they were. (3) The record
    is not canceled and its start time lies ahead: the packet of the
    waiter thread is written through what [malloc] returned, so that
    without a block the call ends in a null pointer access; with one,
    no list changes, the record is in use once more, the status is that
    of [pthread_create], and a waiter thread holds the record exactly
    when that status is zero. (4) No memory for the item: [ENOMEM], no
    list changes, and the reference taken is released by [FreeJcr]. *)
Theorem JobqAdd_early_exits (os : OS) (jcr : ptr) (v : JCR) (w : World) :
  jcr ≠ nullptr → heap w !! jcr = Some v →
  let init_failed := negb (term_wait_inited (impl v))
                     && negb (os_pthread_cond_init os =? 0) in
  let not_due := negb (JobCanceled v) && (sched_time v - os_time os >? 0) in
  init_failed = true ∨ valid (jq w) = false ∨ not_due = true
    ∨ os_malloc_ok os = false →
  if negb init_failed && valid (jq w) && not_due && negb (os_malloc_ok os)
  then JobqAdd os jcr w = Fault NullPointer
  else
    ∃ st w' v',
      JobqAdd os jcr w = Ok (st, w') ∧
      jq w' = jq w ∧ heap w' !! jcr = Some v' ∧
      if init_failed then
        st = os_pthread_cond_init os ∧ st ≠ 0 ∧ heap w' = heap w ∧
        calls w' = calls w
      else if negb (valid (jq w)) then
        st = EINVAL ∧ use_count v' = use_count v ∧ calls w' = calls w
      else if not_due then
        st = os_pthread_create os ∧ use_count v' = use_count v + 1 ∧
        calls w' = calls w ++
          (if st =? 0 then [pthread_create_sched_wait jcr] else [])
      else
        st = ENOMEM ∧ use_count v' = use_count v + 1 ∧
        calls w' = calls w ++ [FreeJcr jcr].
Proof.
  intros Hp Hv init_failed not_due Hexit. unfold JobqAdd.
  erewrite bind_Ok by (by apply load_ok). cbv beta zeta.
  fold init_failed. destruct init_failed eqn:Hinit; cbn [negb andb].
  { erewrite bind_Ok by reflexivity. eexists _, _, v.
    split; [reflexivity|]. cbn. repeat split; auto.
    apply andb_true_iff in Hinit as [_ H%negb_true_iff].
    by apply Z.eqb_neq in H. }
  erewrite bind_Ok by (by apply update_ok). cbv beta.
  erewrite bind_Ok by reflexivity. cbv beta.
  set (v1 := with_impl (set_term_wait_inited true) v).
  set (w1 := set_heap _ w).
  assert (Hv1 : heap w1 !! jcr = Some v1) by apply lookup_insert_eq.
  change (valid (jq w1)) with (valid (jq w)).
  destruct (valid (jq w)) eqn:Hval; cbn [negb andb].
  2: { erewrite bind_Ok by reflexivity. eexists _, _, v1.
       split; [reflexivity|]. cbn. repeat split; auto. }
  erewrite bind_Ok by (by apply update_ok). cbv beta.
  set (v2 := set_use_count _ v1). set (w2 := set_heap _ w1).
  assert (Hv2 : heap w2 !! jcr = Some v2) by apply lookup_insert_eq.
  fold not_due. destruct not_due eqn:Hdue; cbn [andb].
  { destruct (os_malloc_ok os); cbn [negb];
      [|by erewrite bind_Fault by reflexivity].
    erewrite bind_Ok by reflexivity. cbv beta.
    destruct (os_pthread_create os =? 0) eqn:Hc; cbn [negb];
      erewrite bind_Ok by reflexivity; eexists _, _, v2;
      (split; [reflexivity|]); cbn; rewrite ?Hc, ?app_nil_r;
      repeat split; auto; apply lookup_insert_eq. }
  destruct Hexit as [?|[?|[?|Hm]]]; try discriminate.
  rewrite Hm. cbn [negb]. erewrite bind_Ok by reflexivity.
  eexists _, _, v2. split; [reflexivity|]. cbn.
  repeat split; auto.
Qed.

Lemma JobqAdd_early_exits_witness :
  (∃ w' v',
     JobqAdd (Build_OS 100 0 11 true) 2%nat
       (set_heap (<[2%nat := set_sched_time 160 fresh_jcr]>
                    (heap one_waiting)) one_waiting) = Ok (11, w') ∧
     jq w' = jq one_waiting ∧ heap w' !! 2%nat = Some v' ∧
     use_count v' = 2 ∧ calls w' = []) ∧
  JobqAdd (Build_OS 100 0 0 false) 2%nat
    (set_heap (<[2%nat := set_sched_time 160 fresh_jcr]>
                 (heap one_waiting)) one_waiting) = Fault NullPointer.
Proof.
  split.
  - destruct (JobqAdd_early_exits (Build_OS 100 0 11 true) 2%nat
                (set_sched_time 160 fresh_jcr)
                (set_heap (<[2%nat := set_sched_time 160 fresh_jcr]>
                             (heap one_waiting)) one_waiting))
      as (st & w' & v' & E & Hq & Hv' & H);
      [done|reflexivity|right; right; left; reflexivity|].
    cbv beta zeta iota in H. vm_compute in H.
    destruct H as (-> & Hu & Hc).
    exists w', v'. done.
  - apply (JobqAdd_early_exits (Build_OS 100 0 0 false) 2%nat
             (set_sched_time 160 fresh_jcr)
             (set_heap (<[2%nat := set_sched_time 160 fresh_jcr]>
                          (heap one_waiting)) one_waiting));
      [done|reflexivity|right; right; left; reflexivity].
Defined.

Lemma StartServer_status (os : OS) (w : World) :
  ∃ st w',
    StartServer os w = Ok (st, w') ∧
    heap w' = heap w ∧
    waiting_jobs (jq w') = waiting_jobs (jq w) ∧
    ready_jobs (jq w') = ready_jobs (jq w) ∧
    running_jobs (jq w') = running_jobs (jq w) ∧
    if st =? 0 then
      (num_workers (jq w) < max_workers (jq w) →
       num_workers (jq w') = num_workers (jq w) + 1) ∧
      (max_workers (jq w) ≤ num_workers (jq w) → jq w' = jq w)
    else
      st = os_pthread_create os ∧ jq w' = jq w ∧
      num_workers (jq w) < max_workers (jq w).
Proof.
  unfold StartServer. erewrite bind_Ok by reflexivity. cbv beta.
  destruct (Z.ltb_spec (num_workers (jq w)) (max_workers (jq w))).
  - destruct (os_pthread_create os =? 0) eqn:Hc; cbn [negb];
      eexists _, _; (split; [reflexivity|]); cbn; rewrite ?Hc;
      repeat split; auto; try lia.
  - eexists _, _. split; [reflexivity|]. cbn. repeat split; auto; lia.
Qed.

Lemma greater_entry_none (h : gmap ptr JCR) (prio : Z) (l : list ptr) :
  (∀ p, p ∈ l → is_Some (h !! p)) → none_greater h prio l →
  greater_entry h prio l = None.
Proof.
  induction l as [|li l IH]; intros Hl Hn; [done|].
  cbn [greater_entry]. destruct (Hl li) as [v Hv]; [by left|].
  rewrite Hv. pose proof (Hn li v (list_elem_of_here _ _) Hv).
  rewrite Z.gtb_ltb. destruct (Z.ltb_spec prio (JobPriority v)); [lia|].
  apply IH.
  - intros p Hp. apply Hl. by right.
  - intros p vp Hp. apply Hn. by right.
Qed.

(** The path of [JobqAdd] that changes the lists ends in [StartServer],
    run in the state with the lists changed. *)
Lemma JobqAdd_queuing (os : OS) (jcr : ptr) (v : JCR) (w : World) :
  jcr ≠ nullptr → heap w !! jcr = Some v → waiting_valid w →
  valid (jq w) = true →
  term_wait_inited (impl v) = true ∨ os_pthread_cond_init os = 0 →
  os_malloc_ok os = true →
  JobCanceled v = true ∨ sched_time v - os_time os ≤ 0 →
  JobCanceled v = true
    ∨ none_greater (heap w) (JobPriority v) (waiting_jobs (jq w)) →
  let v' := set_use_count (use_count v + 1)
              (with_impl (set_term_wait_inited true) v) in
  let q' := if JobCanceled v
            then set_ready_jobs (jcr :: ready_jobs (jq w)) (jq w)
            else set_waiting_jobs (waiting_jobs (jq w) ++ [jcr]) (jq w) in
  ∃ h',
    h' !! jcr = Some v' ∧ (∀ p, p ≠ jcr → h' !! p = heap w !! p) ∧
    JobqAdd os jcr w = StartServer os (set_jq q' (set_heap h' w)).
Proof.
  intros Hp Hv Hw Hval Hinit Hmalloc Hdue Hgr. cbv zeta. unfold JobqAdd.
  erewrite bind_Ok by (by apply load_ok). cbv beta zeta.
  replace (negb (term_wait_inited (impl v))
           && negb (os_pthread_cond_init os =? 0)) with false.
  2: { destruct Hinit as [->| ->]; [done|]. by rewrite andb_false_r. }
  erewrite bind_Ok by (by apply update_ok). cbv beta.
  erewrite bind_Ok by reflexivity. cbv beta.
  set (v1 := with_impl (set_term_wait_inited true) v).
  set (w1 := set_heap _ w).
  assert (Hv1 : heap w1 !! jcr = Some v1) by apply lookup_insert_eq.
  change (valid (jq w1)) with (valid (jq w)). rewrite Hval. cbn [negb].
  erewrite bind_Ok by (by apply update_ok). cbv beta.
  set (v2 := set_use_count _ v1). set (w2 := set_heap _ w1).
  replace (negb (JobCanceled v) && (sched_time v - os_time os >? 0))
    with false.
  2: { destruct Hdue as [->|Hd]; [done|].
       symmetry. apply andb_false_iff. right.
       rewrite Z.gtb_ltb. apply Z.ltb_ge. lia. }
  rewrite Hmalloc. cbn [negb]. cbv zeta.
  exists (heap w2). split; [apply lookup_insert_eq|]. split.
  { intros p Hne. unfold w2, w1. cbn [heap set_heap].
    by rewrite !lookup_insert_ne. }
  destruct (JobCanceled v) eqn:Hcan.
  - erewrite bind_Ok by reflexivity. reflexivity.
  - destruct Hgr as [?|Hgr]; [done|].
    assert (Hw2 : ∀ p, p ∈ waiting_jobs (jq w1) →
                       p ≠ nullptr ∧ is_Some (heap w2 !! p)).
    { intros p Hin. destruct (Hw p Hin) as [Hn Hs]. split; [done|].
      unfold w2, w1. cbn [heap set_heap].
      rewrite !lookup_insert_is_Some. destruct (decide (jcr = p)); auto. }
    rewrite bind_assoc.
    erewrite bind_Ok by (by apply first_greater_entry). cbv beta.
    assert (Hg : greater_entry (heap w2) (JobPriority v)
                   (waiting_jobs (jq w1)) = None).
    { unfold w2, w1. cbn [heap set_heap jq].
      rewrite (greater_entry_insert _ jcr v1 v2) by
        (apply lookup_insert_eq || done).
      rewrite (greater_entry_insert _ jcr v v1) by done.
      apply greater_entry_none; [|done]. intros p Hin. by apply Hw. }
    rewrite Hg. erewrite bind_Ok by reflexivity. reflexivity.
Qed.

(** X8. A record that [JobqAdd] accepts for the waiting list when no
    waiting entry has a strictly greater priority value goes to the
    tail, behind the entries of equal value, and a waiting list in
    non-decreasing order of priority value stays in that order. *)
Theorem JobqAdd_appends_in_order (os : OS) (jcr : ptr) (v : JCR) (w : World) :
  jcr ≠ nullptr → heap w !! jcr = Some v → waiting_valid w →
  valid (jq w) = true →
  term_wait_inited (impl v) = true ∨ os_pthread_cond_init os = 0 →
  os_malloc_ok os = true →
  JobCanceled v = false → sched_time v - os_time os ≤ 0 →
  none_greater (heap w) (JobPriority v) (waiting_jobs (jq w)) →
  prio_sorted (heap w) (waiting_jobs (jq w)) →
  ∃ st w',
    JobqAdd os jcr w = Ok (st, w') ∧
    waiting_jobs (jq w') = waiting_jobs (jq w) ++ [jcr] ∧
    ready_jobs (jq w') = ready_jobs (jq w) ∧
    prio_sorted (heap w') (waiting_jobs (jq w')).
Proof.
  intros Hp Hv Hw Hval Hinit Hmalloc Hcan Hdue Hgr Hsorted.
  destruct (JobqAdd_queuing os jcr v w Hp Hv Hw Hval Hinit Hmalloc
              (or_intror Hdue) (or_intror Hgr)) as (h' & Hv' & Hh' & ->).
  rewrite Hcan.
  match goal with |- context [StartServer os ?w1] =>
    destruct (StartServer_status os w1)
      as (st & w' & E & Hheap & Hwt & Hrd & _) end.
  exists st, w'. split; [exact E|]. rewrite Hwt, Hrd, Hheap.
  cbn [jq set_jq set_heap heap waiting_jobs ready_jobs set_waiting_jobs].
  split; [done|]. split; [done|].
  assert (Hprio : ∀ p vp, h' !! p = Some vp →
            ∃ vp', heap w !! p = Some vp' ∧ JobPriority vp' = JobPriority vp).
  { intros p vp Hl. destruct (decide (p = jcr)) as [->|Hne].
    - rewrite Hv' in Hl. injection Hl as <-. by exists v.
    - rewrite Hh' in Hl by done. by exists vp. }
  intros i j p q vp vq Hij Hi Hj Hvp Hvq.
  destruct (Hprio p vp Hvp) as (vp' & Hvp' & <-).
  destruct (Hprio q vq Hvq) as (vq' & Hvq' & <-).
  apply lookup_snoc_Some in Hj as [[Hlt Hj]|[-> <-]].
  - rewrite lookup_app_l in Hi by lia. eauto.
  - rewrite lookup_app_l in Hi by lia.
    rewrite Hv in Hvq'. injection Hvq' as <-.
    eapply Hgr; [|exact Hvp']. by eapply list_elem_of_lookup_2.
Qed.

Lemma JobqAdd_appends_in_order_witness :
  ∃ w',
    JobqAdd sample_os 2%nat
      (set_heap (<[2%nat := plain_jcr 2 10 2%nat true]> (heap one_waiting))
         one_waiting) = Ok (0, w') ∧
    waiting_jobs (jq w') = [1%nat; 2%nat] ∧
    prio_sorted (heap w') (waiting_jobs (jq w')).
Proof.
  set (w := set_heap (<[2%nat := plain_jcr 2 10 2%nat true]>
                        (heap one_waiting)) one_waiting).
  assert (Hone : ∀ p, p ∈ waiting_jobs (jq w) → p = 1%nat).
  { intros p Hp. by apply list_elem_of_singleton in Hp. }
  destruct (JobqAdd_appends_in_order sample_os 2%nat
              (plain_jcr 2 10 2%nat true) w) as (st & w' & E & Hwt & _ & Hs).
  - done.
  - reflexivity.
  - intros p ->%Hone. split; [done|]. by eexists.
  - reflexivity.
  - by left.
  - reflexivity.
  - reflexivity.
  - vm_compute. discriminate.
  - intros p vp ->%Hone Hl. vm_compute in Hl. injection Hl as <-.
    vm_compute. discriminate.
  - intros i j p q vp vq Hij Hi Hj.
    apply lookup_lt_Some in Hj. cbn in Hj. lia.
  - assert (st = 0) as -> by (vm_compute in E; congruence).
    exists w'. done.
Defined.

(** X9. On the path of [JobqAdd] that changes the lists the record is
    queued first and the status is the one of [StartServer]. Status
    zero: a worker serves the queue (given room for one). A status
    other than zero is the error of [pthread_create], no worker has
    been added, and the record is on its list all the same. *)
Theorem JobqAdd_status_after_queuing (os : OS) (jcr : ptr) (v : JCR)
    (w : World) :
  jcr ≠ nullptr → heap w !! jcr = Some v → waiting_valid w →
  valid (jq w) = true →
  term_wait_inited (impl v) = true ∨ os_pthread_cond_init os = 0 →
  os_malloc_ok os = true →
  JobCanceled v = true ∨ sched_time v - os_time os ≤ 0 →
  JobCanceled v = true
    ∨ none_greater (heap w) (JobPriority v) (waiting_jobs (jq w)) →
  ∃ st w',
    JobqAdd os jcr w = Ok (st, w') ∧
    (if JobCanceled v then head (ready_jobs (jq w')) = Some jcr
     else last (waiting_jobs (jq w')) = Some jcr) ∧
    if st =? 0 then
      0 ≤ num_workers (jq w) → 0 < max_workers (jq w) →
      0 < num_workers (jq w')
    else
      st = os_pthread_create os ∧
      num_workers (jq w') = num_workers (jq w) ∧
      calls w' = calls w.
Proof.
  intros Hp Hv Hw Hval Hinit Hmalloc Hdue Hgr.
  destruct (JobqAdd_queuing os jcr v w Hp Hv Hw Hval Hinit Hmalloc Hdue Hgr)
    as (h' & Hv' & Hh' & ->).
  match goal with |- context [StartServer os ?x] => set (w1 := x) end.
  destruct (StartServer_status os w1)
    as (st & w' & E & Hheap & Hwt & Hrd & _ & Hst).
  exists st, w'. split; [exact E|]. rewrite Hwt, Hrd. split.
  { unfold w1. destruct (JobCanceled v); cbn; [done|apply last_snoc]. }
  assert (Hn : num_workers (jq w1) = num_workers (jq w))
    by (unfold w1; by destruct (JobCanceled v)).
  assert (Hm : max_workers (jq w1) = max_workers (jq w))
    by (unfold w1; by destruct (JobCanceled v)).
  destruct (st =? 0) eqn:Est.
  - destruct Hst as [Hup Hsame]. rewrite Hn, Hm in *. intros Hnum Hmax.
    destruct (Z.lt_ge_cases (num_workers (jq w)) (max_workers (jq w))).
    + rewrite Hup by done. lia.
    + rewrite Hsame by lia. lia.
  - destruct Hst as (-> & Hq & _). rewrite Hq, Hn. split; [done|].
    split; [done|].
    revert E. unfold StartServer. erewrite bind_Ok by reflexivity. cbv beta.
    destruct (num_workers (jq w1) <? max_workers (jq w1));
      [|intros [= E1 <-]; by rewrite <- E1 in Est].
    rewrite Est. cbn [negb]. intros [= <-]. reflexivity.
Qed.

Lemma JobqAdd_status_after_queuing_witness :
  ∃ w',
    JobqAdd (Build_OS 100 0 11 true) 2%nat
      (set_jq (set_num_workers 0 (jq one_waiting))
         (set_heap (<[2%nat := plain_jcr 2 10 2%nat true]>
                      (heap one_waiting)) one_waiting)) = Ok (11, w') ∧
    last (waiting_jobs (jq w')) = Some 2%nat ∧
    num_workers (jq w') = 0.
Proof.
  set (w := set_jq (set_num_workers 0 (jq one_waiting))
              (set_heap (<[2%nat := plain_jcr 2 10 2%nat true]>
                           (heap one_waiting)) one_waiting)).
  assert (Hone : ∀ p, p ∈ waiting_jobs (jq w) → p = 1%nat).
  { intros p Hp. by apply list_elem_of_singleton in Hp. }
  destruct (JobqAdd_status_after_queuing (Build_OS 100 0 11 true) 2%nat
              (plain_jcr 2 10 2%nat true) w) as (st & w' & E & Hl & Hst).
  - done.
  - reflexivity.
  - intros p ->%Hone. split; [done|]. by eexists.
  - reflexivity.
  - by left.
  - reflexivity.
  - right. vm_compute. discriminate.
  - right. intros p vp ->%Hone Hl. vm_compute in Hl. injection Hl as <-.
    vm_compute. discriminate.
  - assert (st = 11) as -> by (vm_compute in E; congruence).
    cbn in Hl, Hst. destruct Hst as (_ & Hn & _).
    exists w'. done.
Defined.

(** * Properties of the drain loop *)

Lemma admissions_kept_refl w : admissions_kept w w.
Proof. by split. Qed.

Lemma admissions_kept_trans w1 w2 w3 :
  admissions_kept w1 w2 → admissions_kept w2 w3 → admissions_kept w1 w3.
Proof.
  intros [C1 R1] [C2 R2]. split; [|congruence].
  intros c n. by rewrite C2, C1.
Qed.

Lemma frame_admissions_kept {A} ps (m : M World A) :
  preserves (frame ps) m → preserves admissions_kept m.
Proof. intros Hm w a w' E. destruct (Hm w a w' E) as (C & R & _). by split. Qed.

Lemma admissions_kept_free_record p : preserves admissions_kept (free_record p).
Proof. intros w [] w' [= <-]. by split. Qed.

(** Code without a loop, from the frames of its statements. *)
Ltac keeping_with tac :=
  repeat first
    [ tac
    | apply preserves_ret, admissions_kept_refl
    | apply preserves_gets, admissions_kept_refl
    | apply preserves_raise
    | apply preserves_load, admissions_kept_refl
    | apply admissions_kept_free_record
    | apply (frame_admissions_kept []); apply frame_do_call
    | apply (frame_admissions_kept []); apply frame_log
    | match goal with
      | |- preserves _ (update ?p _) =>
        apply (frame_admissions_kept [p]); apply frame_update;
        apply list_elem_of_here
      | |- preserves _ (store ?p _) =>
        apply (frame_admissions_kept [p]); apply frame_store;
        apply list_elem_of_here
      | |- preserves _ (JobqAdd _ ?p) =>
        apply (frame_admissions_kept [p]); apply frame_JobqAdd
      end
    | apply preserves_bind; [apply admissions_kept_trans| |intros ?]
    | match goal with
      | |- preserves _ (if ?b then _ else _) => destruct b
      | |- preserves _ (match ?o with _ => _ end) => destruct o
      end ].

Lemma admissions_kept_RescheduleJob os os_add dup njcr defaults jcr je :
  preserves admissions_kept
    (RescheduleJob os os_add dup njcr defaults jcr je).
Proof.
  unfold RescheduleJob, deref.
  keeping_with fail.
Qed.

Lemma in_dir_dec_shift (p : permit) (v : JCR) (w : World) :
  is_Some (job (res (impl v))) →
  ∃ d',
    in_dir (dec p v) w = Ok (tt, set_dir d' w) ∧
    shifted (dir w) d' (λ c n, - unit_at p v c n).
Proof.
  intros Hj. destruct (dec_run p v (dir w) Hj) as (d' & E & S & _).
  exists d'. unfold in_dir. by rewrite E.
Qed.

(** X10. The end of a round of the drain loop gives back what admission
    took. When the engine has returned, the job leaves the running list;
    a record that holds its locks has each of its permits released, so
    that every counter goes down by what the permits of the record
    count, and a record without locks (a job canceled before it was
    made ready) leaves every counter as it was. Rescheduling the job
    changes no counter. *)
Theorem after_engine_releases_the_permits (os os_add : OS) (dup : bool)
    (njcr : ptr) (defaults : JCR) (je : ptr) (w w' : World) (v : JCR)
    (j : JobResource) (requeued : bool) :
  je ≠ nullptr → heap w !! je = Some v → job (res (impl v)) = Some j →
  after_engine os os_add dup njcr defaults je w = Ok (requeued, w') →
  (je ∉ running_jobs (jq w')) ∧
  (if acquired_resource_locks (impl v)
   then shifted (dir w) (dir w') (λ c n, - units_of (needed v) v c n)
   else same_counters (dir w) (dir w')).
Proof.
  intros Hp Hv Hj. unfold after_engine. cbv zeta.
  erewrite bind_Ok by reflexivity. cbv beta.
  set (wa := set_jq _ w).
  assert (Hva : heap wa !! je = Some v) by exact Hv.
  erewrite bind_Ok by (by apply load_ok). cbv beta.
  assert (Hjs : is_Some (job (res (impl v)))) by (by rewrite Hj).
  assert (Hstate : ∃ wb,
    (if acquired_resource_locks (impl v) then
       in_dir (DecReadStore v);;
       in_dir (DecWriteStore v);;
       in_dir (DecClientConcurrency v);;
       in_dir (DecJobConcurrency v);;
       update je (with_impl (set_acquired_resource_locks false))
     else ret tt) wa = Ok (tt, wb) ∧
    running_jobs (jq wb) = list_remove je (running_jobs (jq w)) ∧
    if acquired_resource_locks (impl v)
    then shifted (dir w) (dir wb) (λ c n, - units_of (needed v) v c n)
    else same_counters (dir w) (dir wb)).
  { destruct (acquired_resource_locks (impl v)).
    - change (DecReadStore v) with (dec Rstore v).
      change (DecWriteStore v) with (dec Wstore v).
      change (DecClientConcurrency v) with (dec Client v).
      change (DecJobConcurrency v) with (dec Job v).
      destruct (in_dir_dec_shift Rstore v wa Hjs) as (d1 & E1 & S1).
      destruct (in_dir_dec_shift Wstore v (set_dir d1 wa) Hjs)
        as (d2 & E2 & S2).
      destruct (in_dir_dec_shift Client v (set_dir d2 (set_dir d1 wa)) Hjs)
        as (d3 & E3 & S3).
      destruct (in_dir_dec_shift Job v
                  (set_dir d3 (set_dir d2 (set_dir d1 wa))) Hjs)
        as (d4 & E4 & S4).
      cbn [dir set_dir] in S2, S3, S4.
      eexists. split.
      { erewrite bind_Ok by exact E1. erewrite bind_Ok by exact E2.
        erewrite bind_Ok by exact E3. erewrite bind_Ok by exact E4.
        by apply update_ok. }
      split; [reflexivity|]. cbn [dir set_heap set_dir].
      change (dir wa) with (dir w) in S1. shifts.
    - exists wa. split; [reflexivity|]. split; [reflexivity|]. done. }
  destruct Hstate as (wb & Eb & Hrun & Hcount).
  erewrite bind_Ok by exact Eb. cbv beta. intros E.
  assert (Hfr : admissions_kept wb w').
  { refine (preserves_bind admissions_kept _ _ admissions_kept_trans
              (admissions_kept_RescheduleJob os os_add dup njcr defaults
                 je je) _ _ _ _ E).
    intros []; keeping_with fail. }
  destruct Hfr as (C & R).
  split.
  - rewrite R, Hrun. unfold list_remove. rewrite list_elem_of_filter.
    by intros [? _].
  - destruct (acquired_resource_locks (impl v)).
    + intros c n. rewrite <- (Hcount c n). apply C.
    + intros c n. rewrite <- (Hcount c n). apply C.
Qed.

Lemma after_engine_releases_the_permits_witness :
  ∃ w',
    after_engine sample_os sample_os true 2%nat fresh_jcr 1%nat
      finished_backup = Ok (false, w') ∧
    running_jobs (jq w') = [] ∧
    value (dir w') CStore 1%nat = 0 ∧ value (dir w') CStore 2%nat = 0 ∧
    value (dir w') CStoreRead 1%nat = 0 ∧
    value (dir w') CClient 3%nat = 0 ∧ value (dir w') CJob 4%nat = 0.
Proof.
  destruct (after_engine sample_os sample_os true 2%nat fresh_jcr 1%nat
              finished_backup) as [[[] w']|] eqn:E;
    try (vm_compute in E; discriminate).
  destruct (after_engine_releases_the_permits sample_os sample_os true 2%nat
              fresh_jcr 1%nat finished_backup w' _
              (sample_job 4%nat 1 false) false
              ltac:(discriminate) eq_refl eq_refl E) as [_ Hs].
  cbn [acquired_resource_locks impl with_impl set_JobStatus
       set_acquired_resource_locks] in Hs.
  exists w'. split; [reflexivity|]. split.
  { vm_compute in E. injection E as <-. reflexivity. }
  repeat split; rewrite Hs; reflexivity.
Defined.

(** ** The start of a round *)

(** X11. A round of the drain loop takes the head of the ready list off
    the list. When other jobs remain ready and a further server cannot
    be created, the worker leaves: the number of workers goes down by
    one, and the job taken is not appended to the running list and not
    released, and the engine is not run on it. This happens exactly
    when jobs remain, the number of workers is below [max_workers] and
    [pthread_create] fails; otherwise the job is appended to the running
    list and handed to the engine. *)
Theorem take_ready_runs_or_drops_the_head (os : OS) (w : World)
    (jcr : ptr) (rest : list ptr) :
  ready_jobs (jq w) = jcr :: rest → jcr ≠ nullptr →
  is_Some (heap w !! jcr) →
  ∃ r w',
    take_ready os w = Ok (r, w') ∧
    heap w' = heap w ∧ calls w' = (calls w ++
      if bool_decide (r = Some jcr ∧ list_remove jcr rest ≠ []
                      ∧ num_workers (jq w) < max_workers (jq w))
      then [pthread_create_jobq_server] else []) ∧
    waiting_jobs (jq w') = waiting_jobs (jq w) ∧
    ready_jobs (jq w') = list_remove jcr rest ∧
    (r = None ↔
     list_remove jcr rest ≠ [] ∧
     num_workers (jq w) < max_workers (jq w) ∧ os_pthread_create os ≠ 0) ∧
    match r with
    | Some je =>
      je = jcr ∧ running_jobs (jq w') = running_jobs (jq w) ++ [jcr]
    | None =>
      running_jobs (jq w') = running_jobs (jq w) ∧
      num_workers (jq w') = num_workers (jq w) - 1
    end.
Proof.
  intros Hr Hp [v Hv]. unfold take_ready.
  erewrite bind_Ok by reflexivity. cbv beta zeta.
  assert (Hstar : star (jq w) (begin_ Ready) = jcr)
    by (unfold star; cbn; by rewrite Hr).
  rewrite Hstar. erewrite bind_Ok by reflexivity.
  erewrite bind_Ok by reflexivity. cbv beta.
  set (w1 := set_jq _ w).
  assert (Hrd1 : ready_jobs (jq w1) = list_remove jcr rest).
  { unfold w1. cbn. rewrite Hr. unfold list_remove.
    rewrite filter_cons_False by (by intros ?). done. }
  rewrite Hrd1.
  destruct (decide (list_remove jcr rest = [])) as [Hnil|Hnil].
  - rewrite bool_decide_eq_true_2 by done. cbn [negb].
    erewrite bind_Ok by reflexivity. cbn [Z.eqb negb].
    erewrite bind_Ok by reflexivity. cbv beta.
    erewrite bind_Ok by (by apply load_ok). eexists _, _.
    split; [reflexivity|]. cbn.
    rewrite bool_decide_eq_false_2 by (intros (_ & ? & _); done).
    rewrite app_nil_r. repeat split; try done.
    intros (? & _); done.
  - rewrite bool_decide_eq_false_2 by done. cbn [negb].
    destruct (StartServer_status os w1)
      as (st & w2 & E & Hheap & Hwt & Hrd & Hrn & Hst).
    erewrite bind_Ok by exact E. cbv beta.
    assert (Hcalls : calls w2 = calls w ++
              if (st =? 0) && (num_workers (jq w) <? max_workers (jq w))
              then [pthread_create_jobq_server] else []).
    { revert E. unfold StartServer. erewrite bind_Ok by reflexivity.
      cbv beta. change (jq w1) with
        (set_ready_jobs (list_remove jcr (ready_jobs (jq w))) (jq w)).
      cbn [num_workers max_workers set_ready_jobs].
      destruct (num_workers (jq w) <? max_workers (jq w)).
      - destruct (os_pthread_create os =? 0) eqn:Hc; cbn [negb];
          intros [= <- <-]; cbn; rewrite ?Hc, ?app_nil_r; done.
      - intros [= <- <-]. cbn. by rewrite app_nil_r. }
    destruct (st =? 0) eqn:Est; cbn [negb].
    + erewrite bind_Ok by reflexivity. cbv beta.
      erewrite bind_Ok by (apply load_ok; [done|]; cbn; by rewrite Hheap).
      eexists _, _. split; [reflexivity|]. cbn.
      rewrite Hheap, Hwt, Hrd, Hrn, Hrd1, Hcalls. cbn [andb].
      split; [done|]. split.
      { destruct (Z.ltb_spec (num_workers (jq w)) (max_workers (jq w))).
        - by rewrite bool_decide_eq_true_2.
        - rewrite bool_decide_eq_false_2; [done|]. intros (_ & _ & ?). lia. }
      repeat split; try done.
      intros (_ & Hlt & Hc). destruct Hst as [Hup _].
      apply Z.eqb_eq in Est. subst st.
      revert E. unfold StartServer. erewrite bind_Ok by reflexivity.
      cbv beta. change (num_workers (jq w1)) with (num_workers (jq w)).
      change (max_workers (jq w1)) with (max_workers (jq w)).
      rewrite (proj2 (Z.ltb_lt _ _) Hlt).
      rewrite (proj2 (Z.eqb_neq _ _) Hc). cbn [negb].
      intros [= E0 _]. done.
    + erewrite bind_Ok by reflexivity. eexists _, _.
      split; [reflexivity|]. cbn.
      destruct Hst as (-> & Hq & Hlt).
      rewrite Hheap, Hwt, Hrd, Hrn, Hrd1, Hq, Hcalls. cbn [andb].
      rewrite bool_decide_eq_false_2 by (intros (? & _); done).
      repeat split; try done.
      by apply Z.eqb_neq.
Qed.

Lemma take_ready_runs_or_drops_the_head_witness :
  ∃ w',
    take_ready no_threads_os two_ready = Ok (None, w') ∧
    ready_jobs (jq w') = [2%nat] ∧ running_jobs (jq w') = [] ∧
    waiting_jobs (jq w') = [] ∧ num_workers (jq w') = 0 ∧ calls w' = [].
Proof.
  destruct (take_ready_runs_or_drops_the_head no_threads_os two_ready
              1%nat [2%nat] eq_refl ltac:(discriminate)
              ltac:(by eexists))
    as (r & w' & E & _ & Hc & Hwt & Hrd & _ & H).
  assert (r = None) as -> by (vm_compute in E; by injection E).
  destruct H as [Hrn Hn]. exists w'.
  rewrite bool_decide_eq_false_2 in Hc by (intros (? & _); done).
  done.
Defined.

(** ** Rescheduling in place *)




(** ** The end of a job *)

(** The release block of the drain loop, [jobq.cc:488-494], leaves the
    lists, the calls and every record but the one released as they
    are. *)
Lemma release_block_keeps (je : ptr) (v : JCR) (w : World) :
  je ≠ nullptr → heap w !! je = Some v → is_Some (job (res (impl v))) →
  ∃ w',
    (if acquired_resource_locks (impl v) then
       in_dir (DecReadStore v);;
       in_dir (DecWriteStore v);;
       in_dir (DecClientConcurrency v);;
       in_dir (DecJobConcurrency v);;
       update je (with_impl (set_acquired_resource_locks false))
     else ret tt) w = Ok (tt, w') ∧
    heap w' !! je = Some (with_impl (set_acquired_resource_locks false) v) ∧
    jq w' = jq w ∧ calls w' = calls w.
Proof.
  intros Hp Hv Hjs. destruct (acquired_resource_locks (impl v)) eqn:Hl.
  - change (DecReadStore v) with (dec Rstore v).
    change (DecWriteStore v) with (dec Wstore v).
    change (DecClientConcurrency v) with (dec Client v).
    change (DecJobConcurrency v) with (dec Job v).
    destruct (in_dir_dec_shift Rstore v w Hjs) as (d1 & E1 & _).
    destruct (in_dir_dec_shift Wstore v (set_dir d1 w) Hjs)
      as (d2 & E2 & _).
    destruct (in_dir_dec_shift Client v (set_dir d2 (set_dir d1 w)) Hjs)
      as (d3 & E3 & _).
    destruct (in_dir_dec_shift Job v
                (set_dir d3 (set_dir d2 (set_dir d1 w))) Hjs)
      as (d4 & E4 & _).
    eexists. split.
    { erewrite bind_Ok by exact E1. erewrite bind_Ok by exact E2.
      erewrite bind_Ok by exact E3. erewrite bind_Ok by exact E4.
      by apply update_ok. }
    cbn. split; [apply lookup_insert_eq|done].
  - exists w. split; [done|]. split; [|done]. rewrite Hv. f_equal.
    destruct v as [? ? ? ? ? ? ? ? ? ? ? i]. destruct i. cbn in *.
    by subst.
Qed.

(** X13. A job that is not rescheduled ends its round of the drain loop
    released: the job has left the running list, the waiting and ready
    lists are as they were, the record holds no locks and the last call
    is its [FreeJcr]. This is also what happens to a job whose
    reschedule the duplicate-job check refuses, although by then its
    reschedule count has been raised. *)
Theorem after_engine_ends_a_job_not_rescheduled (os os_add : OS)
    (dup : bool) (njcr : ptr) (defaults : JCR) (je : ptr) (w : World)
    (v : JCR) (j : JobResource) :
  je ≠ nullptr → heap w !! je = Some v → job (res (impl v)) = Some j →
  resched v j = false ∨ dup = false →
  ∃ w' v',
    after_engine os os_add dup njcr defaults je w = Ok (false, w') ∧
    last (calls w') = Some (FreeJcr je) ∧
    waiting_jobs (jq w') = waiting_jobs (jq w) ∧
    ready_jobs (jq w') = ready_jobs (jq w) ∧
    running_jobs (jq w') = list_remove je (running_jobs (jq w)) ∧
    heap w' !! je = Some v' ∧
    acquired_resource_locks (impl v') = false ∧
    reschedule_count (impl v')
      = reschedule_count (impl v) + (if resched v j then 1 else 0).
Proof.
  intros Hp Hv Hj Hno. unfold after_engine. cbv zeta.
  erewrite bind_Ok by reflexivity. cbv beta.
  set (wa := set_jq _ w).
  erewrite bind_Ok by (by apply load_ok). cbv beta.
  destruct (release_block_keeps je v wa Hp Hv)
    as (wb & Eb & Hvb & Hqb & Hcb); [by rewrite Hj|].
  erewrite bind_Ok by exact Eb. cbv beta.
  set (vb := with_impl (set_acquired_resource_locks false) v) in *.
  assert (Hend : ∀ (x : World) (u : JCR),
    heap x !! je = Some u → jq x = jq wa →
    acquired_resource_locks (impl u) = false →
    ∃ w' v',
      (update je (with_impl (set_SDJobStatus 0));;
       do_call (FreeJcr je);; ret false) x = Ok (false, w') ∧
      last (calls w') = Some (FreeJcr je) ∧
      waiting_jobs (jq w') = waiting_jobs (jq w) ∧
      ready_jobs (jq w') = ready_jobs (jq w) ∧
      running_jobs (jq w') = list_remove je (running_jobs (jq w)) ∧
      heap w' !! je = Some v' ∧
      acquired_resource_locks (impl v') = false ∧
      reschedule_count (impl v') = reschedule_count (impl u)).
  { intros x u Hu Hq Hl.
    erewrite bind_Ok by (by apply update_ok). cbv beta.
    erewrite bind_Ok by reflexivity. eexists _, _.
    split; [reflexivity|]. cbn [calls set_calls set_heap jq heap].
    rewrite last_snoc, Hq. split; [done|]. split; [done|].
    split; [done|]. split; [done|]. split; [apply lookup_insert_eq|].
    by split. }
  pose proof (RescheduleJob_run os os_add dup njcr defaults je je wb vb j
                Hp Hvb) as H.
  cbv zeta in H. change (resched vb j) with (resched v j) in H.
  specialize (H ltac:(by destruct v)).
  destruct (resched v j) eqn:Hr.
  2: { erewrite bind_Ok by exact H. cbv beta iota.
       destruct (Hend wb vb Hvb Hqb eq_refl)
         as (w' & v' & E & Hlast & Hwt & Hrd & Hrn & Hv' & Hl' & Hc').
       exists w', v'. rewrite Z.add_0_r. by repeat split. }
  destruct Hno as [?| ->]; [done|].
  erewrite bind_Ok by exact H. cbv beta iota.
  destruct (Hend (rescheduled_state os j je vb wb)
              (rescheduled_record os j vb))
    as (w' & v' & E & Hlast & Hwt & Hrd & Hrn & Hv' & Hl' & Hc').
  { apply lookup_insert_eq. }
  { exact Hqb. }
  { by destruct v. }
  exists w', v'. rewrite Hc'. by repeat split.
Qed.

Lemma after_engine_ends_a_job_not_rescheduled_witness :
  ∃ w' v',
    after_engine sample_os sample_os false 2%nat fresh_jcr 1%nat
      (failed_backup 0) = Ok (false, w') ∧
    last (calls w') = Some (FreeJcr 1%nat) ∧
    heap w' !! 1%nat = Some v' ∧ reschedule_count (impl v') = 1.
Proof.
  destruct (after_engine_ends_a_job_not_rescheduled sample_os sample_os
              false 2%nat
              fresh_jcr 1%nat (failed_backup 0) _
              (sample_job 1%nat 5 false)
              ltac:(discriminate) eq_refl eq_refl (or_intror eq_refl))
    as (w' & v' & E & Hlast & _ & _ & _ & Hv' & _ & Hc).
  exists w', v'. done.
Defined.

(** * Properties of the promotion pass *)

Lemma AcquireResources_at_run (je : ptr) (ok : bool) (w w' : World) :
  AcquireResources_at je w = Ok (ok, w') →
  ∃ v v',
    je ≠ nullptr ∧ heap w !! je = Some v ∧
    heap w' = <[je := v']> (heap w) ∧ jq w' = jq w ∧
    res (impl v') = res (impl v) ∧ JobPriority v' = JobPriority v ∧
    JobCanceled v' = JobCanceled v ∧
    acquired_resource_locks (impl v') = ok.
Proof.
  unfold AcquireResources_at, load.
  destruct (decide (je = nullptr)); [discriminate|].
  rewrite bind_assoc. erewrite bind_Ok by reflexivity. cbv beta.
  destruct (heap w !! je) as [v|] eqn:Hv; [|discriminate].
  erewrite bind_Ok by reflexivity. cbv beta.
  unfold in_dir at 1. unfold mbind at 1, M_bind at 1.
  destruct (AcquireResources v (dir w)) as [[[ok' v'] d']|] eqn:E;
    [|discriminate].
  cbv beta iota. intros [= <- <-].
  exists v, v'. split; [done|]. split; [done|].
  split; [done|]. split; [done|]. by eapply AcquireResources_keeps.
Qed.

Lemma load_run (p : ptr) (v : JCR) (w w' : World) :
  load p w = Ok (v, w') → w' = w ∧ p ≠ nullptr ∧ heap w !! p = Some v.
Proof.
  unfold load. destruct (decide (p = nullptr)); [discriminate|].
  erewrite bind_Ok by reflexivity. cbv beta.
  destruct (heap w !! p); [|discriminate]. by intros [= <- <-].
Qed.

Lemma update_run (p : ptr) (f : JCR → JCR) (w w' : World) :
  update p f w = Ok (tt, w') →
  ∃ v, p ≠ nullptr ∧ heap w !! p = Some v ∧
       w' = set_heap (<[p := f v]> (heap w)) w.
Proof.
  unfold update. unfold mbind, M_bind.
  destruct (load p w) as [[v w1]|] eqn:E; [|discriminate].
  apply load_run in E as (-> & Hp & Hv). intros [= <-]. by exists v.
Qed.

Lemma correct_Priority_run (Priority : Z) (mix : bool) (jcr : JCR)
    (take : bool) (w w' : World) :
  correct_Priority Priority mix jcr w = Ok (take, w') →
  w' = w ∧
  (take = true →
   JobPriority jcr = Priority ∨ (JobPriority jcr < Priority ∧ mix = true)).
Proof.
  unfold correct_Priority.
  destruct (Z.eqb_spec (JobPriority jcr) Priority).
  { intros [= <- <-]. auto. }
  destruct (Z.ltb_spec (JobPriority jcr) Priority).
  2: { by intros [= <- <-]. }
  destruct (job (res (impl jcr))) as [j|]; [|discriminate]. cbn.
  intros [= <- <-]. split; [done|].
  intros [_ ->]%andb_true_iff. auto.
Qed.

Lemma filter_not_in_nil (l : list ptr) : filter (λ p, p ∉ []) l = l.
Proof.
  induction l as [|x l IH]; [done|].
  rewrite filter_cons_True by apply not_elem_of_nil. by rewrite IH.
Qed.

Lemma filter_not_in_cons (x : ptr) (moved l : list ptr) :
  filter (λ p, p ∉ moved) (list_remove x l)
  = filter (λ p, p ∉ x :: moved) l.
Proof.
  unfold list_remove. rewrite list_filter_filter.
  apply list_filter_iff. intros p. rewrite not_elem_of_cons. tauto.
Qed.

Lemma star_end (l : which_list) (q : jobq_t) :
  star q (end_ l q) = length (list_of l q).
Proof. unfold star, end_. cbn. by apply nth_overflow. Qed.

(** At the end of the list the walk ends when no job is left waiting,
    and else in a read through a pointer to no record. *)
Lemma waiting_walk_nil (fuel : nat) (Priority : Z) (mix : bool) (w : World) :
  waiting_walk fuel Priority mix [] w
  = if decide (waiting_jobs (jq w) = []) then Ok (tt, w)
    else Fault InvalidPointer.
Proof.
  destruct fuel; cbn [waiting_walk]; erewrite bind_Ok by reflexivity;
    cbv beta; rewrite star_end; cbn [list_of];
    destruct (waiting_jobs (jq w)) as [|p l]; done.
Qed.

(** The walk over the waiting jobs. The jobs it moves go, in the order
    of the walk, which is the order of the list, to the tail of the
    ready list and leave the waiting list, whose other entries stay in
    place; the records of jobs the walk has not come by are untouched;
    and each job moved passed the test of its priority and holds its
    locks or is canceled. *)
Lemma waiting_walk_moves (fuel : nat) (Priority : Z) (mix : bool)
    (rest : list ptr) (w w' : World) :
  waiting_walk fuel Priority mix rest w = Ok (tt, w') →
  ∃ moved,
    ready_jobs (jq w') = ready_jobs (jq w) ++ moved ∧
    waiting_jobs (jq w') = filter (λ p, p ∉ moved) (waiting_jobs (jq w)) ∧
    running_jobs (jq w') = running_jobs (jq w) ∧
    moved `sublist_of` rest ∧
    (∀ p, p ∉ rest → heap w' !! p = heap w !! p) ∧
    (∀ p, is_Some (heap w !! p) → is_Some (heap w' !! p)) ∧
    ∀ p, p ∈ moved →
      ∃ v', heap w' !! p = Some v' ∧
        (acquired_resource_locks (impl v') = true ∨ JobCanceled v' = true) ∧
        (JobPriority v' = Priority ∨ (JobPriority v' < Priority ∧ mix = true)).
Proof.
  revert rest w. induction fuel as [|fuel IH]; intros [|je rest] w.
  1, 3: rewrite waiting_walk_nil;
        (destruct (decide (waiting_jobs (jq w) = [])); [|discriminate]);
        intros [= <-]; exists []; rewrite app_nil_r, filter_not_in_nil;
        repeat split; auto using sublist_nil_l; by intros p ?%elem_of_nil.
  all: cbn [waiting_walk].
  { destruct (decide (je = nullptr)); [|discriminate].
    intros [= <-]; exists []; rewrite app_nil_r, filter_not_in_nil;
      repeat split; auto using sublist_nil_l; by intros p ?%elem_of_nil. }
  destruct (decide (je = nullptr)) as [|Hje].
  { intros [= <-]; exists []; rewrite app_nil_r, filter_not_in_nil;
      repeat split; auto using sublist_nil_l; by intros p ?%elem_of_nil. }
  unfold mbind at 1, M_bind at 1.
  destruct (load je w) as [[jcr w0]|] eqn:El; [|discriminate].
  apply load_run in El as (-> & _ & Hjcr).
  unfold mbind at 1, M_bind at 1.
  destruct (correct_Priority Priority mix jcr w) as [[take w0]|] eqn:Ec;
    [|discriminate].
  apply correct_Priority_run in Ec as [-> Htake].
  destruct take; cbn [negb].
  2: { intros E. apply update_run in E as (v & _ & Hv & ->).
       exists []. cbn [jq heap set_heap].
       rewrite app_nil_r, filter_not_in_nil.
       repeat split; auto using sublist_nil_l;
         try (by intros p ?%elem_of_nil).
       - intros p Hp. apply lookup_insert_ne. intros ->. apply Hp. by left.
       - intros p Hp. rewrite lookup_insert_is_Some.
         destruct (decide (je = p)); auto. }
  specialize (Htake eq_refl).
  unfold mbind at 1, M_bind at 1.
  destruct (AcquireResources_at je w) as [[acquired w1]|] eqn:Ea;
    [|discriminate].
  apply AcquireResources_at_run in Ea
    as (v & v1 & _ & Hv & Hh1 & Hq1 & Hres & Hprio & Hcan & Hlocks).
  assert (v = jcr) as -> by congruence.
  assert (Hv1 : heap w1 !! je = Some v1)
    by (rewrite Hh1; apply lookup_insert_eq).
  erewrite bind_Ok by (by apply load_ok). cbv beta.
  assert (Hframe1 : ∀ p, p ≠ je → heap w1 !! p = heap w !! p)
    by (intros p Hp; rewrite Hh1; by apply lookup_insert_ne).
  assert (Hlive1 : ∀ p, is_Some (heap w !! p) → is_Some (heap w1 !! p)).
  { intros p Hp. rewrite Hh1, lookup_insert_is_Some.
    destruct (decide (je = p)); auto. }
  destruct (negb acquired && negb (JobCanceled v1)) eqn:Hgo.
  - intros E. apply IH in E
      as (moved & Hrd & Hwt & Hrn & Hsub & Hfr & Hlive & Hprom).
    exists moved. rewrite Hrd, Hwt, Hrn, Hq1.
    repeat split; auto.
    + by apply sublist_cons.
    + intros p Hp. rewrite Hfr by (intros ?; apply Hp; by right).
      apply Hframe1. intros ->. apply Hp. by left.
  - erewrite bind_Ok by reflexivity. erewrite bind_Ok by reflexivity.
    cbv beta. destruct (bool_decide (head rest = Some je)); [discriminate|].
    set (w2 := set_jq _ _).
    intros E. apply IH in E
      as (moved & Hrd & Hwt & Hrn & Hsub & Hfr & Hlive & Hprom).
    assert (Hnot : je ∉ list_remove je rest).
    { unfold list_remove. rewrite list_elem_of_filter. by intros [? _]. }
    exists (je :: moved). rewrite Hrd, Hwt, Hrn. unfold w2.
    cbn [jq set_jq ready_jobs waiting_jobs running_jobs set_ready_jobs
         set_waiting_jobs heap] in *. rewrite Hq1.
    split; [by rewrite <- app_assoc|].
    split; [apply filter_not_in_cons|]. split; [done|].
    split.
    { apply sublist_skip. etrans; [exact Hsub|]. apply sublist_filter. }
    split.
    { intros p Hp. rewrite Hfr.
      - apply Hframe1. intros ->. apply Hp. by left.
      - unfold list_remove. rewrite list_elem_of_filter.
        intros [_ ?]. apply Hp. by right. }
    split; [auto|].
    intros p [->|Hp]%elem_of_cons; [|by apply Hprom].
    exists v1. split; [by rewrite Hfr|]. split.
    + apply andb_false_iff in Hgo as [Hgo|Hgo];
        apply negb_false_iff in Hgo; [left|right]; congruence.
    + rewrite Hprio. exact Htake.
Qed.

Lemma running_walk_run (wend re : iterator) (rest : list ptr) (b : bool)
    (w w' : World) :
  running_walk wend re rest w = Ok (b, w') → w' = w.
Proof.
  revert re. induction rest as [|r rest IH]; intros re; cbn [running_walk];
    (destruct (decide (re ≠ wend)); [|by intros [= <- <-]]);
    [discriminate|].
  unfold mbind, M_bind.
  destruct (load r w) as [[v w0]|] eqn:El; [|discriminate].
  apply load_run in El as (-> & _ & _).
  destruct (job (res (impl v))) as [j|]; [|discriminate]. cbn.
  destruct (allow_mixed_priority j); cbn [negb]; [apply IH|].
  by intros [= <- <-].
Qed.

(** What a promotion pass that comes to its end has done: the priority
    it looked for is the one of the record at [cohort], the walk over
    the running jobs has not found that all of them allow mixed
    priorities, and the walk over the waiting jobs has run from the
    head of the list in the state the pass started in. *)
Lemma promote_waiting_run (w w' : World) :
  promote_waiting w = Ok (tt, w') →
  w' = w ∨
  ∃ vc,
    heap w !! cohort (jq w) = Some vc ∧
    waiting_walk (length (waiting_jobs (jq w))) (JobPriority vc) false
      (waiting_jobs (jq w)) w = Ok (tt, w').
Proof.
  unfold promote_waiting. erewrite bind_Ok by reflexivity. cbv beta zeta.
  destruct (negb (bool_decide (waiting_jobs (jq w) = []))
            && negb (quit (jq w))); [|intros [= <-]; by left].
  unfold cohort. intros E. right.
  destruct (decide (star (jq w) (begin_ Running) ≠ nullptr)).
  - revert E. unfold mbind at 1, M_bind at 1.
    destruct (load (star (jq w) (begin_ Running)) w) as [[r w0]|] eqn:El;
      [|discriminate].
    apply load_run in El as (-> & _ & Hr).
    unfold mbind at 1, M_bind at 1.
    destruct (running_walk (end_ Waiting (jq w)) (begin_ Running)
                (running_jobs (jq w)) w) as [[mix w0]|] eqn:Er;
      [|discriminate].
    pose proof (running_walk_run _ _ _ _ _ _ Er) as ->.
    destruct mix.
    { exfalso. by eapply running_walk_never_true; [|exact Er]. }
    cbn [drop begin_ it_pos]. intros E. by exists r.
  - revert E. unfold mbind at 1, M_bind at 1.
    destruct (load (star (jq w) (begin_ Waiting)) w) as [[r w0]|] eqn:El;
      [|discriminate].
    apply load_run in El as (-> & _ & Hr).
    cbn [drop begin_ it_pos]. intros E. by exists r.
Qed.

(** X14. A promotion pass that comes to its end moves jobs from the
    waiting list to the tail of the ready list, in the order of the
    waiting list: the jobs moved, in the order they have on the ready
    list, are a subsequence of the waiting list. The pass does nothing
    else to the three lists: the jobs not moved keep their places and
    the running list is as it was. A job is made ready only with all
    its permits acquired, or canceled. *)
Theorem promotion_readies_admitted_or_canceled_jobs (w w' : World) :
  promote_waiting w = Ok (tt, w') →
  ∃ moved,
    ready_jobs (jq w') = ready_jobs (jq w) ++ moved ∧
    moved `sublist_of` waiting_jobs (jq w) ∧
    waiting_jobs (jq w') = filter (λ p, p ∉ moved) (waiting_jobs (jq w)) ∧
    running_jobs (jq w') = running_jobs (jq w) ∧
    ∀ p, p ∈ moved →
      p ∈ waiting_jobs (jq w) ∧
      ∃ v', heap w' !! p = Some v' ∧
        (acquired_resource_locks (impl v') = true ∨ JobCanceled v' = true).
Proof.
  intros [->|(vc & _ & E)]%promote_waiting_run.
  { exists []. rewrite app_nil_r, filter_not_in_nil.
    split; [done|]. split; [apply sublist_nil_l|].
    split; [done|]. split; [done|].
    by intros p ?%elem_of_nil. }
  apply waiting_walk_moves in E
    as (moved & Hrd & Hwt & Hrn & Hsub & _ & _ & Hprom).
  exists moved. split; [done|]. split; [done|]. split; [done|].
  split; [done|].
  intros p Hp. split; [by eapply elem_of_sublist|].
  destruct (Hprom p Hp) as (v' & Hv' & Hl & _). eauto.
Qed.

(** X15. A promotion pass that comes to its end readies jobs of one
    priority only: the priority of the first running job, or of the
    first waiting job when none runs. A waiting job of another
    priority value, smaller ones included, is never made ready by it,
    whatever the jobs allow about mixed priorities. *)
Theorem promotion_readies_one_priority (w w' : World) (p : ptr) :
  promote_waiting w = Ok (tt, w') →
  p ∈ ready_jobs (jq w') → p ∉ ready_jobs (jq w) →
  ∃ v' vc,
    heap w' !! p = Some v' ∧ heap w !! cohort (jq w) = Some vc ∧
    JobPriority v' = JobPriority vc.
Proof.
  intros [->|(vc & Hvc & E)]%promote_waiting_run Hin Hnot; [done|].
  apply waiting_walk_moves in E
    as (moved & Hrd & _ & _ & _ & _ & _ & Hprom).
  rewrite Hrd, elem_of_app in Hin. destruct Hin as [?|Hin]; [done|].
  destruct (Hprom p Hin) as (v' & Hv' & _ & [Hp|[_ ?]]); [|done].
  by exists v', vc.
Qed.

Lemma promotion_readies_admitted_or_canceled_jobs_witness :
  ∃ w' v',
    promote_waiting three_waiting = Ok (tt, w') ∧
    ready_jobs (jq w') = [1%nat] ∧ waiting_jobs (jq w') = [2%nat; 3%nat] ∧
    heap w' !! 1%nat = Some v' ∧
    (acquired_resource_locks (impl v') = true ∨ JobCanceled v' = true).
Proof.
  destruct (promote_waiting three_waiting) as [[[] w']|] eqn:E;
    [|vm_compute in E; discriminate].
  destruct (promotion_readies_admitted_or_canceled_jobs three_waiting w' E)
    as (moved & Hrd & _ & Hwt & _ & Hprom).
  assert (Hready : ready_jobs (jq w') = [1%nat])
    by (vm_compute in E; by injection E as <-).
  rewrite Hready in Hrd. cbn in Hrd. subst moved.
  destruct (Hprom 1%nat) as (_ & v' & Hv' & Hl); [by left|].
  exists w', v'. split; [reflexivity|]. split; [exact Hready|].
  split; [|by split]. rewrite Hwt. reflexivity.
Defined.

Lemma promotion_readies_one_priority_witness :
  ∃ w' v',
    promote_waiting three_waiting = Ok (tt, w') ∧
    1%nat ∈ ready_jobs (jq w') ∧ heap w' !! 1%nat = Some v' ∧
    JobPriority v' = 10.
Proof.
  destruct (promote_waiting three_waiting) as [[[] w']|] eqn:E;
    [|vm_compute in E; discriminate].
  assert (Hready : ready_jobs (jq w') = [1%nat])
    by (vm_compute in E; by injection E as <-).
  assert (Hin : 1%nat ∈ ready_jobs (jq w'))
    by (rewrite Hready; by left).
  destruct (promotion_readies_one_priority three_waiting w' 1%nat E Hin)
    as (v' & vc & Hv' & Hvc & Hp); [by intros ?%elem_of_nil|].
  vm_compute in Hvc. injection Hvc as <-.
  exists w', v'. done.
Defined.

(** ** When the pass comes to its end *)

Lemma AcquireResources_at_total (je : ptr) (v : JCR) (w : World) :
  je ≠ nullptr → heap w !! je = Some v → is_Some (job (res (impl v))) →
  ∃ ok w', AcquireResources_at je w = Ok (ok, w').
Proof.
  intros Hp Hv [j Hj]. unfold AcquireResources_at.
  erewrite bind_Ok by (by apply load_ok). cbv beta.
  destruct (AcquireResources_outcome v (dir w) j Hj)
    as (ok & v' & d' & E & _).
  unfold in_dir at 1. unfold mbind at 1, M_bind at 1. rewrite E.
  cbv beta iota. erewrite bind_Ok by reflexivity. by eexists _, _.
Qed.

Lemma records_valid_insert (h : gmap ptr JCR) (l : list ptr) (p : ptr)
    (v : JCR) :
  is_Some (job (res (impl v))) →
  records_valid h l → records_valid (<[p := v]> h) l.
Proof.
  intros Hj Hl q Hq. destruct (Hl q Hq) as (Hn & u & Hu & Hju).
  split; [done|]. destruct (decide (p = q)) as [->|Hne].
  - exists v. by rewrite lookup_insert_eq.
  - exists u. by rewrite lookup_insert_ne.
Qed.

Lemma list_remove_not_in (x : ptr) (l : list ptr) :
  x ∉ l → list_remove x l = l.
Proof.
  intros Hx. unfold list_remove. induction l as [|y l IH]; [done|].
  apply not_elem_of_cons in Hx as [Hne Hx].
  rewrite filter_cons_True by done. by rewrite IH.
Qed.

Lemma list_remove_middle (x : ptr) (l1 l2 : list ptr) :
  x ∉ l1 → x ∉ l2 → list_remove x (l1 ++ x :: l2) = l1 ++ l2.
Proof.
  intros H1 H2. unfold list_remove.
  rewrite filter_app, filter_cons_False by (by intros ?).
  fold (list_remove x l1). fold (list_remove x l2).
  by rewrite !list_remove_not_in.
Qed.

(** The ways the walk over distinct live waiting records ends, when the
    running jobs do not allow mixed priorities. [kept] holds the entries
    the walk has left on the list, [rest] those to come. The walk ends
    with no job left waiting, or at a job of another priority, which it
    marks; and when neither happens it reads past the end of the
    list. *)
Lemma waiting_walk_ends (fuel : nat) (Priority : Z) (kept rest : list ptr)
    (w : World) :
  (length rest ≤ fuel)%nat →
  waiting_jobs (jq w) = kept ++ rest → NoDup (kept ++ rest) →
  records_valid (heap w) rest →
  (∃ w',
     waiting_walk fuel Priority false rest w = Ok (tt, w') ∧
     (waiting_jobs (jq w') = [] ∨
      ∃ p v', p ∈ waiting_jobs (jq w') ∧ heap w' !! p = Some v' ∧
              JobStatus v' = JS_WaitPriority ∧ JobPriority v' ≠ Priority))
  ∨ (waiting_walk fuel Priority false rest w = Fault InvalidPointer ∧
     ∀ p, p ∈ rest → ∃ v, heap w !! p = Some v ∧ JobPriority v = Priority).
Proof.
  revert kept rest w.
  induction fuel as [|fuel IH]; intros kept [|je rest] w Hlen Hw Hnd Hval.
  1, 3: rewrite waiting_walk_nil;
        (destruct (decide (waiting_jobs (jq w) = []));
         [left; eexists; split; [reflexivity|by left]
         |right; split; [done|by intros p ?%elem_of_nil]]).
  { cbn [length] in Hlen. lia. }
  cbn [waiting_walk]. cbn [length] in Hlen.
  destruct (Hval je) as (Hje & v & Hv & [j Hj]); [by left|].
  rewrite decide_False by done.
  erewrite bind_Ok by (by apply load_ok). cbv beta.
  apply NoDup_app in Hnd as (Hndk & Hdisj & Hndr).
  apply NoDup_cons in Hndr as [Hnot Hndr].
  assert (Hnotk : je ∉ kept) by (intros Hin; apply (Hdisj je Hin); by left).
  unfold correct_Priority.
  destruct (Z.eqb_spec (JobPriority v) Priority) as [Heq|Hneq].
  2: { left.
       assert (Et : (if JobPriority v <? Priority
                     then j ← deref (job (res (impl v)));
                          ret (allow_mixed_priority j && false)
                     else ret false) w = Ok (false, w)).
       { destruct (JobPriority v <? Priority); [|done]. rewrite Hj.
         erewrite bind_Ok by reflexivity. cbv beta.
         by rewrite andb_false_r. }
       erewrite bind_Ok by exact Et. cbv beta. cbn [negb].
       eexists. split; [by apply update_ok|]. right.
       exists je, (setJobStatus JS_WaitPriority v).
       cbn [jq heap set_heap]. split.
       { rewrite Hw, elem_of_app. right. by left. }
       split; [apply lookup_insert_eq|]. by split. }
  erewrite bind_Ok by reflexivity. cbv beta. cbn [negb].
  destruct (AcquireResources_at_total je v w Hje Hv) as (ok & w1 & Ea);
    [by rewrite Hj|].
  erewrite bind_Ok by exact Ea. cbv beta.
  apply AcquireResources_at_run in Ea
    as (v0 & v1 & _ & Hv0 & Hh1 & Hq1 & Hres & Hprio & _).
  assert (v0 = v) as -> by congruence.
  assert (Hv1 : heap w1 !! je = Some v1)
    by (rewrite Hh1; apply lookup_insert_eq).
  erewrite bind_Ok by (by apply load_ok). cbv beta.
  assert (Hval1 : records_valid (heap w1) rest).
  { rewrite Hh1. apply records_valid_insert; [by rewrite Hres, Hj|].
    intros p Hp. apply Hval. by right. }
  assert (Hback :
    (∀ p, p ∈ rest → ∃ u, heap w1 !! p = Some u ∧ JobPriority u = Priority) →
    ∀ p, p ∈ je :: rest → ∃ u, heap w !! p = Some u ∧ JobPriority u = Priority).
  { intros Hall p [->|Hp]%elem_of_cons; [by exists v|].
    destruct (Hall p Hp) as (u & Hu & Hpu). exists u. split; [|done].
    rewrite Hh1, lookup_insert_ne in Hu; [done|]. by intros ->. }
  destruct (negb ok && negb (JobCanceled v1)).
  - destruct (IH (kept ++ [je]) rest w1) as [Hok|[Ef Hall]];
      [lia|by rewrite Hq1, Hw, <- app_assoc| |done|by left|].
    { rewrite <- app_assoc. apply NoDup_app. split; [done|].
      split; [done|]. by apply NoDup_cons. }
    right. split; [done|]. by apply Hback.
  - erewrite bind_Ok by reflexivity. erewrite bind_Ok by reflexivity.
    cbv beta. rewrite bool_decide_eq_false_2.
    2: { intros Hh. apply Hnot. apply head_Some in Hh as [l' ->]. by left. }
    rewrite list_remove_not_in by done.
    set (w2 := set_jq _ _).
    destruct (IH kept rest w2) as [Hok|[Ef Hall]];
      [lia| | |done|by left|].
    { unfold w2. cbn [jq set_jq waiting_jobs set_ready_jobs
                      set_waiting_jobs].
      rewrite Hq1, Hw. by apply list_remove_middle. }
    { apply NoDup_app. split; [done|]. split; [|done].
      intros p Hp Hin. apply (Hdisj p Hp). by right. }
    right. split; [done|]. by apply Hback.
Qed.

Lemma running_walk_total (wend re : iterator) (l : list ptr) (w : World) :
  mixing_refused (heap w) l →
  ∃ mix, running_walk wend re l w = Ok (mix, w).
Proof.
  intros (l1 & r & l2 & v & j & -> & Hl1 & Hr & Hv & Hj & Hmix).
  revert re. induction l1 as [|p l1 IH]; intros re; cbn [app running_walk].
  - destruct (decide (re ≠ wend)); [|by eexists].
    erewrite bind_Ok by (by apply load_ok). cbv beta. rewrite Hj.
    erewrite bind_Ok by reflexivity. cbv beta. rewrite Hmix. by eexists.
  - destruct (decide (re ≠ wend)); [|by eexists].
    destruct (Hl1 p) as (Hp & vp & jp & Hvp & Hjp & Hmp); [by left|].
    erewrite bind_Ok by (by apply load_ok). cbv beta. rewrite Hjp.
    erewrite bind_Ok by reflexivity. cbv beta. rewrite Hmp. cbn [negb].
    apply IH. intros q Hq. apply Hl1. by right.
Qed.

(** X16. The ways a promotion pass ends. Over distinct live waiting
    records with a job definition, when no job runs or the walk over
    the running jobs meets a job that does not allow mixed priorities,
    a pass ends in one of three ways. It moves every waiting job to the
    ready list; or it stops at the first job of another priority than
    the one it looks for, which it marks [JS_WaitPriority]; or, every
    waiting job being of that priority and one of them staying on the
    list for want of a resource, the walk comes to the end of the list,
    where the test [*je] of its loop reads the size of the list, and
    the pass ends in a read through a pointer to no record. *)
Theorem promotion_ends_or_reads_past_the_end (w : World) :
  records_valid (heap w) (waiting_jobs (jq w)) →
  NoDup (waiting_jobs (jq w)) →
  running_jobs (jq w) = []
    ∨ mixing_refused (heap w) (running_jobs (jq w)) →
  waiting_jobs (jq w) ≠ [] → quit (jq w) = false →
  ∃ vc,
    heap w !! cohort (jq w) = Some vc ∧
    ((∃ w',
        promote_waiting w = Ok (tt, w') ∧
        (waiting_jobs (jq w') = [] ∨
         ∃ p v', p ∈ waiting_jobs (jq w') ∧ heap w' !! p = Some v' ∧
                 JobStatus v' = JS_WaitPriority ∧
                 JobPriority v' ≠ JobPriority vc))
     ∨ (promote_waiting w = Fault InvalidPointer ∧
        ∀ p, p ∈ waiting_jobs (jq w) →
             ∃ v, heap w !! p = Some v ∧ JobPriority v = JobPriority vc)).
Proof.
  intros Hval Hnd Hrun Hne Hq. unfold promote_waiting, cohort.
  assert (Hwalk : ∀ P,
    (∃ w',
       waiting_walk (length (waiting_jobs (jq w))) P false
         (waiting_jobs (jq w)) w = Ok (tt, w') ∧
       (waiting_jobs (jq w') = [] ∨
        ∃ p v', p ∈ waiting_jobs (jq w') ∧ heap w' !! p = Some v' ∧
                JobStatus v' = JS_WaitPriority ∧ JobPriority v' ≠ P))
    ∨ (waiting_walk (length (waiting_jobs (jq w))) P false
         (waiting_jobs (jq w)) w = Fault InvalidPointer ∧
       ∀ p, p ∈ waiting_jobs (jq w) →
            ∃ v, heap w !! p = Some v ∧ JobPriority v = P)).
  { intros P. by apply (waiting_walk_ends _ P []). }
  assert (Hgo : negb (bool_decide (waiting_jobs (jq w) = []))
                && negb (quit (jq w)) = true)
    by (by rewrite bool_decide_eq_false_2, Hq).
  destruct Hrun as [Hrun|Hrun].
  - assert (Hstar : star (jq w) (begin_ Running) = nullptr)
      by (unfold star; cbn; by rewrite Hrun).
    rewrite Hstar, decide_False by (by intros ?).
    destruct (waiting_jobs (jq w)) as [|p l] eqn:Hw; [done|].
    destruct (Hval p) as (Hp & v & Hv & Hj); [by left|].
    assert (Hs : star (jq w) (begin_ Waiting) = p)
      by (unfold star; cbn; by rewrite Hw).
    rewrite Hs. exists v. split; [done|].
    erewrite bind_Ok by reflexivity. cbv beta zeta.
    rewrite Hw, Hgo, Hstar, decide_False by (by intros ?).
    rewrite Hs. cbn [drop begin_ it_pos].
    destruct (Hwalk (JobPriority v)) as [(w' & E & H)|[E H]].
    + left. exists w'. split; [|done].
      by erewrite bind_Ok by (by apply load_ok).
    + right. split; [|done].
      by erewrite bind_Ok by (by apply load_ok).
  - pose proof Hrun as (l1 & r & l2 & v & j & Hl & Hl1 & Hr & Hv & Hj & _).
    assert (Hhd : ∃ h vh, star (jq w) (begin_ Running) = h ∧ h ≠ nullptr ∧
                          heap w !! h = Some vh).
    { unfold star. cbn. rewrite Hl. destruct l1 as [|p l1]; cbn.
      - by exists r, v.
      - destruct (Hl1 p) as (Hp & vp & jp & Hvp & _); [by left|].
        by exists p, vp. }
    destruct Hhd as (h & vh & Hstar & Hh & Hvh).
    rewrite Hstar, decide_True by done. exists vh. split; [done|].
    erewrite bind_Ok by reflexivity. cbv beta zeta.
    rewrite Hgo, Hstar, decide_True by done.
    cbn [drop begin_ it_pos].
    destruct (running_walk_total (end_ Waiting (jq w)) (begin_ Running)
                (running_jobs (jq w)) w Hrun) as [mix Em].
    assert (mix = false) as ->.
    { destruct mix; [|done]. exfalso.
      by eapply running_walk_never_true; [|exact Em]. }
    destruct (Hwalk (JobPriority vh)) as [(w' & E & H)|[E H]].
    + left. exists w'. split; [|done].
      erewrite bind_Ok by (by apply load_ok). cbv beta.
      by erewrite bind_Ok by exact Em.
    + right. split; [|done].
      erewrite bind_Ok by (by apply load_ok). cbv beta.
      by erewrite bind_Ok by exact Em.
Qed.

Lemma promotion_ends_or_reads_past_the_end_witness :
  promote_waiting two_contending = Fault InvalidPointer ∧
  ∃ w',
    promote_waiting three_waiting = Ok (tt, w') ∧
    JobStatus <$> heap w' !! 3%nat = Some JS_WaitPriority.
Proof.
  assert (Hvalid : ∀ l,
    l ⊆ [1%nat; 2%nat; 3%nat] → records_valid (heap three_waiting) l).
  { intros l Hl p Hp. apply Hl in Hp. cbn in Hp.
    repeat (apply elem_of_cons in Hp as [->|Hp]);
      [| | |by apply elem_of_nil in Hp];
      (split; [discriminate|]); eexists; (split; [reflexivity|]);
      by eexists. }
  split.
  - destruct (promotion_ends_or_reads_past_the_end two_contending)
      as (vc & _ & [(w' & E & _)|[E _]]).
    + intros p Hp. cbn in Hp.
      repeat (apply elem_of_cons in Hp as [->|Hp]);
        [| |by apply elem_of_nil in Hp];
        (split; [discriminate|]); eexists; (split; [reflexivity|]);
        by eexists.
    + cbn. repeat constructor; rewrite ?not_elem_of_cons;
        repeat split; try discriminate; apply not_elem_of_nil.
    + by left.
    + discriminate.
    + reflexivity.
    + vm_compute in E. discriminate.
    + exact E.
  - destruct (promotion_ends_or_reads_past_the_end three_waiting)
      as (vc & _ & [(w' & E & _)|[E _]]).
    + by apply Hvalid.
    + cbn. repeat constructor; rewrite ?not_elem_of_cons;
        repeat split; try discriminate; apply not_elem_of_nil.
    + by left.
    + discriminate.
    + reflexivity.
    + exists w'. split; [exact E|].
      vm_compute in E. by injection E as <-.
    + vm_compute in E. discriminate.
Defined.

(** ** The pass and the counters *)

Lemma AcquireResources_at_counters (je : ptr) (ok : bool) (v : JCR)
    (w w' : World) :
  AcquireResources_at je w = Ok (ok, w') →
  heap w !! je = Some v → is_Some (job (res (impl v))) →
  ∃ v',
    heap w' = <[je := v']> (heap w) ∧
    acquired_resource_locks (impl v') = ok ∧
    shifted (dir w) (dir w')
      (λ c n, if ok then units_of (needed v') v' c n else 0).
Proof.
  unfold AcquireResources_at, load. intros E Hv [j Hj]. revert E.
  destruct (decide (je = nullptr)); [discriminate|].
  rewrite bind_assoc. erewrite bind_Ok by reflexivity. cbv beta.
  rewrite Hv. erewrite bind_Ok by reflexivity. cbv beta.
  unfold in_dir at 1. unfold mbind at 1, M_bind at 1.
  destruct (AcquireResources v (dir w)) as [[[ok' v'] d']|] eqn:E;
    [|discriminate].
  cbv beta iota. intros [= <- <-]. exists v'. split; [done|].
  pose proof (AcquireResources_keeps _ _ _ _ _ E) as (_ & _ & _ & Hl).
  split; [done|]. cbn [dir set_heap set_dir].
  destruct ok'.
  - destruct (AcquireResources_success v v' (dir w) d' j Hj E)
      as (-> & a1 & a2 & a3 & _ & S1 & _ & S2 & _ & S3 & _ & S4).
    intros c name. rewrite units_of_needed, !unit_at_locks.
    revert c name. shifts.
  - destruct (AcquireResources_outcome v (dir w) j Hj)
      as (ok2 & v2 & d2 & E2 & Hs).
    rewrite E in E2. injection E2 as <- <- <-.
    specialize (Hs eq_refl). intros c name. rewrite Hs. lia.
Qed.

Lemma waiting_walk_counters (fuel : nat) (Priority : Z) (mix : bool)
    (rest : list ptr) (w w' : World) :
  waiting_walk fuel Priority mix rest w = Ok (tt, w') →
  records_valid (heap w) rest →
  ∃ moved,
    ready_jobs (jq w') = ready_jobs (jq w) ++ moved ∧
    shifted (dir w) (dir w') (held_units (heap w') moved).
Proof.
  assert (Hnone : ∀ x : World,
    ∃ moved, ready_jobs (jq x) = ready_jobs (jq x) ++ moved ∧
             shifted (dir x) (dir x) (held_units (heap x) moved)).
  { intros x. exists []. rewrite app_nil_r. split; [done|].
    intros c n. cbn. lia. }
  revert rest w. induction fuel as [|fuel IH]; intros [|je rest] w.
  1, 3: rewrite waiting_walk_nil;
        (destruct (decide (waiting_jobs (jq w) = [])); [|discriminate]);
        intros [= <-] _; apply Hnone.
  all: cbn [waiting_walk].
  { destruct (decide (je = nullptr)); [|discriminate].
    intros [= <-] _; apply Hnone. }
  destruct (decide (je = nullptr)) as [|Hje];
    [intros [= <-] _; apply Hnone|].
  intros E Hval.
  destruct (Hval je) as (_ & v & Hv & Hj); [by left|].
  erewrite bind_Ok in E by (by apply load_ok). cbv beta in E.
  unfold mbind at 1, M_bind at 1 in E.
  destruct (correct_Priority Priority mix v w) as [[take w0]|] eqn:Ec;
    [|discriminate].
  apply correct_Priority_run in Ec as [-> _].
  destruct take; cbn [negb] in E.
  2: { apply update_run in E as (v0 & _ & _ & ->).
       exists []. cbn. rewrite app_nil_r. split; [done|].
       intros c n. lia. }
  unfold mbind at 1, M_bind at 1 in E.
  destruct (AcquireResources_at je w) as [[acquired w1]|] eqn:Ea;
    [|discriminate].
  pose proof (AcquireResources_at_run _ _ _ _ Ea)
    as (v0 & v1' & _ & Hv0 & Hh1' & Hq1 & Hres & _).
  assert (v0 = v) as -> by congruence.
  destruct (AcquireResources_at_counters _ _ v _ _ Ea Hv Hj)
    as (v1 & Hh1 & Hl1 & Hs1).
  assert (Hv1 : heap w1 !! je = Some v1)
    by (rewrite Hh1; apply lookup_insert_eq).
  assert (Hj1 : is_Some (job (res (impl v1)))).
  { assert (Hsame : heap w1 !! je = Some v1')
      by (rewrite Hh1'; apply lookup_insert_eq).
    rewrite Hv1 in Hsame. injection Hsame as ->. by rewrite Hres. }
  erewrite bind_Ok in E by (by apply load_ok). cbv beta in E.
  assert (Hval1 : records_valid (heap w1) rest).
  { rewrite Hh1. apply records_valid_insert; [done|].
    intros p Hp. apply Hval. by right. }
  destruct (negb acquired && negb (JobCanceled v1)) eqn:Hgo.
  - apply andb_true_iff in Hgo as [->%negb_true_iff _].
    apply IH in E as (moved & Hrd & Hs); [|done].
    exists moved. rewrite Hrd, Hq1. split; [done|].
    intros c n. rewrite (Hs c n), (Hs1 c n). lia.
  - erewrite bind_Ok in E by reflexivity.
    erewrite bind_Ok in E by reflexivity. cbv beta in E.
    destruct (bool_decide (head rest = Some je)); [discriminate|].
    set (w2 := set_jq _ _) in E.
    assert (Hval2 : records_valid (heap w2) (list_remove je rest)).
    { intros p Hp. apply Hval1. unfold list_remove in Hp.
      by apply list_elem_of_filter in Hp as [_ ?]. }
    pose proof (waiting_walk_moves _ _ _ _ _ _ E)
      as (moved' & Hrd' & _ & _ & _ & Hfr & _).
    apply IH in E as (moved & Hrd & Hs); [|done].
    assert (moved' = moved) as ->
      by (rewrite Hrd in Hrd'; by apply app_inv_head in Hrd').
    exists (je :: moved). split.
    { rewrite Hrd. unfold w2. cbn. rewrite Hq1, <- app_assoc. done. }
    assert (Hje' : heap w' !! je = Some v1).
    { rewrite Hfr; [done|]. unfold list_remove.
      rewrite list_elem_of_filter. by intros [? _]. }
    intros c n. cbn [held_units]. rewrite Hje', Hl1.
    rewrite (Hs c n). change (dir w2) with (dir w1). rewrite (Hs1 c n).
    destruct acquired; lia.
Qed.

(** X17. The counters account for the jobs made ready. A promotion pass
    over valid waiting records raises the counters by the permits of
    the jobs it moved to the ready list with their locks, and by
    nothing else: a job that stays on the waiting list, whatever
    permits its attempt took on the way, and a canceled job readied
    without locks leave no trace in the counters. *)
Theorem promotion_accounts_for_every_permit (w w' : World) :
  records_valid (heap w) (waiting_jobs (jq w)) →
  promote_waiting w = Ok (tt, w') →
  ∃ moved,
    ready_jobs (jq w') = ready_jobs (jq w) ++ moved ∧
    shifted (dir w) (dir w') (held_units (heap w') moved).
Proof.
  intros Hval [->|(vc & _ & E)]%promote_waiting_run.
  - exists []. rewrite app_nil_r. split; [done|]. intros c n. cbn. lia.
  - by apply waiting_walk_counters in E.
Qed.

Lemma promotion_accounts_for_every_permit_witness :
  ∃ w',
    promote_waiting three_waiting = Ok (tt, w') ∧
    ready_jobs (jq w') = [1%nat] ∧
    value (dir w') CStore 9%nat = 1 ∧ value (dir w') CJob 1%nat = 1 ∧
    value (dir w') CJob 2%nat = 0.
Proof.
  destruct (promote_waiting three_waiting) as [[[] w']|] eqn:E;
    [|vm_compute in E; discriminate].
  destruct (promotion_accounts_for_every_permit three_waiting w')
    as (moved & Hrd & Hs); [|exact E|].
  { intros p Hp. cbn in Hp.
    repeat (apply elem_of_cons in Hp as [->|Hp]);
      [| | |by apply elem_of_nil in Hp];
      (split; [discriminate|]); eexists; (split; [reflexivity|]);
      by eexists. }
  assert (Hready : ready_jobs (jq w') = [1%nat])
    by (vm_compute in E; by injection E as <-).
  rewrite Hready in Hrd. cbn in Hrd. subst moved.
  assert (Hh : heap w' !! (1%nat : ptr)
               = Some (with_impl (set_acquired_resource_locks true)
                         (storage_jcr 1 10 1%nat)))
    by (vm_compute in E; by injection E as <-).
  assert (Hu : ∀ c n, value (dir w') c n
            = units_of [Wstore; Job] (storage_jcr 1 10 1%nat) c n).
  { intros c n. rewrite (Hs c n). unfold held_units. rewrite Hh.
    destruct c; cbn; lia. }
  exists w'. split; [reflexivity|]. split; [exact Hready|].
  repeat split; rewrite Hu; reflexivity.
Defined.

(** * Creating and destroying the queue *)

(** X18. [JobqInit] returns the first status other than zero among
    those of [pthread_attr_init], [pthread_attr_setdetachstate],
    [pthread_mutex_init] and [pthread_cond_init], and zero when there is
    none. On success the queue is valid and not quitting, has no worker
    and no job on its lists, carries the given [max_workers] and engine,
    and its three pthread objects are live. On failure the fields of the
    queue and its engine are as they were, so that a queue that was not
    valid is not valid now, and no pthread object is left live: each
    object initialised before the failing call has been destroyed. An
    error message is written for every failure but that of
    [pthread_attr_setdetachstate]. *)
Theorem JobqInit_all_or_nothing (a : Pthread) (workers : Z)
    (routine : nat) (s : Queue) :
  objects s = none_live →
  let st := first_failure [pthread_attr_init a; pthread_attr_setdetachstate a;
                           pthread_mutex_init a; pthread_cond_init a] in
  ∃ s',
    JobqInit a workers routine s = Ok (st, s') ∧
    if st =? 0 then
      fields s' = {| valid := true; quit := false;
                     max_workers := workers; num_workers := 0;
                     waiting_jobs := []; ready_jobs := [];
                     running_jobs := [] |} ∧
      engine s' = routine ∧
      objects s' = {| attr_live := true; mutex_live := true;
                      work_live := true |} ∧
      errors s' = errors s
    else
      fields s' = fields s ∧ engine s' = engine s ∧
      objects s' = none_live ∧
      errors s' = errors s ++
        (if (pthread_attr_init a =? 0)
            && negb (pthread_attr_setdetachstate a =? 0) then []
         else [(if negb (pthread_attr_init a =? 0) then attr_init
                else if negb (pthread_mutex_init a =? 0) then mutex_init
                else cond_init, st)]).
Proof.
  intros Hobj st. subst st. unfold JobqInit, first_failure. cbv zeta.
  destruct s as [q e o errs]. cbn in Hobj. subst o.
  destruct (pthread_attr_init a =? 0) eqn:E1; cbn [negb andb].
  2: { eexists. split; [reflexivity|]. rewrite E1. by cbn. }
  destruct (pthread_attr_setdetachstate a =? 0) eqn:E2; cbn [negb andb].
  2: { eexists. split; [reflexivity|]. rewrite E2. cbn.
       by rewrite app_nil_r. }
  destruct (pthread_mutex_init a =? 0) eqn:E3; cbn [negb andb].
  2: { eexists. split; [reflexivity|]. rewrite E3. by cbn. }
  destruct (pthread_cond_init a =? 0) eqn:E4; cbn [negb andb].
  2: { eexists. split; [reflexivity|]. rewrite E4. by cbn. }
  eexists. split; [reflexivity|]. by cbn.
Qed.

Lemma JobqInit_all_or_nothing_witness :
  ∃ s',
    JobqInit {| pthread_attr_init := 0; pthread_attr_setdetachstate := 0;
                pthread_mutex_init := 0; pthread_cond_init := 12;
                pthread_cond_wait := []; pthread_mutex_destroy := 0;
                pthread_cond_destroy := 0; pthread_attr_destroy := 0 |}
      5 1%nat raw_queue = Ok (12, s') ∧
    fields s' = fields raw_queue ∧ objects s' = none_live ∧
    errors s' = [(cond_init, 12)].
Proof.
  destruct (JobqInit_all_or_nothing
              {| pthread_attr_init := 0; pthread_attr_setdetachstate := 0;
                 pthread_mutex_init := 0; pthread_cond_init := 12;
                 pthread_cond_wait := []; pthread_mutex_destroy := 0;
                 pthread_cond_destroy := 0; pthread_attr_destroy := 0 |}
              5 1%nat raw_queue eq_refl) as (s' & E & H).
  cbn in H. destruct H as (Hf & _ & Ho & He).
  exists s'. done.
Defined.

Lemma first_failure_3 (a b c : Z) :
  first_failure [a; b; c]
  = if negb (a =? 0) then a else if negb (b =? 0) then b else c.
Proof.
  unfold first_failure. destruct (a =? 0), (b =? 0); cbn [negb]; try done.
  by destruct (Z.eqb_spec c 0).
Qed.

(** X19. [JobqDestroy] of a valid queue without workers destroys the
    mutex, the condition variable and the attributes, in this order and
    whatever their statuses, empties the three lists, and returns the
    first status other than zero of the three, or zero. The queue is
    not valid afterwards; [quit] is not set. *)
Theorem JobqDestroy_of_an_idle_queue (a : Pthread) (s : Queue) :
  valid (fields s) = true → num_workers (fields s) ≤ 0 →
  ∃ s',
    JobqDestroy a s
      = Ok (first_failure [pthread_mutex_destroy a; pthread_cond_destroy a;
                           pthread_attr_destroy a], s') ∧
    valid (fields s') = false ∧ quit (fields s') = quit (fields s) ∧
    waiting_jobs (fields s') = [] ∧ ready_jobs (fields s') = [] ∧
    running_jobs (fields s') = [] ∧
    objects s' = none_live ∧ errors s' = errors s.
Proof.
  intros Hval Hnum. unfold JobqDestroy.
  erewrite bind_Ok by reflexivity. cbv beta. rewrite Hval. cbn [negb].
  erewrite bind_Ok by reflexivity. cbv beta.
  replace (num_workers (fields s) >? 0) with false
    by (symmetry; rewrite Z.gtb_ltb; apply Z.ltb_ge; lia).
  erewrite bind_Ok by reflexivity. cbv beta zeta. cbn [Z.eqb negb].
  eexists. split.
  { repeat (erewrite bind_Ok by reflexivity; cbv beta).
    rewrite first_failure_3. reflexivity. }
  by cbn.
Qed.

Lemma JobqDestroy_of_an_idle_queue_witness :
  ∃ s1 s2,
    JobqInit good_pthread 5 1%nat raw_queue = Ok (0, s1) ∧
    JobqDestroy good_pthread s1 = Ok (0, s2) ∧
    valid (fields s2) = false ∧ objects s2 = none_live.
Proof.
  destruct (JobqInit good_pthread 5 1%nat raw_queue) as [[st s1]|] eqn:E1;
    [|vm_compute in E1; discriminate].
  assert (st = 0) as -> by (vm_compute in E1; by injection E1).
  assert (Hf : fields s1 = {| valid := true; quit := false;
                              max_workers := 5; num_workers := 0;
                              waiting_jobs := []; ready_jobs := [];
                              running_jobs := [] |})
    by (vm_compute in E1; by injection E1 as <-).
  destruct (JobqDestroy_of_an_idle_queue good_pthread s1)
    as (s2 & E2 & Hv & _ & _ & _ & _ & Ho & _).
  - by rewrite Hf.
  - by rewrite Hf.
  - exists s1, s2. done.
Defined.

(** The wait for the workers changes the number of workers and the
    error messages only; it ends without workers left, or with the
    status of a wait that failed. *)
Lemma wait_for_workers_run (waits : list (Z * Z)) (s s' : Queue) (st : Z) :
  wait_for_workers waits s = Ok (st, s') →
  engine s' = engine s ∧ objects s' = objects s ∧
  valid (fields s') = valid (fields s) ∧
  quit (fields s') = quit (fields s) ∧
  max_workers (fields s') = max_workers (fields s) ∧
  if st =? 0 then num_workers (fields s') ≤ 0 ∧ errors s' = errors s
  else ∃ errs, errors s' = errs ++ [(cond_wait, st)].
Proof.
  revert s. induction waits as [|[status workers] waits IH]; intros s;
    cbn [wait_for_workers]; erewrite bind_Ok by reflexivity; cbv beta;
    destruct (Z.gtb_spec (num_workers (fields s)) 0);
    try discriminate; try (intros [= <- <-]; by repeat split).
  erewrite bind_Ok by reflexivity. cbv beta.
  destruct (status =? 0) eqn:Es; cbn [negb].
  - intros E. apply IH in E as (He & Ho & Hv & Hq & Hm & Hst).
    by repeat split.
  - erewrite bind_Ok by reflexivity. intros [= <- <-]. rewrite Es.
    repeat split; by eexists.
Qed.

(** X20. [JobqDestroy] of a valid queue with workers asks them to quit
    and waits for them on [jq->work]. It goes on to destroy the pthread
    objects and to empty the lists only when a wake-up finds no worker
    left; when a wait fails it returns the status of that wait at
    once, with its error message written, the queue no longer valid,
    [quit] set, and the pthread objects as they were. *)
Theorem JobqDestroy_waits_for_the_workers (a : Pthread) (s s' : Queue)
    (st : Z) :
  valid (fields s) = true → 0 < num_workers (fields s) →
  JobqDestroy a s = Ok (st, s') →
  valid (fields s') = false ∧ quit (fields s') = true ∧
  ((num_workers (fields s') ≤ 0 ∧
    st = first_failure [pthread_mutex_destroy a; pthread_cond_destroy a;
                        pthread_attr_destroy a] ∧
    waiting_jobs (fields s') = [] ∧ ready_jobs (fields s') = [] ∧
    running_jobs (fields s') = [] ∧
    objects s' = none_live ∧ errors s' = errors s)
   ∨
   (st ≠ 0 ∧ objects s' = objects s ∧
    ∃ errs, errors s' = errs ++ [(cond_wait, st)])).
Proof.
  intros Hval Hnum. unfold JobqDestroy.
  erewrite bind_Ok by reflexivity. cbv beta. rewrite Hval. cbn [negb].
  erewrite bind_Ok by reflexivity. cbv beta.
  rewrite (proj2 (Z.gtb_gt _ _)) by lia.
  rewrite bind_assoc. erewrite bind_Ok by reflexivity. cbv beta.
  unfold mbind at 1, M_bind at 1.
  match goal with |- context [wait_for_workers ?l ?x] =>
    destruct (wait_for_workers l x) as [[status s1]|] eqn:Ew end;
    [|discriminate].
  apply wait_for_workers_run in Ew as (He & Ho & Hv & Hq & Hm & H).
  cbn in Ho, Hv, Hq, He.
  destruct (status =? 0) eqn:Es; cbn [negb].
  - destruct H as [Hn Herr]. cbv zeta.
    repeat (erewrite bind_Ok by reflexivity; cbv beta).
    intros [= <- <-]. cbn -[first_failure].
    split; [done|]. split; [done|]. left.
    split; [done|]. split.
    { by rewrite first_failure_3. }
    by rewrite Herr.
  - intros [= <- <-]. split; [done|]. split; [done|]. right.
    split; [by apply Z.eqb_neq|]. by split.
Qed.

Lemma JobqDestroy_waits_for_the_workers_witness :
  ∃ s',
    JobqDestroy good_pthread
      (set_fields (sample_jobq [] []) raw_queue) = Ok (0, s') ∧
    quit (fields s') = true ∧ num_workers (fields s') ≤ 0 ∧
    objects s' = none_live.
Proof.
  destruct (JobqDestroy good_pthread
              (set_fields (sample_jobq [] []) raw_queue))
    as [[st s']|] eqn:E; [|vm_compute in E; discriminate].
  assert (st = 0) as -> by (vm_compute in E; by injection E).
  destruct (JobqDestroy_waits_for_the_workers good_pthread
              (set_fields (sample_jobq [] []) raw_queue) s' 0
              eq_refl eq_refl E) as (_ & Hq & [H|H]).
  - destruct H as (Hn & _ & _ & _ & _ & Ho & _). exists s'. done.
  - by destruct H as [H _].
Defined.

Lemma JobqDestroy_waits_for_workers_valid (a : Pthread) (s s' : Queue)
    (st : Z) :
  valid (fields s) = true → 0 < num_workers (fields s) →
  JobqDestroy a s = Ok (st, s') → valid (fields s') = false.
Proof.
  intros Hval Hnum. unfold JobqDestroy.
  erewrite bind_Ok by reflexivity. cbv beta. rewrite Hval. cbn [negb].
  erewrite bind_Ok by reflexivity. cbv beta.
  rewrite (proj2 (Z.gtb_gt _ _)) by lia.
  rewrite bind_assoc. erewrite bind_Ok by reflexivity. cbv beta.
  unfold mbind at 1, M_bind at 1.
  match goal with |- context [wait_for_workers ?l ?x] =>
    destruct (wait_for_workers l x) as [[status s1]|] eqn:Ew end;
    [|discriminate].
  apply wait_for_workers_run in Ew as (_ & _ & Hv & _).
  cbn in Hv.
  destruct (status =? 0); cbn [negb].
  - cbv zeta. repeat (erewrite bind_Ok by reflexivity; cbv beta).
    by intros [= <- <-].
  - by intros [= <- <-].
Qed.

(** X21. [JobqDestroy] shuts the queue. Whatever it returns, the queue
    is not valid afterwards, and the operations on it refuse to work:
    another [JobqDestroy] and [JobqRemove] return [EINVAL] and change
    nothing, and [JobqAdd] returns a status other than zero and puts
    the record on no list. On a queue that is not valid to begin with
    [JobqDestroy] itself returns [EINVAL] and changes nothing. *)
Theorem JobqDestroy_shuts_the_queue (a : Pthread) (s s' : Queue) (st : Z) :
  JobqDestroy a s = Ok (st, s') →
  (valid (fields s) = false → st = EINVAL ∧ s' = s) ∧
  valid (fields s') = false ∧
  (∀ a', JobqDestroy a' s' = Ok (EINVAL, s')) ∧
  (∀ os item jcr w,
     jq w = fields s' → JobqRemove os item jcr w = Ok (EINVAL, w)) ∧
  (∀ os jcr v w,
     jq w = fields s' → jcr ≠ nullptr → heap w !! jcr = Some v →
     ∃ st' w', JobqAdd os jcr w = Ok (st', w') ∧ st' ≠ 0 ∧ jq w' = jq w).
Proof.
  intros E.
  assert (Hinv : ∀ x, valid (fields x) = false →
                      ∀ a', JobqDestroy a' x = Ok (EINVAL, x)).
  { intros x Hx a'. unfold JobqDestroy.
    erewrite bind_Ok by reflexivity. cbv beta. by rewrite Hx. }
  assert (Hval : valid (fields s') = false).
  { destruct (valid (fields s)) eqn:Hv.
    - destruct (Z.lt_ge_cases 0 (num_workers (fields s))) as [Hn|Hn].
      + by destruct (JobqDestroy_waits_for_workers_valid a s s' st Hv Hn E).
      + revert E. unfold JobqDestroy.
        erewrite bind_Ok by reflexivity. cbv beta. rewrite Hv. cbn [negb].
        erewrite bind_Ok by reflexivity. cbv beta.
        replace (num_workers (fields s) >? 0) with false
          by (symmetry; rewrite Z.gtb_ltb; apply Z.ltb_ge; lia).
        erewrite bind_Ok by reflexivity. cbv beta zeta. cbn [Z.eqb negb].
        repeat (erewrite bind_Ok by reflexivity; cbv beta).
        by intros [= <- <-].
    - rewrite (Hinv s Hv a) in E. by injection E as <- <-. }
  split.
  { intros Hv. rewrite (Hinv s Hv a) in E. by injection E as <- <-. }
  split; [exact Hval|]. split; [by apply Hinv|]. split.
  - intros os item jcr w Hq. unfold JobqRemove.
    erewrite bind_Ok by reflexivity. cbv beta. by rewrite Hq, Hval.
  - intros os jcr v w Hq Hp Hv.
    destruct (JobqAdd_exits_early os jcr v w Hp Hv) as (st' & w' & E' & H).
    { right. by rewrite Hq. }
    exists st', w'. split; [exact E'|]. by destruct H.
Qed.

Lemma JobqDestroy_shuts_the_queue_witness :
  ∃ s',
    JobqDestroy good_pthread
      (set_fields (sample_jobq [] []) raw_queue) = Ok (0, s') ∧
    JobqDestroy good_pthread s' = Ok (EINVAL, s') ∧
    JobqRemove sample_os 1%nat 1%nat
      (set_jq (fields s') one_waiting)
      = Ok (EINVAL, set_jq (fields s') one_waiting).
Proof.
  destruct (JobqDestroy good_pthread
              (set_fields (sample_jobq [] []) raw_queue))
    as [[st s']|] eqn:E; [|vm_compute in E; discriminate].
  assert (st = 0) as -> by (vm_compute in E; by injection E).
  destruct (JobqDestroy_shuts_the_queue good_pthread _ s' 0 E)
    as (_ & _ & H1 & H2 & _).
  exists s'. split; [reflexivity|]. split; [apply H1|]. by apply H2.
Defined.

(** * The waiter thread *)

(** The wait of a record [v] at [jcr]: it changes the canceled flag of
    the record and nothing else; every sleep lasts between one and
    thirty seconds; and with [T] no earlier than any time read, it ends
    with the job canceled or its start time no later than [T]. *)
Lemma wait_until_run (events : list (bool * Z)) (jcr : ptr) (wtime T : Z)
    (v : JCR) (sleeps : list Z) (w w' : World) :
  wait_until events jcr wtime w = Ok (sleeps, w') →
  heap w !! jcr = Some v →
  (∀ e, e ∈ events → e.2 ≤ T) → sched_time v - T ≤ wtime →
  calls w' = calls w ∧ jq w' = jq w ∧ dir w' = dir w ∧
  Forall (λ s, 0 < s ≤ 30) sleeps ∧
  (wtime ≤ 0 ↔ sleeps = []) ∧
  ∃ v',
    heap w' !! jcr = Some v' ∧ sched_time v' = sched_time v ∧
    (JobCanceled v' = true ∨ sched_time v' - T ≤ 0).
Proof.
  revert wtime v sleeps w.
  induction events as [|[cancel now] events IH]; intros wtime v sleeps w;
    cbn [wait_until]; destruct (Z.gtb_spec wtime 0) as [Hpos|Hpos];
    try discriminate.
  1, 3: intros [= <- <-] Hv _ Hle; repeat split; auto; try lia;
        exists v; split; [done|]; split; [done|]; right; lia.
  cbv zeta. intros E Hv HT Hle.
  assert (Hsleep : 0 < (if wtime >? 30 then 30 else wtime) ≤ 30)
    by (destruct (Z.gtb_spec wtime 30); lia).
  assert (Hstep : ∃ w1 v1,
    (if cancel then update jcr (set_canceled true) else ret tt) w
      = Ok (tt, w1) ∧
    heap w1 !! jcr = Some v1 ∧ sched_time v1 = sched_time v ∧
    calls w1 = calls w ∧ jq w1 = jq w ∧ dir w1 = dir w ∧ jcr ≠ nullptr).
  { revert E. destruct cancel.
    - unfold mbind at 1, M_bind at 1.
      destruct (update jcr (set_canceled true) w) as [[[] w1]|] eqn:Eu;
        [|discriminate].
      apply update_run in Eu as (v0 & Hp & Hv0 & ->). intros _.
      assert (v0 = v) as -> by congruence.
      eexists _, _. split; [reflexivity|]. cbn.
      split; [apply lookup_insert_eq|]. done.
    - erewrite bind_Ok by reflexivity. cbv beta.
      unfold mbind at 1, M_bind at 1.
      destruct (load jcr w) as [[v0 w0]|] eqn:El; [|discriminate].
      apply load_run in El as (-> & Hp & _). intros _.
      by exists w, v. }
  destruct Hstep as (w1 & v1 & E1 & Hv1 & Hs1 & Hc1 & Hq1 & Hd1 & Hp).
  rewrite (bind_Ok _ _ _ _ _ E1) in E. cbv beta in E.
  erewrite bind_Ok in E by (by apply load_ok). cbv beta in E.
  destruct (JobCanceled v1) eqn:Hcan.
  - injection E as <- <-. split; [done|]. split; [done|]. split; [done|].
    split; [by constructor|]. split; [split; [lia|done]|].
    exists v1. auto.
  - unfold mbind at 1, M_bind at 1 in E.
    destruct (wait_until events jcr (sched_time v1 - now) w1)
      as [[sl w2]|] eqn:Ew; [|discriminate].
    injection E as <- <-.
    apply (IH _ v1) in Ew as (Hc & Hq & Hd & Hall & _ & v' & Hv' & Hs' & Hend);
      [|done|intros e He; apply HT; by right|].
    2: { specialize (HT (cancel, now) ltac:(by left)). cbn in HT. lia. }
    split; [congruence|]. split; [congruence|]. split; [congruence|].
    split; [by constructor|]. split; [split; [lia|done]|].
    exists v'. split; [done|]. split; [congruence|]. done.
Qed.

(** The sleeps of the wait, one by one. [wtime] is the time left when
    the wait begins; after each sleep the waiter looks for a request to
    cancel and then at the clock. *)
Lemma wait_until_sleeps (events : list (bool * Z)) (jcr : ptr) (wtime : Z)
    (v : JCR) (sleeps : list Z) (w w' : World) :
  wait_until events jcr wtime w = Ok (sleeps, w') →
  heap w !! jcr = Some v →
  let k := length sleeps in
  let left := wtime :: map (λ e, sched_time v - e.2) events in
  (sleeps = [] ↔ wtime ≤ 0) ∧
  sleeps = map (λ d, Z.min d 30) (take k left) ∧
  Forall (λ d, 0 < d) (take k left) ∧
  (∀ i, (0 < i < k)%nat → canceled_by v events i = false) ∧
  ((0 < k)%nat →
   canceled_by v events k = true ∨ ∃ d, left !! k = Some d ∧ d ≤ 0).
Proof.
  revert wtime v sleeps w.
  induction events as [|[cancel now] events IH]; intros wtime v sleeps w;
    cbn [wait_until]; destruct (Z.gtb_spec wtime 0) as [Hpos|Hpos];
    try discriminate.
  1, 3: intros [= <- <-] Hv; cbn; repeat split; auto; try lia;
        intros i; lia.
  cbv zeta. intros E Hv.
  assert (Hstep : ∃ w1 v1,
    (if cancel then update jcr (set_canceled true) else ret tt) w
      = Ok (tt, w1) ∧
    heap w1 !! jcr = Some v1 ∧ sched_time v1 = sched_time v ∧
    JobCanceled v1 = JobCanceled v || cancel ∧ jcr ≠ nullptr).
  { revert E. destruct cancel.
    - unfold mbind at 1, M_bind at 1.
      destruct (update jcr (set_canceled true) w) as [[[] w1]|] eqn:Eu;
        [|discriminate].
      apply update_run in Eu as (v0 & Hp & Hv0 & ->). intros _.
      assert (v0 = v) as -> by congruence.
      eexists _, _. split; [reflexivity|]. cbn.
      split; [apply lookup_insert_eq|]. by rewrite orb_true_r.
    - erewrite bind_Ok by reflexivity. cbv beta.
      unfold mbind at 1, M_bind at 1.
      destruct (load jcr w) as [[v0 w0]|] eqn:El; [|discriminate].
      apply load_run in El as (-> & Hp & _). intros _.
      exists w, v. by rewrite orb_false_r. }
  destruct Hstep as (w1 & v1 & E1 & Hv1 & Hs1 & Hcan1 & Hp).
  rewrite (bind_Ok _ _ _ _ _ E1) in E. cbv beta in E.
  erewrite bind_Ok in E by (by apply load_ok). cbv beta in E.
  assert (Hmin : (if wtime >? 30 then 30 else wtime) = Z.min wtime 30)
    by (destruct (Z.gtb_spec wtime 30); lia).
  rewrite Hmin in E.
  destruct (JobCanceled v1) eqn:Hc.
  - injection E as <- <-. cbn.
    split; [split; [discriminate|lia]|]. split; [done|].
    split; [by constructor|]. split; [intros i; lia|].
    intros _. left. unfold canceled_by. cbn [take existsb fst].
    by rewrite orb_false_r, <- Hcan1.
  - unfold mbind at 1, M_bind at 1 in E.
    destruct (wait_until events jcr (sched_time v1 - now) w1)
      as [[sl w2]|] eqn:Ew; [|discriminate].
    injection E as <- <-.
    apply (IH _ v1) in Ew as (Hnil & Hsl & Hall & Hbefore & Hstop);
      [|done].
    cbv zeta in Hsl, Hall, Hbefore, Hstop. rewrite Hs1 in Hsl, Hall, Hstop.
    symmetry in Hcan1. apply orb_false_iff in Hcan1 as [Hcv ->].
    assert (Hby : ∀ i, canceled_by v ((false, now) :: events) (S i)
                       = canceled_by v1 events i).
    { intros i. unfold canceled_by. cbn [take existsb fst].
      by rewrite Hcv, Hc. }
    cbv zeta. cbn [length take map snd]. split; [split; [discriminate|lia]|].
    split; [by rewrite <- Hsl|]. split; [by constructor|]. split.
    + intros [|i] Hi; [lia|]. rewrite Hby. destruct i as [|i].
      * unfold canceled_by. cbn. by rewrite Hc.
      * apply Hbefore. lia.
    + intros _. rewrite Hby. cbn [lookup list_lookup].
      destruct sl as [|s sl'].
      * right. exists (sched_time v - now). split; [done|].
        rewrite <- Hs1. by apply Hnil.
      * apply Hstop. cbn. lia.
Qed.

(** X22. The waiter sleeps as long as the start time of the job lies
    ahead, and polls for a cancel request at least every thirty
    seconds. With the time left to the start at each of its readings of
    the clock, each sleep begins with time left and lasts that time, or
    thirty seconds if more is left, so that the waiter sleeps at all
    exactly when the start time lies ahead at its first reading; it goes
    on while no request to cancel has arrived, and ends its wait only on
    such a request or with no time left. It announces the wait exactly
    when it sleeps, with the seconds to the start as [%d] prints
    them. *)
Theorem sched_wait_polls_every_30_seconds (now : Z)
    (events : list (bool * Z)) (os : OS) (jcr : ptr) (v : JCR)
    (w w' : World) (announced : option Z) (sleeps : list Z) :
  heap w !! jcr = Some v →
  sched_wait now events os jcr w = Ok (announced, sleeps, w') →
  let k := length sleeps in
  let left := map (λ t, sched_time v - t) (now :: map snd events) in
  announced
    = (if bool_decide (sleeps = []) then None
       else Some (to_int (sched_time v - now))) ∧
  (sleeps = [] ↔ sched_time v - now ≤ 0) ∧
  sleeps = map (λ d, Z.min d 30) (take k left) ∧
  Forall (λ s, 0 < s ≤ 30) sleeps ∧
  (∀ i, (0 < i < k)%nat → canceled_by v events i = false) ∧
  ((0 < k)%nat →
   canceled_by v events k = true ∨ ∃ d, left !! k = Some d ∧ d ≤ 0).
Proof.
  intros Hv. unfold sched_wait.
  unfold mbind at 1, M_bind at 1.
  destruct (load jcr w) as [[v0 w0]|] eqn:El; [|discriminate].
  apply load_run in El as (-> & Hp & Hv0).
  assert (v0 = v) as -> by congruence. cbv zeta.
  erewrite bind_Ok by (by apply update_ok). cbv beta.
  unfold mbind at 1, M_bind at 1.
  match goal with |- context [wait_until events jcr ?t ?x] =>
    destruct (wait_until events jcr t x) as [[sl w1]|] eqn:Ew end;
    [|discriminate].
  apply (wait_until_sleeps _ _ _ (setJobStatus JS_WaitStartTime v)) in Ew
    as (Hnil & Hsl & Hall & Hbefore & Hstop);
    [|cbn; apply lookup_insert_eq].
  cbv zeta in Hsl, Hall, Hbefore, Hstop.
  change (sched_time (setJobStatus JS_WaitStartTime v))
    with (sched_time v) in Hnil, Hsl, Hall, Hstop.
  change (canceled_by (setJobStatus JS_WaitStartTime v))
    with (canceled_by v) in Hbefore, Hstop.
  unfold mbind at 1, M_bind at 1.
  destruct (JobqAdd os jcr w1) as [[st w2]|]; [|discriminate].
  erewrite bind_Ok by reflexivity. intros [= <- <- <-].
  assert (Hleft : map (λ t, sched_time v - t) (now :: map snd events)
                  = (sched_time v - now)
                      :: map (λ e, sched_time v - e.2) events).
  { cbn [map]. f_equal. rewrite map_map. done. }
  rewrite Hleft. split.
  { destruct (Z.gtb_spec (sched_time v - now) 0).
    - rewrite bool_decide_eq_false_2; [done|]. intros Hs%Hnil. lia.
    - rewrite bool_decide_eq_true_2; [done|]. apply Hnil. lia. }
  split; [exact Hnil|]. split; [exact Hsl|]. split; [|by split].
  rewrite Hsl. apply Forall_map. eapply Forall_impl; [exact Hall|].
  intros d Hd. cbv beta in Hd. unfold compose. lia.
Qed.

Lemma sched_wait_polls_every_30_seconds_witness :
  ∃ w',
    sched_wait 100 [(false, 130); (false, 160)] sample_os 2%nat
      one_scheduled = Ok (Some 60, [30; 30], w').
Proof.
  destruct (sched_wait 100 [(false, 130); (false, 160)] sample_os 2%nat
              one_scheduled) as [[[announced sleeps] w']|] eqn:E;
    [|vm_compute in E; discriminate].
  destruct (sched_wait_polls_every_30_seconds 100
              [(false, 130); (false, 160)] sample_os 2%nat
              (set_sched_time 160 (plain_jcr 2 10 2%nat true))
              one_scheduled w' announced sleeps eq_refl E) as [Ha _].
  assert (sleeps = [30; 30]) as ->
    by (vm_compute in E; by injection E as <- <-).
  rewrite bool_decide_eq_false_2 in Ha by discriminate. subst announced.
  exists w'. reflexivity.
Defined.

Lemma first_greater_run (prio : Z) (l : list ptr) (r : option ptr)
    (w w' : World) :
  first_greater prio l w = Ok (r, w') → w' = w.
Proof.
  induction l as [|li l IH]; cbn [first_greater]; [by intros [= <- <-]|].
  unfold mbind, M_bind.
  destruct (load li w) as [[v w0]|] eqn:El; [|discriminate].
  apply load_run in El as (-> & _ & _).
  destruct (JobPriority v >? prio); [by intros [= <- <-]|apply IH].
Qed.

Lemma StartServer_calls (os : OS) (w w' : World) (st : Z) :
  StartServer os w = Ok (st, w') →
  calls w' = calls w ∨ calls w' = calls w ++ [pthread_create_jobq_server].
Proof.
  unfold StartServer. erewrite bind_Ok by reflexivity. cbv beta.
  destruct (num_workers (jq w) <? max_workers (jq w));
    [|intros [= <- <-]; by left].
  destruct (os_pthread_create os =? 0); cbn [negb]; intros [= <- <-];
    [by right|by left].
Qed.

(** [JobqAdd] on a record that is canceled or due creates no waiter. *)
Lemma JobqAdd_due_calls (os : OS) (jcr : ptr) (v : JCR) (w w' : World)
    (st : Z) :
  jcr ≠ nullptr → heap w !! jcr = Some v →
  JobCanceled v = true ∨ sched_time v - os_time os ≤ 0 →
  JobqAdd os jcr w = Ok (st, w') →
  ∃ cs,
    calls w' = calls w ++ cs ∧
    ∀ c, c ∈ cs → c = FreeJcr jcr ∨ c = pthread_create_jobq_server.
Proof.
  intros Hp Hv Hdue. unfold JobqAdd.
  erewrite bind_Ok by (by apply load_ok). cbv beta zeta.
  assert (Hnone : ∃ cs : list call, calls w = calls w ++ cs ∧
            ∀ c, c ∈ cs → c = FreeJcr jcr ∨ c = pthread_create_jobq_server).
  { exists []. rewrite app_nil_r. split; [done|].
    by intros c ?%elem_of_nil. }
  destruct (negb (term_wait_inited (impl v))
            && negb (os_pthread_cond_init os =? 0)).
  { erewrite bind_Ok by reflexivity. by intros [= <- <-]. }
  erewrite bind_Ok by (by apply update_ok). cbv beta.
  erewrite bind_Ok by reflexivity. cbv beta.
  set (v1 := with_impl (set_term_wait_inited true) v).
  set (w1 := set_heap _ w).
  assert (Hv1 : heap w1 !! jcr = Some v1) by apply lookup_insert_eq.
  destruct (valid (jq w1)); cbn [negb].
  2: { erewrite bind_Ok by reflexivity. by intros [= <- <-]. }
  erewrite bind_Ok by (by apply update_ok). cbv beta.
  replace (negb (JobCanceled v) && (sched_time v - os_time os >? 0))
    with false.
  2: { destruct Hdue as [->|Hd]; [done|].
       symmetry. apply andb_false_iff. right.
       rewrite Z.gtb_ltb. apply Z.ltb_ge. lia. }
  destruct (os_malloc_ok os); cbn [negb].
  2: { erewrite bind_Ok by reflexivity. intros [= <- <-].
       exists [FreeJcr jcr]. split; [done|].
       intros c ->%list_elem_of_singleton. by left. }
  cbv zeta. unfold mbind at 1, M_bind at 1.
  match goal with |- context [match ?m ?x with _ => _ end] =>
    destruct (m x) as [[[] w3]|] eqn:E3 end; [|discriminate].
  assert (Hc3 : calls w3 = calls w).
  { revert E3. destruct (JobCanceled v); [by intros [= <-]|].
    unfold mbind at 1, M_bind at 1.
    match goal with |- context [first_greater ?p ?l ?x] =>
      destruct (first_greater p l x) as [[found w4]|] eqn:E4 end;
      [|discriminate].
    apply first_greater_run in E4 as ->.
    destruct found; by intros [= <-]. }
  intros [H|H]%StartServer_calls; rewrite H, Hc3.
  - done.
  - exists [pthread_create_jobq_server]. split; [done|].
    intros c ->%list_elem_of_singleton. by right.
Qed.

(** X23. A waiter does not hand its job to another waiter. With a clock
    that does not run backwards, the [JobqAdd] at the end of
    [sched_wait] finds the job canceled or due, so that no waiter
    thread is created; the calls that leave the file are those of
    [JobqAdd] on its queuing path (a new server, or the release of the
    record when there is no memory) and, as the last act of the waiter,
    the release of its own reference with [FreeJcr]. *)
Theorem sched_wait_passes_the_job_on (now : Z) (events : list (bool * Z))
    (os : OS) (jcr : ptr) (v : JCR) (w w' : World)
    (result : option Z * list Z) :
  heap w !! jcr = Some v →
  now ≤ os_time os → (∀ e, e ∈ events → e.2 ≤ os_time os) →
  sched_wait now events os jcr w = Ok (result, w') →
  ∃ cs,
    calls w' = calls w ++ cs ++ [FreeJcr jcr] ∧
    ∀ c, c ∈ cs → c = FreeJcr jcr ∨ c = pthread_create_jobq_server.
Proof.
  intros Hv Hnow Hev. unfold sched_wait.
  unfold mbind at 1, M_bind at 1.
  destruct (load jcr w) as [[v0 w0]|] eqn:El; [|discriminate].
  apply load_run in El as (-> & Hp & Hv0).
  assert (v0 = v) as -> by congruence. cbv zeta.
  erewrite bind_Ok by (by apply update_ok). cbv beta.
  unfold mbind at 1, M_bind at 1.
  match goal with |- context [wait_until events jcr ?t ?x] =>
    destruct (wait_until events jcr t x) as [[sl w1]|] eqn:Ew end;
    [|discriminate].
  eapply (wait_until_run _ _ _ (os_time os)) in Ew
    as (Hc1 & _ & _ & _ & _ & v' & Hv' & _ & Hend);
    [|cbn; apply lookup_insert_eq|exact Hev|cbn; lia].
  cbn in Hc1.
  unfold mbind at 1, M_bind at 1.
  destruct (JobqAdd os jcr w1) as [[st w2]|] eqn:Ea; [|discriminate].
  apply (JobqAdd_due_calls os jcr v') in Ea as (cs & Hc2 & Hcs);
    [|done|done|done].
  erewrite bind_Ok by reflexivity. intros [= <- <-].
  exists cs. split; [|done]. cbn. by rewrite Hc2, Hc1, <- app_assoc.
Qed.

Lemma sched_wait_passes_the_job_on_witness :
  ∃ w',
    sched_wait 100 [(false, 130); (false, 160)]
      (Build_OS 160 0 0 true) 2%nat one_scheduled
      = Ok (Some 60, [30; 30], w') ∧
    calls w' = [FreeJcr 2%nat].
Proof.
  destruct (sched_wait 100 [(false, 130); (false, 160)]
              (Build_OS 160 0 0 true) 2%nat one_scheduled)
    as [[r w']|] eqn:E; [|vm_compute in E; discriminate].
  destruct (sched_wait_passes_the_job_on 100 [(false, 130); (false, 160)]
              (Build_OS 160 0 0 true) 2%nat
              (set_sched_time 160 (plain_jcr 2 10 2%nat true))
              one_scheduled w' r eq_refl) as (cs & Hc & _).
  - cbn. lia.
  - intros e He. cbn in He.
    repeat (apply elem_of_cons in He as [->|He]); cbn; try lia.
    by apply elem_of_nil in He.
  - exact E.
  - assert (r = (Some 60, [30; 30])) as ->
      by (vm_compute in E; by injection E as <-).
    exists w'. split; [reflexivity|].
    vm_compute in E. injection E as <-. reflexivity.
Defined.

(** * The worker thread *)

(** ** The number of workers *)

Lemma servers_snoc (cs : list call) (c : call) :
  servers (cs ++ [c])
  = servers cs + match c with pthread_create_jobq_server => 1 | _ => 0 end.
Proof.
  unfold servers. rewrite List.filter_app, length_app. cbn [List.filter].
  destruct c; cbn [length]; lia.
Qed.

Lemma accounted_refl (w : World) : accounted 0 w w.
Proof. unfold accounted. lia. Qed.

Lemma accounted_trans (a b : Z) (w1 w2 w3 : World) :
  accounted a w1 w2 → accounted b w2 w3 → accounted (a + b) w1 w3.
Proof. unfold accounted. lia. Qed.

Lemma accounted_trans_0 (w1 w2 w3 : World) :
  accounted 0 w1 w2 → accounted 0 w2 w3 → accounted 0 w1 w3.
Proof. apply (accounted_trans 0 0). Qed.

Lemma accounted_store p v : preserves (accounted 0) (store p v).
Proof. apply preserves_modify. intros w. unfold accounted. cbn. lia. Qed.

Lemma accounted_update p f : preserves (accounted 0) (update p f).
Proof.
  unfold update. apply preserves_bind.
  - apply accounted_trans_0.
  - apply preserves_load, accounted_refl.
  - intros v. apply accounted_store.
Qed.

Lemma accounted_do_call c :
  c ≠ pthread_create_jobq_server → preserves (accounted 0) (do_call c).
Proof.
  intros Hc. apply preserves_modify. intros w. unfold accounted.
  cbn. rewrite servers_snoc. destruct c; try lia. done.
Qed.

Lemma accounted_in_dir {A} (m : M Director A) :
  preserves (accounted 0) (in_dir m).
Proof.
  intros w a w'. unfold in_dir.
  destruct (m (dir w)) as [[a' d']|]; [|discriminate].
  intros [= <- <-]. unfold accounted. cbn. lia.
Qed.

Lemma accounted_waiting (f : jobq_t → list ptr) :
  preserves (accounted 0) (modify_jq (λ q, set_waiting_jobs (f q) q)).
Proof. apply preserves_modify. intros w. unfold accounted. cbn. lia. Qed.

Lemma accounted_ready (f : jobq_t → list ptr) :
  preserves (accounted 0) (modify_jq (λ q, set_ready_jobs (f q) q)).
Proof. apply preserves_modify. intros w. unfold accounted. cbn. lia. Qed.

Lemma accounted_running (f : jobq_t → list ptr) :
  preserves (accounted 0) (modify_jq (λ q, set_running_jobs (f q) q)).
Proof. apply preserves_modify. intros w. unfold accounted. cbn. lia. Qed.

Lemma accounted_free_record p : preserves (accounted 0) (free_record p).
Proof.
  intros w [] w' [= <-]. unfold accounted. cbn. rewrite servers_snoc. lia.
Qed.

Lemma accounted_StartServer os : preserves (accounted 0) (StartServer os).
Proof.
  intros w st w'. unfold StartServer.
  erewrite bind_Ok by reflexivity. cbv beta.
  destruct (Z.ltb_spec (num_workers (jq w)) (max_workers (jq w)));
    [|intros [= <- <-]; apply accounted_refl].
  destruct (os_pthread_create os =? 0); cbn [negb]; intros [= <- <-];
    unfold accounted; cbn; rewrite ?servers_snoc; lia.
Qed.

(** Code without a loop: follow its syntax. *)
Ltac accounting_with tac :=
  repeat first
    [ tac
    | apply preserves_ret, accounted_refl
    | apply preserves_gets, accounted_refl
    | apply preserves_raise
    | apply preserves_load, accounted_refl
    | apply preserves_first_greater, accounted_refl
    | apply accounted_StartServer
    | apply accounted_free_record
    | apply accounted_do_call; discriminate
    | apply accounted_in_dir
    | apply accounted_waiting
    | apply accounted_ready
    | apply accounted_running
    | apply accounted_update
    | apply accounted_store
    | apply preserves_bind; [apply accounted_trans_0| |intros ?]
    | match goal with
      | |- preserves _ (if ?b then _ else _) => destruct b
      | |- preserves _ (match ?o with _ => _ end) => destruct o
      | |- preserves _ (let '(_, _) := ?o in _) => destruct o
      end ].

Lemma accounted_JobqAdd os jcr : preserves (accounted 0) (JobqAdd os jcr).
Proof. unfold JobqAdd. accounting_with fail. Qed.

Lemma accounted_RescheduleJob os os_add dup njcr defaults jcr je :
  preserves (accounted 0)
    (RescheduleJob os os_add dup njcr defaults jcr je).
Proof.
  unfold RescheduleJob, deref.
  accounting_with ltac:(apply accounted_JobqAdd).
Qed.

Lemma accounted_after_engine os os_add dup njcr defaults je :
  preserves (accounted 0) (after_engine os os_add dup njcr defaults je).
Proof.
  unfold after_engine.
  accounting_with ltac:(apply accounted_RescheduleJob).
Qed.

Lemma accounted_running_walk wend re rest :
  preserves (accounted 0) (running_walk wend re rest).
Proof.
  revert re. induction rest as [|r rest IH]; intros re;
    cbn [running_walk]; unfold deref.
  - accounting_with fail.
  - accounting_with ltac:(apply IH).
Qed.

Lemma accounted_AcquireResources_at jcr :
  preserves (accounted 0) (AcquireResources_at jcr).
Proof. unfold AcquireResources_at. accounting_with fail. Qed.

Lemma accounted_correct_Priority Priority mix jcr :
  preserves (accounted 0) (correct_Priority Priority mix jcr).
Proof. unfold correct_Priority, deref. accounting_with fail. Qed.

Lemma accounted_waiting_walk fuel Priority mix rest :
  preserves (accounted 0) (waiting_walk fuel Priority mix rest).
Proof.
  revert rest. induction fuel as [|fuel IH]; intros [|je rest];
    cbn [waiting_walk].
  - accounting_with fail.
  - accounting_with fail.
  - accounting_with fail.
  - accounting_with ltac:(first
      [ apply IH | apply accounted_AcquireResources_at
      | apply accounted_correct_Priority ]).
Qed.

Lemma accounted_promote_waiting : preserves (accounted 0) promote_waiting.
Proof.
  unfold promote_waiting.
  accounting_with ltac:(first
    [ apply accounted_waiting_walk | apply accounted_running_walk ]).
Qed.

(** A step of the worker that may be its last: the count of workers goes
    down by one exactly when it is. *)
Lemma accounted_take_ready os w r w' :
  take_ready os w = Ok (r, w') →
  accounted (match r with Some _ => 0 | None => 1 end) w w'.
Proof.
  unfold take_ready. erewrite bind_Ok by reflexivity. cbv beta zeta.
  erewrite bind_Ok by reflexivity. erewrite bind_Ok by reflexivity.
  cbv beta. set (w1 := set_jq _ w).
  assert (H1 : accounted 0 w w1) by (unfold accounted, w1; cbn; lia).
  unfold mbind at 1, M_bind at 1.
  destruct ((if negb (bool_decide (ready_jobs (jq w1) = []))
             then StartServer os else ret 0) w1) as [[st w2]|] eqn:E;
    [|discriminate].
  assert (H2 : accounted 0 w1 w2).
  { revert E. destruct (negb _); [apply accounted_StartServer|].
    intros [= <- <-]. apply accounted_refl. }
  destruct (st =? 0); cbn [negb].
  - erewrite bind_Ok by reflexivity. cbv beta.
    unfold mbind, M_bind.
    destruct (load _ _) as [[v w3]|] eqn:El; [|discriminate].
    apply load_run in El as [-> _]. intros [= <- <-].
    revert H1 H2. unfold accounted. cbn. lia.
  - erewrite bind_Ok by reflexivity. intros [= <- <-].
    revert H1 H2. unfold accounted. cbn. lia.
Qed.

Lemma accounted_timed_wait s waits work timedout w r w' :
  preserves (accounted 0) (sur_others s) →
  timed_wait s waits work timedout w = Ok (r, w') →
  accounted (match r with Some _ => 0 | None => 1 end) w w'.
Proof.
  intros Ho. unfold timed_wait. erewrite bind_Ok by reflexivity. cbv beta.
  destruct (negb work && negb (quit (jq w)));
    [|intros [= <- <-]; apply accounted_refl].
  destruct waits as [|status waits']; [discriminate|].
  unfold mbind at 1, M_bind at 1.
  destruct (sur_others s w) as [[[] w1]|] eqn:E; [|discriminate].
  apply Ho in E.
  destruct (status =? ETIMEDOUT); [by intros [= <- <-]|].
  destruct (status =? 0); cbn [negb]; [by intros [= <- <-]|].
  erewrite bind_Ok by reflexivity. intros [= <- <-].
  revert E. unfold accounted. cbn. lia.
Qed.

Lemma accounted_end_of_turn s timedout w r w' :
  preserves (accounted 0) (sur_others s) →
  end_of_turn s timedout w = Ok (r, w') →
  accounted (match r with Some _ => 0 | None => 1 end) w w'.
Proof.
  intros Ho. unfold end_of_turn. erewrite bind_Ok by reflexivity. cbv beta.
  destruct (bool_decide (ready_jobs (jq w) = []) && quit (jq w)).
  { erewrite bind_Ok by reflexivity. intros [= <- <-].
    unfold accounted. cbn. lia. }
  destruct (bool_decide (ready_jobs (jq w) = []) && timedout).
  { erewrite bind_Ok by reflexivity. intros [= <- <-].
    unfold accounted. cbn. lia. }
  cbv zeta.
  destruct (negb (bool_decide (ready_jobs (jq w) = []))
            || negb (bool_decide (waiting_jobs (jq w) = [])));
    [|intros [= <- <-]; apply accounted_refl].
  unfold mbind at 1, M_bind at 1.
  destruct (sur_others s w) as [[[] w1]|] eqn:E; [|discriminate].
  apply Ho in E. erewrite bind_Ok by reflexivity. by intros [= <- <-].
Qed.

Lemma accounted_drain fuel s w r w' :
  (∀ je, preserves (accounted 0) (sur_engine s je)) →
  drain fuel s w = Ok (r, w') →
  accounted (if (r : bool) then 0 else 1) w w'.
Proof.
  intros He. revert w. induction fuel as [|fuel IH]; intros w;
    cbn [drain]; erewrite bind_Ok by reflexivity; cbv beta;
    (destruct (negb (bool_decide (ready_jobs (jq w) = []))
               && negb (quit (jq w)));
     [|intros [= <- <-]; apply accounted_refl]); [discriminate|].
  unfold mbind at 1, M_bind at 1.
  destruct (take_ready (sur_os s) w) as [[taken w1]|] eqn:Et; [|discriminate].
  apply accounted_take_ready in Et.
  destruct taken as [je|]; [|by intros [= <- <-]].
  unfold mbind at 1, M_bind at 1.
  destruct (sur_engine s je w1) as [[[] w2]|] eqn:Ee; [|discriminate].
  apply He in Ee.
  unfold mbind at 1, M_bind at 1.
  destruct (load je w2) as [[v w2']|] eqn:El; [|discriminate].
  apply load_run in El as [-> _].
  unfold mbind at 1, M_bind at 1.
  destruct (after_engine _ _ _ _ _ _ w2) as [[b w3]|] eqn:Ea; [|discriminate].
  apply accounted_after_engine in Ea.
  intros Ed. apply IH in Ed.
  replace (if r then 0 else 1) with (0 + (0 + (0 + if r then 0 else 1)))
    by lia.
  eauto using accounted_trans.
Qed.

Lemma accounted_jobq_server_loop fuel s waits work timedout w w' :
  (∀ je, preserves (accounted 0) (sur_engine s je)) →
  preserves (accounted 0) (sur_others s) →
  jobq_server_loop fuel s waits work timedout w = Ok (tt, w') →
  accounted 1 w w'.
Proof.
  intros He Ho. revert waits work timedout w.
  induction fuel as [|fuel IH]; intros waits work timedout w;
    [discriminate|].
  cbn [jobq_server_loop].
  unfold mbind at 1, M_bind at 1.
  destruct (timed_wait s waits work timedout w) as [[waited w1]|] eqn:Ew;
    [|discriminate].
  apply accounted_timed_wait in Ew; [|done].
  destruct waited as [[waits1 timedout1]|]; [|by intros [= <-]].
  unfold mbind at 1, M_bind at 1.
  destruct (drain (S fuel) s w1) as [[serving w2]|] eqn:Ed; [|discriminate].
  apply accounted_drain in Ed; [|done].
  destruct serving; cbn [negb];
    [|intros [= <-]; by apply (accounted_trans 0 1 w w1 w2)].
  unfold mbind at 1, M_bind at 1.
  destruct (promote_waiting w2) as [[[] w3]|] eqn:Ep; [|discriminate].
  apply accounted_promote_waiting in Ep.
  unfold mbind at 1, M_bind at 1.
  destruct (end_of_turn s timedout1 w3) as [[turn w4]|] eqn:Et;
    [|discriminate].
  apply accounted_end_of_turn in Et; [|done].
  assert (H3 : accounted 0 w w3).
  { apply (accounted_trans 0 0 w w1 w3); [done|].
    by apply (accounted_trans 0 0 w1 w2 w3). }
  destruct turn as [work1|].
  - intros E. apply IH in E.
    apply (accounted_trans 0 1 w w4 w'); [|done].
    by apply (accounted_trans 0 0 w w3 w4).
  - intros [= <-]. by apply (accounted_trans 0 1 w w3 w4).
Qed.

(** X24. A worker counts itself out exactly once. Whatever the jobs it
    runs, the servers it starts and the way it leaves (asked to quit,
    after a timed wait that ran out, on a failed timed wait or on a
    failed thread creation), when [jobq_server] returns the number of
    workers is the one it found, plus one for every server thread
    created meanwhile, less one for itself, provided the engine and the
    other threads keep that balance too. *)
Theorem jobq_server_counts_itself_out (fuel : nat) (s : Surroundings)
    (waits : list Z) (w w' : World) :
  (∀ je, preserves (accounted 0) (sur_engine s je)) →
  preserves (accounted 0) (sur_others s) →
  jobq_server fuel s waits w = Ok (tt, w') →
  num_workers (jq w')
  = num_workers (jq w) + (servers (calls w') - servers (calls w)) - 1.
Proof.
  intros He Ho E. unfold jobq_server in E.
  apply accounted_jobq_server_loop in E; [|done..].
  revert E. unfold accounted. lia.
Qed.

Lemma jobq_server_counts_itself_out_witness :
  ∃ w',
    jobq_server 2 (quiet sample_os) [ETIMEDOUT] two_ready = Ok (tt, w') ∧
    calls w' = [pthread_create_jobq_server; FreeJcr 1%nat; FreeJcr 2%nat] ∧
    num_workers (jq w') = 1.
Proof.
  remember (jobq_server 2 (quiet sample_os) [ETIMEDOUT] two_ready) as r
    eqn:E.
  pose proof E as E'. vm_compute in E'.
  destruct r as [[[] w']|]; [|discriminate].
  exists w'. split; [done|]. symmetry in E.
  pose proof (jobq_server_counts_itself_out 2 (quiet sample_os)
                [ETIMEDOUT] two_ready w'
                (λ je, accounted_update je _)
                (preserves_ret _ tt accounted_refl) E) as H.
  injection E' as ->. split; [reflexivity|]. exact H.
Defined.

(** ** When a worker leaves *)

Lemma take_ready_taken os w r w' :
  os_pthread_create os = 0 → take_ready os w = Ok (r, w') → r ≠ None.
Proof.
  intros Hc. unfold take_ready. erewrite bind_Ok by reflexivity.
  cbv beta zeta.
  erewrite bind_Ok by reflexivity. erewrite bind_Ok by reflexivity.
  cbv beta. set (w1 := set_jq _ w).
  unfold mbind at 1, M_bind at 1.
  destruct ((if negb (bool_decide (ready_jobs (jq w1) = []))
             then StartServer os else ret 0) w1) as [[st w2]|] eqn:E;
    [|discriminate].
  assert (st = 0) as ->.
  { revert E. destruct (negb _); [|by intros [= <- _]].
    unfold StartServer. erewrite bind_Ok by reflexivity. cbv beta.
    rewrite Hc. cbn [Z.eqb negb].
    destruct (_ <? _); by intros [= <- _]. }
  cbn [Z.eqb negb]. erewrite bind_Ok by reflexivity. cbv beta.
  unfold mbind, M_bind. destruct (load _ _) as [[v w3]|]; [|discriminate].
  by intros [= <- _].
Qed.

Lemma drain_serves fuel s w r w' :
  os_pthread_create (sur_os s) = 0 →
  drain fuel s w = Ok (r, w') → r = true.
Proof.
  intros Hc. revert w. induction fuel as [|fuel IH]; intros w;
    cbn [drain]; erewrite bind_Ok by reflexivity; cbv beta;
    (destruct (negb (bool_decide (ready_jobs (jq w) = []))
               && negb (quit (jq w)));
     [|by intros [= <- _]]); [discriminate|].
  unfold mbind at 1, M_bind at 1.
  destruct (take_ready (sur_os s) w) as [[taken w1]|] eqn:Et; [|discriminate].
  apply take_ready_taken in Et; [|done].
  destruct taken as [je|]; [|done].
  unfold mbind at 1, M_bind at 1.
  destruct (sur_engine s je w1) as [[[] w2]|]; [|discriminate].
  unfold mbind at 1, M_bind at 1.
  destruct (load je w2) as [[v w2']|]; [|discriminate].
  unfold mbind at 1, M_bind at 1.
  destruct (after_engine _ _ _ _ _ _ w2') as [[b w3]|]; [|discriminate].
  apply IH.
Qed.

Lemma timed_wait_run s waits work timedout w r w' :
  Forall (λ status, status = 0 ∨ status = ETIMEDOUT) waits →
  timed_wait s waits work timedout w = Ok (r, w') →
  ∃ waits' timedout',
    r = Some (waits', timedout') ∧
    Forall (λ status, status = 0 ∨ status = ETIMEDOUT) waits' ∧
    (∀ status, status ∈ waits' → status ∈ waits) ∧
    (timedout' = true → timedout = true ∨ ETIMEDOUT ∈ waits).
Proof.
  intros Hw. unfold timed_wait. erewrite bind_Ok by reflexivity. cbv beta.
  destruct (negb work && negb (quit (jq w))).
  2:{ intros [= <- _]. eexists _, _. repeat split; auto. }
  destruct waits as [|status waits']; [discriminate|].
  unfold mbind at 1, M_bind at 1.
  destruct (sur_others s w) as [[[] w1]|]; [|discriminate].
  apply Forall_cons in Hw as [Hs Hw].
  destruct (Z.eqb_spec status ETIMEDOUT) as [->|Hne].
  { intros [= <- _]. eexists _, _. repeat split; auto.
    - intros ??. by apply list_elem_of_further.
    - intros _. right. apply list_elem_of_here. }
  destruct (Z.eqb_spec status 0) as [->|Hne0]; cbn [negb];
    [|destruct Hs; done].
  intros [= <- _]. eexists _, _. repeat split; auto.
  intros ??. by apply list_elem_of_further.
Qed.

Lemma end_of_turn_leaves s timedout w w' :
  end_of_turn s timedout w = Ok (None, w') →
  ready_jobs (jq w') = [] ∧ (quit (jq w') = true ∨ timedout = true).
Proof.
  unfold end_of_turn. erewrite bind_Ok by reflexivity. cbv beta.
  destruct (bool_decide (ready_jobs (jq w) = [])) eqn:Hr; cbn [andb].
  - apply bool_decide_eq_true in Hr.
    destruct (quit (jq w)) eqn:Hq.
    { erewrite bind_Ok by reflexivity. intros [= <-]. cbn. auto. }
    destruct timedout.
    { erewrite bind_Ok by reflexivity. intros [= <-]. cbn. auto. }
    cbv zeta. destruct (_ || _); [|discriminate].
    unfold mbind at 1, M_bind at 1.
    destruct (sur_others s w) as [[[] w1]|]; [|discriminate].
    erewrite bind_Ok by reflexivity. discriminate.
  - cbv zeta. cbn [negb orb].
    unfold mbind at 1, M_bind at 1.
    destruct (sur_others s w) as [[[] w1]|]; [|discriminate].
    erewrite bind_Ok by reflexivity. discriminate.
Qed.

Lemma jobq_server_loop_leaves fuel s waits work timedout w w' :
  os_pthread_create (sur_os s) = 0 →
  Forall (λ status, status = 0 ∨ status = ETIMEDOUT) waits →
  jobq_server_loop fuel s waits work timedout w = Ok (tt, w') →
  ready_jobs (jq w') = [] ∧
  (quit (jq w') = true ∨ timedout = true ∨ ETIMEDOUT ∈ waits).
Proof.
  intros Hc. revert waits work timedout w.
  induction fuel as [|fuel IH]; intros waits work timedout w Hw;
    [discriminate|].
  cbn [jobq_server_loop].
  unfold mbind at 1, M_bind at 1.
  destruct (timed_wait s waits work timedout w) as [[waited w1]|] eqn:Ew;
    [|discriminate].
  apply timed_wait_run in Ew as (waits1 & timedout1 & -> & Hw1 & Hin & Ht);
    [|done].
  unfold mbind at 1, M_bind at 1.
  destruct (drain (S fuel) s w1) as [[serving w2]|] eqn:Ed; [|discriminate].
  apply drain_serves in Ed as ->; [|done]. cbn [negb].
  unfold mbind at 1, M_bind at 1.
  destruct (promote_waiting w2) as [[[] w3]|]; [|discriminate].
  unfold mbind at 1, M_bind at 1.
  destruct (end_of_turn s timedout1 w3) as [[[work1|] w4]|] eqn:Et;
    [| |discriminate].
  - intros E. apply IH in E as [Hr H]; [|done]. split; [done|].
    destruct H as [?|[?|?]]; [by left| |by right; right; apply Hin].
    destruct Ht as [?|?]; auto.
  - intros [= <-]. apply end_of_turn_leaves in Et as [Hr H].
    split; [done|]. destruct H as [?|?]; [by left|].
    destruct Ht as [?|?]; auto.
Qed.

(** X25. A worker does not walk away from ready jobs. When thread
    creation works and the timed waits return 0 or [ETIMEDOUT],
    [jobq_server] returns only with the ready list empty, and only when
    the queue has been asked to quit or one of its timed waits ran out;
    jobs on the waiting list do not keep it. *)
Theorem jobq_server_leaves_only_when_idle (fuel : nat) (s : Surroundings)
    (waits : list Z) (w w' : World) :
  os_pthread_create (sur_os s) = 0 →
  Forall (λ status, status = 0 ∨ status = ETIMEDOUT) waits →
  jobq_server fuel s waits w = Ok (tt, w') →
  ready_jobs (jq w') = [] ∧ (quit (jq w') = true ∨ ETIMEDOUT ∈ waits).
Proof.
  intros Hc Hw E. unfold jobq_server in E.
  apply jobq_server_loop_leaves in E as [Hr H]; [|done..].
  split; [done|]. destruct H as [?|[?|?]]; auto. done.
Qed.

Lemma jobq_server_leaves_only_when_idle_witness :
  ∃ w',
    jobq_server 4 (quiet sample_os) [0; ETIMEDOUT] one_waiting
    = Ok (tt, w') ∧
    ready_jobs (jq w') = [] ∧ (quit (jq w') = true ∨ ETIMEDOUT ∈ [0; ETIMEDOUT]).
Proof.
  remember (jobq_server 4 (quiet sample_os) [0; ETIMEDOUT] one_waiting) as r
    eqn:E.
  pose proof E as E'. vm_compute in E'.
  destruct r as [[[] w']|]; [|discriminate].
  exists w'. split; [done|]. symmetry in E.
  apply (jobq_server_leaves_only_when_idle 4 (quiet sample_os)
           [0; ETIMEDOUT] one_waiting w' eq_refl); [|exact E].
  apply Forall_cons; split; [by left|].
  apply Forall_cons; split; [by right|]. apply Forall_nil_2.
Defined.

(** ** A queue asked to quit while jobs are ready *)

Lemma jobq_server_loop_spins fuel s waits work timedout w :
  (∀ w, quit (jq w) = true → ready_jobs (jq w) ≠ [] →
        ∃ w', sur_others s w = Ok (tt, w') ∧
              quit (jq w') = true ∧ ready_jobs (jq w') ≠ []) →
  quit (jq w) = true → ready_jobs (jq w) ≠ [] →
  jobq_server_loop fuel s waits work timedout w = Fault OutOfFuel.
Proof.
  intros Ho. revert waits work timedout w.
  induction fuel as [|fuel IH]; intros waits work timedout w Hq Hr;
    [reflexivity|].
  cbn [jobq_server_loop]. unfold timed_wait.
  rewrite bind_assoc. erewrite bind_Ok by reflexivity. cbv beta.
  rewrite Hq. rewrite andb_false_r.
  erewrite bind_Ok by reflexivity. cbv beta iota.
  assert (Ed : drain (S fuel) s w = Ok (true, w)).
  { cbn [drain]. erewrite bind_Ok by reflexivity. cbv beta.
    rewrite Hq. by rewrite andb_false_r. }
  erewrite bind_Ok by exact Ed. cbn [negb].
  assert (Ep : promote_waiting w = Ok (tt, w)).
  { unfold promote_waiting. erewrite bind_Ok by reflexivity. cbv beta.
    rewrite Hq. by rewrite andb_false_r. }
  erewrite bind_Ok by exact Ep.
  destruct (Ho w Hq Hr) as (w1 & Eo & Hq1 & Hr1).
  assert (Et : end_of_turn s timedout w
               = Ok (Some (negb (bool_decide (ready_jobs (jq w1) = []))
                           || negb (bool_decide (waiting_jobs (jq w1) = []))),
                     w1)).
  { unfold end_of_turn. erewrite bind_Ok by reflexivity. cbv beta zeta.
    rewrite (bool_decide_eq_false_2 _ Hr). cbn [andb negb orb].
    erewrite bind_Ok by exact Eo. by erewrite bind_Ok by reflexivity. }
  erewrite bind_Ok by exact Et. cbv beta iota. by apply IH.
Qed.

(** X26. A queue asked to quit while jobs are ready keeps its workers
    for ever. With [quit] set a worker neither runs the ready jobs nor
    leaves while the ready list is not empty: as long as the other
    threads leave [quit] set and the list not empty, which every
    operation of the queue does, [jobq_server] goes round its loop,
    sleeping two seconds a turn, and does not return, whatever the
    number of turns allowed. *)
Theorem jobq_server_spins_when_quitting_with_ready_jobs (fuel : nat)
    (s : Surroundings) (waits : list Z) (w : World) :
  (∀ w, quit (jq w) = true → ready_jobs (jq w) ≠ [] →
        ∃ w', sur_others s w = Ok (tt, w') ∧
              quit (jq w') = true ∧ ready_jobs (jq w') ≠ []) →
  quit (jq w) = true → ready_jobs (jq w) ≠ [] →
  jobq_server fuel s waits w = Fault OutOfFuel.
Proof. intros Ho Hq Hr. by apply jobq_server_loop_spins. Qed.

Lemma jobq_server_spins_when_quitting_with_ready_jobs_witness :
  jobq_server 7 (quiet sample_os) [] quitting_two_ready = Fault OutOfFuel.
Proof.
  apply (jobq_server_spins_when_quitting_with_ready_jobs 7
           (quiet sample_os) [] quitting_two_ready).
  - intros w Hq Hr. exists w. done.
  - reflexivity.
  - discriminate.
Defined.

(** X27. A queue asked to quit with nothing ready loses its worker at
    once, and the waiting jobs with it: the worker does not wait, runs
    no engine, examines no waiting job and asks no resource for one, and
    returns in its first turn having only taken itself off the number of
    workers. *)
Theorem jobq_server_quits_at_once_when_nothing_is_ready (fuel : nat)
    (s : Surroundings) (waits : list Z) (w : World) :
  quit (jq w) = true → ready_jobs (jq w) = [] →
  jobq_server (S fuel) s waits w
  = Ok (tt, set_jq (set_num_workers (num_workers (jq w) - 1) (jq w)) w).
Proof.
  intros Hq Hr. unfold jobq_server. cbn [jobq_server_loop].
  unfold timed_wait.
  rewrite bind_assoc. erewrite bind_Ok by reflexivity. cbv beta.
  rewrite Hq. cbn [negb andb].
  erewrite bind_Ok by reflexivity. cbv beta iota.
  assert (Ed : drain (S fuel) s w = Ok (true, w)).
  { cbn [drain]. erewrite bind_Ok by reflexivity. cbv beta.
    rewrite Hq. by rewrite andb_false_r. }
  erewrite bind_Ok by exact Ed. cbn [negb].
  assert (Ep : promote_waiting w = Ok (tt, w)).
  { unfold promote_waiting. erewrite bind_Ok by reflexivity. cbv beta.
    rewrite Hq. by rewrite andb_false_r. }
  erewrite bind_Ok by exact Ep.
  assert (Et : end_of_turn s false w
               = Ok (None, set_jq (set_num_workers (num_workers (jq w) - 1)
                                     (jq w)) w)).
  { unfold end_of_turn. erewrite bind_Ok by reflexivity. cbv beta.
    rewrite Hq, (bool_decide_eq_true_2 _ Hr). cbn [andb].
    by erewrite bind_Ok by reflexivity. }
  by erewrite bind_Ok by exact Et.
Qed.

Lemma jobq_server_quits_at_once_when_nothing_is_ready_witness :
  ∃ w',
    jobq_server 1 (quiet sample_os) [] quitting_one_waiting = Ok (tt, w') ∧
    waiting_jobs (jq w') = [1%nat] ∧ num_workers (jq w') = 0 ∧
    heap w' = heap quitting_one_waiting ∧ calls w' = [].
Proof.
  eexists. split.
  - apply (jobq_server_quits_at_once_when_nothing_is_ready 0
             (quiet sample_os) [] quitting_one_waiting); reflexivity.
  - done.
Defined.
